(** * The arbitrage-detection core of okxauto (Go package [gookx])

    A shallow embedding of the functions that match instruments of the
    margin and swap venues, diff their mark prices, price a trade against
    order-book depth, evaluate both arbitrage directions, estimate fees and
    filter the printed rows, together with the properties the specification
    states about them.

    Numbers are Go [float64] values: they are modelled by Rocq's primitive
    binary64 floats, whose operations round exactly as Go's do (a Go compiler
    that fuses a multiplication and an addition into one instruction, as on
    arm64, would round [totalCost += cost] once instead of twice; the model
    follows the unfused evaluation of amd64). Strings are byte strings, Go
    maps are [gmap]s, and functions of Go's standard library that the code
    calls ([strconv.ParseFloat], [sort.Slice], ranging over a map, the HTTP
    fetch of an order book) are interfaces with the laws their documentation
    gives.

    The second part of the file embeds the rest of the package and the
    program around that core: the decoding of the exchange's objects, the
    fusing of mark prices into instruments, the functions of
    internal/okxapi.go that fetch instruments, prices, fees, rates, funding
    and order books (over an interface for the two HTTP requests and one for
    the JSON decoding of each answer), the table without fees and [main] of
    cmd/getinsts.go in both of its modes, with the properties of these that
    the code itself shows. The HTTP transport, the request signature and
    [SaveToFile] are not embedded. *)

From Stdlib Require Import ZArith Floats Sorted Permutation Bool Ascii String.
From stdpp Require Import base option list sorting gmap strings pretty.

Set Warnings "-inexact-float,-register-all".

(** ** Go's float64 *)

Module Float64.

Local Open Scope float_scope.

(** Go's [x > y]. *)
Definition gtb (x y : float) : bool := y <? x.

(** [math.Abs]. *)
Definition Abs (x : float) : float := abs x.

End Float64.

(** ** The parts of Go's standard library that the package calls *)

(** A Go call that returns [(value, error)]. *)
Inductive result (A : Type) : Type :=
  | Ok (a : A)
  | Err (msg : string).
Arguments Ok {A} a.
Arguments Err {A} msg.

(** [strings.Split s sep] for a separator of one byte: the pieces of [s]
    between the occurrences of [sep]; [n] occurrences give [n + 1] pieces,
    so the result is never empty. *)
Fixpoint strings_Split (s : string) (sep : ascii) : list string :=
  match s with
  | EmptyString => [EmptyString]
  | String c s' =>
      if Ascii.eqb c sep then EmptyString :: strings_Split s' sep
      else match strings_Split s' sep with
           | p :: ps => String c p :: ps
           | [] => [String c EmptyString]
           end
  end.

(** [strconv.ParseFloat s 64]: [None] stands for a non-nil error. Go accepts
    decimal and hexadecimal literals, and the spellings of infinities and
    NaN; which strings parse is left to the instance. *)
Class ParseFloat64 := strconv_ParseFloat : string -> option float.

(** The requirement [sort.Interface] puts on [Less], for the elements of the
    slice being sorted: a transitive ordering whose incomparability is
    transitive as well (a strict weak order). *)
Record strict_weak_on {A} (less : A -> A -> bool) (l : list A) : Prop := {
  swo_irrefl x : x ∈ l -> less x x = false;
  swo_trans x y z :
    x ∈ l -> y ∈ l -> z ∈ l ->
    less x y = true -> less y z = true -> less x z = true;
  swo_negtrans x y z :
    x ∈ l -> y ∈ l -> z ∈ l ->
    less x y = false -> less y z = false -> less x z = false
}.

(** [sort.Slice x less]: the slice is rearranged (always a permutation: the
    sort only swaps elements), and when [less] meets the requirement no
    element is less than one placed before it. The documentation promises
    nothing about the relative order of elements that compare equal ("the
    sort is not guaranteed to be stable"). *)
Class SortSlice := {
  sort_Slice : forall A : Type, (A -> A -> bool) -> list A -> list A;
  sort_Slice_perm : forall A (less : A -> A -> bool) (l : list A),
    sort_Slice A less l ≡ₚ l;
  sort_Slice_sorted : forall A (less : A -> A -> bool) (l : list A),
    strict_weak_on less l ->
    StronglySorted (fun a b => less b a = false) (sort_Slice A less l)
}.
Arguments sort_Slice {_ A} less l.

(** [for k, v := range m]: every entry once, in an order Go leaves
    unspecified. *)
Class MapRange := {
  map_range : forall V : Type, gmap string V -> list (string * V);
  map_range_perm : forall V (m : gmap string V), map_range V m ≡ₚ map_to_list m
}.
Arguments map_range {_ V} m.

(** A function that returns normally or stops with a run-time panic. *)
Inductive outcome (A : Type) : Type :=
  | Returns (a : A)
  | Panics.
Arguments Returns {A} a.
Arguments Panics {A}.

(** ** The data model (internal/models.go) *)

(** A decoded JSON value, as [encoding/json] stores it in an
    [interface{}]. *)
Inductive json : Type :=
  | JNull
  | JBool (b : bool)
  | JNumber (x : float)
  | JString (s : string)
  | JArray (l : list json)
  | JObject (l : list (string * json)).

Record Instrument := {
  InstID : string;
  InstType : string;
  BaseCcy : string;
  QuoteCcy : string;
  State : string;
  MarkPx : string;
  Lever : string;
  LotSz : string;
  TickSz : string;
  MinSz : string;
  MaxSz : string;
  Extra : gmap string json
}.

Record MatchingSymbol := {
  MS_BaseSymbol : string;
  MS_Margin : Instrument;
  MS_Swap : Instrument
}.

Record DiffResult := {
  DR_BaseSymbol : string;
  DR_MarginMarkPx : float;
  DR_SwapMarkPx : float;
  DR_PercentDiff : float;
  DR_ActualDiff : float;
  DR_IsContango : bool;
  DR_TermStructure : string
}.

Record FeeInfo := {
  SpotTaker : float;
  SwapTaker : float;
  MarginBorrow : float
}.

Record OrderBookLevel := {
  Price : float;
  Size : float;
  Orders : Z
}.

Record OrderBook := {
  OB_InstID : string;
  Bids : list OrderBookLevel;
  Asks : list OrderBookLevel;
  OB_TS : string
}.

Record WeightedPriceResult := {
  WP_Symbol : string;
  WP_Side : string;
  WP_TradeSize : float;
  WeightedPrice : float;
  TotalCost : float;
  Liquidity : float;
  HasEnoughLiquidity : bool;
  Slippage : float
}.

Record RealArbitrageResult := {
  RA_BaseSymbol : string;
  RA_MarginBuyPrice : float;
  RA_MarginSellPrice : float;
  RA_SwapBuyPrice : float;
  RA_SwapSellPrice : float;
  RA_PercentDiff : float;
  RA_ActualDiff : float;
  RA_IsContango : bool;
  RA_TermStructure : string;
  RA_MarginLiquidity : float;
  RA_SwapLiquidity : float;
  RA_HasEnoughLiquidity : bool;
  RA_MarginSlippage : float;
  RA_SwapSlippage : float
}.

Record TradingConfig := {
  TradeSizeUSD : float;
  MinLiquidityUSD : float;
  MaxSlippage : float;
  OrderBookDepth : Z
}.

(** The value of the anonymous struct [{Rate; TimeToFunding}] kept per symbol
    ([time.Duration] is a count of nanoseconds). *)
Record Funding := {
  Rate : float;
  TimeToFunding : Z
}.

(** [HTTPClient.FetchOrderBook ctx instID depth]: the order book the exchange
    answers with, or an error. *)
Class OrderBookClient := FetchOrderBook : string -> Z -> result OrderBook.

(** ** The functions (internal/analyzer.go, and [CalculateWeightedPrice] of
    internal/okxapi.go) *)

Section Engine.

Import Float64.
Local Open Scope string_scope.
Local Open Scope list_scope.
Local Open Scope float_scope.

Context {parse : ParseFloat64} {sorter : SortSlice} {ranger : MapRange}
        {client : OrderBookClient}.

Definition dash : ascii := Ascii.ascii_of_nat 45.

Definition ExtractBaseSymbol (instID : string) : string :=
  let parts := strings_Split instID dash in
  match parts with
  | part0 :: _ :: _ => part0
  | _ => instID
  end.

(** The two lookups of [FindMatchingSymbols]: a later instrument replaces an
    earlier one stored under the same key. *)
Definition symbolsOf (instruments : list Instrument) : gmap string Instrument :=
  foldl (fun symbols inst => <[ExtractBaseSymbol (InstID inst) := inst]> symbols)
        ∅ instruments.

(** [for _, x := range xs { ...; out = append(out, y) }], where [body] gives
    the appended value, or [None] for a turn that appends nothing. *)
Definition collect {A B} (body : A -> option B) (xs : list A) : list B :=
  foldl (fun out x => match body x with Some y => out ++ [y] | None => out end)
        [] xs.

Definition FindMatchingSymbols (marginInstruments swapInstruments : list Instrument)
  : list MatchingSymbol :=
  let marginSymbols := symbolsOf marginInstruments in
  let swapSymbols := symbolsOf swapInstruments in
  collect (fun '(baseSymbol, marginInst) =>
             match swapSymbols !! baseSymbol with
             | Some swapInst =>
                 Some {| MS_BaseSymbol := baseSymbol;
                         MS_Margin := marginInst;
                         MS_Swap := swapInst |}
             | None => None
             end)
          (map_range marginSymbols).

Definition ParseFloat (s : string) : option float :=
  if String.eqb s "" then None else strconv_ParseFloat s.

(** One turn of the loop of [CalculateTopMarkPxDiffs]: the result appended
    for the pair, or [None] where the loop continues with the next pair (the
    warnings it logs are not modelled). *)
Definition markPxDiff (minDiff : float) (match_ : MatchingSymbol) : option DiffResult :=
  match ParseFloat (MarkPx (MS_Margin match_)) with
  | None => None
  | Some marginPx =>
      match ParseFloat (MarkPx (MS_Swap match_)) with
      | None => None
      | Some swapPx =>
          if (marginPx <=? 0) || (swapPx <=? 0) then None
          else
            let actualDiff := swapPx - marginPx in
            let meanPx := (marginPx + swapPx) / 2 in
            let percentDiff := 100 * Abs actualDiff / meanPx in
            if percentDiff <? minDiff then None
            else
              let isContango := gtb actualDiff 0 in
              let termStructure :=
                if isContango then "Contango" else "Backwardation" in
              Some {| DR_BaseSymbol := MS_BaseSymbol match_;
                      DR_MarginMarkPx := marginPx;
                      DR_SwapMarkPx := swapPx;
                      DR_PercentDiff := percentDiff;
                      DR_ActualDiff := actualDiff;
                      DR_IsContango := isContango;
                      DR_TermStructure := termStructure |}
      end
  end.

(** [xs[:n]] for an [int] [n] known to be less than [len(xs)]: a negative
    bound panics. *)
Definition slice_to {A} (xs : list A) (n : Z) : outcome (list A) :=
  if (n <? 0)%Z then Panics else Returns (take (Z.to_nat n) xs).

Definition CalculateTopMarkPxDiffs (matches : list MatchingSymbol) (topN : Z)
    (minDiff : float) : outcome (list DiffResult) :=
  let diffs := collect (markPxDiff minDiff) matches in
  let diffs :=
    sort_Slice (fun di dj => gtb (DR_PercentDiff di) (DR_PercentDiff dj)) diffs in
  if (topN <? Z.of_nat (length diffs))%Z then slice_to diffs topN
  else Returns diffs.

Definition EstimateFees (diff : DiffResult) (fees : FeeInfo)
    (borrowRates : gmap string float) : float :=
  let fee := (SpotTaker fees * 2) + (SwapTaker fees * 2) in
  if String.eqb (DR_TermStructure diff) "Backwardation" then
    let borrow :=
      match borrowRates !! DR_BaseSymbol diff with
      | Some r => if gtb r 0 then r else MarginBorrow fees
      | None => MarginBorrow fees
      end in
    fee + borrow * 1
  else fee.

(** *** Pricing a trade against the book *)

Record fill := {
  totalCost : float;
  remainingSize : float;
  liquidity : float
}.

(** The loop over the levels, from the state it is entered with. *)
Fixpoint walkLevels (levels : list OrderBookLevel) (st : fill) : fill :=
  match levels with
  | [] => st
  | level :: rest =>
      if remainingSize st <=? 0 then st
      else
        let levelSize :=
          if remainingSize st <? Size level then remainingSize st
          else Size level in
        let cost := levelSize * Price level in
        walkLevels rest
          {| totalCost := totalCost st + cost;
             remainingSize := remainingSize st - levelSize;
             liquidity := liquidity st + levelSize * Price level |}
  end.

(** The function once [levels] and [bestPrice] are chosen. *)
Definition weighLevels (orderBook : OrderBook) (side : string) (tradeSize : float)
    (levels : list OrderBookLevel) (bestPrice : float) : WeightedPriceResult :=
  let st := walkLevels levels
              {| totalCost := 0; remainingSize := tradeSize; liquidity := 0 |} in
  if gtb (remainingSize st) 0 then
    {| WP_Symbol := OB_InstID orderBook;
       WP_Side := side;
       WP_TradeSize := tradeSize;
       WeightedPrice := 0;
       TotalCost := 0;
       Liquidity := liquidity st;
       HasEnoughLiquidity := false;
       Slippage := 0 |}
  else
    let weightedPrice := totalCost st / tradeSize in
    let slippage :=
      if String.eqb side "buy" then ((weightedPrice - bestPrice) / bestPrice) * 100
      else ((bestPrice - weightedPrice) / bestPrice) * 100 in
    {| WP_Symbol := OB_InstID orderBook;
       WP_Side := side;
       WP_TradeSize := tradeSize;
       WeightedPrice := weightedPrice;
       TotalCost := totalCost st;
       Liquidity := liquidity st;
       HasEnoughLiquidity := true;
       Slippage := slippage |}.

(** The book is passed by pointer; the callers pass a book that was fetched
    without error, which is never nil. *)
Definition CalculateWeightedPrice (orderBook : OrderBook) (side : string)
    (tradeSize : float) : result WeightedPriceResult :=
  if String.eqb side "buy" then
    match Asks orderBook with
    | [] => Err "no ask orders available"
    | best :: _ =>
        Ok (weighLevels orderBook side tradeSize (Asks orderBook) (Price best))
    end
  else if String.eqb side "sell" then
    match Bids orderBook with
    | [] => Err "no bid orders available"
    | best :: _ =>
        Ok (weighLevels orderBook side tradeSize (Bids orderBook) (Price best))
    end
  else Err (String.append "invalid side: " side).

(** *** Arbitrage on execution prices *)

(** One turn of the loop of [CalculateRealArbitrageOpportunities]; [None]
    where the loop continues with the next pair (the warnings it prints on
    the way are not modelled). *)
Definition realArbitrage (config : TradingConfig) (match_ : MatchingSymbol)
  : option RealArbitrageResult :=
  match FetchOrderBook (InstID (MS_Margin match_)) (OrderBookDepth config) with
  | Err _ => None
  | Ok marginOrderBook =>
  match FetchOrderBook (InstID (MS_Swap match_)) (OrderBookDepth config) with
  | Err _ => None
  | Ok swapOrderBook =>
  match ParseFloat (MarkPx (MS_Margin match_)) with
  | None => None
  | Some marginPrice =>
  if marginPrice <=? 0 then None else
  let tradeSizeBase := TradeSizeUSD config / marginPrice in
  match CalculateWeightedPrice marginOrderBook "buy" tradeSizeBase with
  | Err _ => None
  | Ok marginBuy =>
  match CalculateWeightedPrice marginOrderBook "sell" tradeSizeBase with
  | Err _ => None
  | Ok marginSell =>
  match CalculateWeightedPrice swapOrderBook "buy" tradeSizeBase with
  | Err _ => None
  | Ok swapBuy =>
  match CalculateWeightedPrice swapOrderBook "sell" tradeSizeBase with
  | Err _ => None
  | Ok swapSell =>
  let hasEnoughLiquidity :=
    HasEnoughLiquidity marginBuy && HasEnoughLiquidity marginSell &&
    HasEnoughLiquidity swapBuy && HasEnoughLiquidity swapSell in
  if negb hasEnoughLiquidity then None else
  if gtb (Slippage marginBuy) (MaxSlippage config)
     || gtb (Slippage marginSell) (MaxSlippage config)
     || gtb (Slippage swapBuy) (MaxSlippage config)
     || gtb (Slippage swapSell) (MaxSlippage config) then None else
  let contangoDiff := WeightedPrice swapSell - WeightedPrice marginBuy in
  let contangoPercent :=
    (contangoDiff / ((WeightedPrice swapSell + WeightedPrice marginBuy) / 2)) * 100 in
  let backwardationDiff := WeightedPrice marginSell - WeightedPrice swapBuy in
  let backwardationPercent :=
    (backwardationDiff
       / ((WeightedPrice marginSell + WeightedPrice swapBuy) / 2)) * 100 in
  if gtb contangoPercent backwardationPercent && gtb contangoPercent 0 then
    Some {| RA_BaseSymbol := MS_BaseSymbol match_;
            RA_MarginBuyPrice := WeightedPrice marginBuy;
            RA_MarginSellPrice := WeightedPrice marginSell;
            RA_SwapBuyPrice := WeightedPrice swapBuy;
            RA_SwapSellPrice := WeightedPrice swapSell;
            RA_PercentDiff := contangoPercent;
            RA_ActualDiff := contangoDiff;
            RA_IsContango := true;
            RA_TermStructure := "Contango";
            RA_MarginLiquidity := Liquidity marginBuy;
            RA_SwapLiquidity := Liquidity swapSell;
            RA_HasEnoughLiquidity := hasEnoughLiquidity;
            RA_MarginSlippage := Slippage marginBuy;
            RA_SwapSlippage := Slippage swapSell |}
  else if gtb backwardationPercent 0 then
    Some {| RA_BaseSymbol := MS_BaseSymbol match_;
            RA_MarginBuyPrice := WeightedPrice marginBuy;
            RA_MarginSellPrice := WeightedPrice marginSell;
            RA_SwapBuyPrice := WeightedPrice swapBuy;
            RA_SwapSellPrice := WeightedPrice swapSell;
            RA_PercentDiff := backwardationPercent;
            RA_ActualDiff := backwardationDiff;
            RA_IsContango := false;
            RA_TermStructure := "Backwardation";
            RA_MarginLiquidity := Liquidity marginSell;
            RA_SwapLiquidity := Liquidity swapBuy;
            RA_HasEnoughLiquidity := hasEnoughLiquidity;
            RA_MarginSlippage := Slippage marginSell;
            RA_SwapSlippage := Slippage swapBuy |}
  else None
  end end end end end end end.

Definition CalculateRealArbitrageOpportunities (matches : list MatchingSymbol)
    (config : TradingConfig) : list RealArbitrageResult :=
  let results := collect (realArbitrage config) matches in
  sort_Slice (fun ri rj => gtb (RA_PercentDiff ri) (RA_PercentDiff rj)) results.

(** *** The printed tables

    What the two printing functions write to standard output is modelled by
    the list of the data rows, each with the values its columns show; the
    two header lines, which only mention [len(diffs)] and [minDiff], are
    left out. An absent key of a Go map reads as the zero value. *)

Definition noFunding : Funding := {| Rate := 0; TimeToFunding := 0 |}.

Record DiffRow := {
  DRow_diff : DiffResult;
  DRow_funding : Funding;
  DRow_feesPct : float;
  DRow_actualProfit : float
}.

Definition PrintTopMarkPxDiffsWithFundingAndFees (diffs : list DiffResult)
    (fundingMap : gmap string Funding) (feesMap : gmap string float)
    (minDiff : float) : list DiffRow :=
  collect (fun d =>
    let funding := default noFunding (fundingMap !! DR_BaseSymbol d) in
    let fees := default 0 (feesMap !! DR_BaseSymbol d) in
    let feesPct := fees * 100 in
    let actualProfit := DR_PercentDiff d - feesPct in
    if actualProfit <? 0.06 then None
    else Some {| DRow_diff := d;
                 DRow_funding := funding;
                 DRow_feesPct := feesPct;
                 DRow_actualProfit := actualProfit |}) diffs.

Record RealRow := {
  RRow_result : RealArbitrageResult;
  RRow_funding : Funding;
  RRow_feesPct : float;
  RRow_actualProfit : float;
  RRow_avgSlippage : float
}.

Definition PrintRealArbitrageResults (results : list RealArbitrageResult)
    (fundingMap : gmap string Funding) (feesMap : gmap string float)
    (minDiff : float) : list RealRow :=
  collect (fun r =>
    let funding := default noFunding (fundingMap !! RA_BaseSymbol r) in
    let fees := default 0 (feesMap !! RA_BaseSymbol r) in
    let feesPct := fees * 100 in
    let actualProfit := RA_PercentDiff r - feesPct in
    let avgSlippage := (RA_MarginSlippage r + RA_SwapSlippage r) / 2 in
    if actualProfit <? 0.06 then None
    else Some {| RRow_result := r;
                 RRow_funding := funding;
                 RRow_feesPct := feesPct;
                 RRow_actualProfit := actualProfit;
                 RRow_avgSlippage := avgSlippage |}) results.

End Engine.

(** ** Facts about float64

    The comparisons and the operations of primitive floats are specified by
    their images in [spec_float]; what the properties below need is derived
    from that specification. *)

Module Float64Facts.

Import Float64.
Local Open Scope float_scope.

(** The image of a float in the specification type, and what it is for a
    NaN. *)
Lemma Prim2SF_nan_iff x : Prim2SF x = S754_nan <-> is_nan x = true.
Proof.
  unfold Prim2SF. destruct (is_nan x); [tauto|].
  split; [|discriminate].
  destruct (is_zero x); [discriminate|].
  destruct (is_infinity x); [discriminate|].
  destruct (Z.frexp x) as [r e].
  destruct (shr_fexp _ _ _ _ _) as [s e'].
  destruct (shr_m s); discriminate.
Qed.

Lemma SFcompare_nan_l y : SFcompare S754_nan y = None.
Proof. reflexivity. Qed.

Lemma SFcompare_nan_r x : SFcompare x S754_nan = None.
Proof. by destruct x. Qed.

Lemma SFcompare_Some x y :
  x <> S754_nan -> y <> S754_nan -> exists c, SFcompare x y = Some c.
Proof. destruct x, y; simpl; intros; try congruence; eauto. Qed.

(** [SFcompare] compares the triples (sign, exponent, mantissa)
    lexicographically, so it is an order whatever the mantissas are. *)
Definition SFkey (x : spec_float) : Z * Z * Z :=
  match x with
  | S754_nan => (0, 0, 0)
  | S754_zero _ => (0, 0, 0)
  | S754_infinity true => (-2, 0, 0)
  | S754_infinity false => (2, 0, 0)
  | S754_finite true m e => (-1, - e, - Z.pos m)
  | S754_finite false m e => (1, e, Z.pos m)
  end%Z.

Definition key_compare (a b : Z * Z * Z) : comparison :=
  let '(a1, a2, a3) := a in
  let '(b1, b2, b3) := b in
  match (a1 ?= b1)%Z with
  | Eq => match (a2 ?= b2)%Z with Eq => (a3 ?= b3)%Z | c => c end
  | c => c
  end.

Lemma SFcompare_key x y :
  x <> S754_nan -> y <> S754_nan ->
  SFcompare x y = Some (key_compare (SFkey x) (SFkey y)).
Proof.
  intros Hx Hy.
  destruct x as [[]|[]| |[] mx ex], y as [[]|[]| |[] my ey];
    try congruence; try reflexivity; simpl.
  rewrite Z.compare_opp, (Z.compare_antisym ex ey).
  destruct (ex ?= ey)%Z; reflexivity.
Qed.

Lemma key_compare_Lt_trans a b c :
  key_compare a b = Lt -> key_compare b c = Lt -> key_compare a c = Lt.
Proof.
  destruct a as [[a1 a2] a3], b as [[b1 b2] b3], c as [[c1 c2] c3]; simpl.
  destruct (Z.compare_spec a1 b1), (Z.compare_spec b1 c1),
    (Z.compare_spec a1 c1); try discriminate; try lia; try reflexivity;
  destruct (Z.compare_spec a2 b2), (Z.compare_spec b2 c2),
    (Z.compare_spec a2 c2); try discriminate; try lia; try reflexivity;
  destruct (Z.compare_spec a3 b3), (Z.compare_spec b3 c3),
    (Z.compare_spec a3 c3); try discriminate; try lia; reflexivity.
Qed.

Lemma key_compare_nLt_trans a b c :
  key_compare a b <> Lt -> key_compare b c <> Lt -> key_compare a c <> Lt.
Proof.
  destruct a as [[a1 a2] a3], b as [[b1 b2] b3], c as [[c1 c2] c3]; simpl.
  destruct (Z.compare_spec a1 b1), (Z.compare_spec b1 c1),
    (Z.compare_spec a1 c1); try congruence; try lia;
  destruct (Z.compare_spec a2 b2), (Z.compare_spec b2 c2),
    (Z.compare_spec a2 c2); try congruence; try lia;
  destruct (Z.compare_spec a3 b3), (Z.compare_spec b3 c3),
    (Z.compare_spec a3 c3); try congruence; lia.
Qed.

Lemma key_compare_antisym a b : key_compare b a = CompOpp (key_compare a b).
Proof.
  destruct a as [[a1 a2] a3], b as [[b1 b2] b3]; simpl.
  rewrite (Z.compare_antisym a1 b1), (Z.compare_antisym a2 b2),
    (Z.compare_antisym a3 b3).
  destruct (a1 ?= b1)%Z, (a2 ?= b2)%Z, (a3 ?= b3)%Z; reflexivity.
Qed.

Definition fkey (x : float) : Z * Z * Z := SFkey (Prim2SF x).

Lemma is_nan_false_SF x : is_nan x = false -> Prim2SF x <> S754_nan.
Proof. intros H E. apply Prim2SF_nan_iff in E. congruence. Qed.

Lemma ltb_key x y :
  is_nan x = false -> is_nan y = false ->
  (x <? y) = match key_compare (fkey x) (fkey y) with Lt => true | _ => false end.
Proof.
  intros Hx%is_nan_false_SF Hy%is_nan_false_SF.
  rewrite ltb_spec. unfold SFltb, fkey. by rewrite SFcompare_key.
Qed.

Lemma leb_key x y :
  is_nan x = false -> is_nan y = false ->
  (x <=? y) = match key_compare (fkey x) (fkey y) with Gt => false | _ => true end.
Proof.
  intros Hx%is_nan_false_SF Hy%is_nan_false_SF.
  rewrite leb_spec. unfold SFleb, fkey. rewrite SFcompare_key by done.
  by destruct (key_compare _ _).
Qed.

(** Every comparison with a NaN is false. *)
Lemma ltb_nan_l x y : is_nan x = true -> (x <? y) = false.
Proof.
  intros H%Prim2SF_nan_iff. rewrite ltb_spec. unfold SFltb. by rewrite H.
Qed.

Lemma ltb_nan_r x y : is_nan y = true -> (x <? y) = false.
Proof.
  intros H%Prim2SF_nan_iff. rewrite ltb_spec. unfold SFltb.
  by rewrite H, SFcompare_nan_r.
Qed.

Lemma leb_nan_l x y : is_nan x = true -> (x <=? y) = false.
Proof.
  intros H%Prim2SF_nan_iff. rewrite leb_spec. unfold SFleb. by rewrite H.
Qed.

Lemma leb_nan_r x y : is_nan y = true -> (x <=? y) = false.
Proof.
  intros H%Prim2SF_nan_iff. rewrite leb_spec. unfold SFleb.
  by rewrite H, SFcompare_nan_r.
Qed.

Lemma ltb_true_num x y : (x <? y) = true -> is_nan x = false /\ is_nan y = false.
Proof.
  intros H. split.
  - destruct (is_nan x) eqn:E; [|done]. by rewrite ltb_nan_l in H.
  - destruct (is_nan y) eqn:E; [|done]. by rewrite ltb_nan_r in H.
Qed.

Lemma leb_true_num x y : (x <=? y) = true -> is_nan x = false /\ is_nan y = false.
Proof.
  intros H. split.
  - destruct (is_nan x) eqn:E; [|done]. by rewrite leb_nan_l in H.
  - destruct (is_nan y) eqn:E; [|done]. by rewrite leb_nan_r in H.
Qed.

(** [<] is a strict order on all floats ... *)
Lemma ltb_irrefl x : (x <? x) = false.
Proof.
  destruct (is_nan x) eqn:E; [by apply ltb_nan_l|].
  rewrite ltb_key by done.
  pose proof (key_compare_antisym (fkey x) (fkey x)) as H.
  by destruct (key_compare _ _).
Qed.

Lemma ltb_asym x y : (x <? y) = true -> (y <? x) = false.
Proof.
  intros H. destruct (ltb_true_num _ _ H) as [Hx Hy].
  rewrite ltb_key in H |- * by done.
  rewrite (key_compare_antisym (fkey x) (fkey y)).
  by destruct (key_compare (fkey x) (fkey y)).
Qed.

Lemma ltb_trans x y z : (x <? y) = true -> (y <? z) = true -> (x <? z) = true.
Proof.
  intros H1 H2.
  destruct (ltb_true_num _ _ H1) as [Hx Hy].
  destruct (ltb_true_num _ _ H2) as [_ Hz].
  rewrite ltb_key in H1, H2 |- * by done.
  rewrite (key_compare_Lt_trans (fkey x) (fkey y) (fkey z)); [done| |].
  - by destruct (key_compare (fkey x) (fkey y)).
  - by destruct (key_compare (fkey y) (fkey z)).
Qed.

(** ... and, NaNs apart, a strict weak order: being incomparable is
    transitive. *)
Lemma ltb_negtrans x y z :
  is_nan x = false -> is_nan y = false -> is_nan z = false ->
  (x <? y) = false -> (y <? z) = false -> (x <? z) = false.
Proof.
  intros Hx Hy Hz. rewrite !ltb_key by done. intros H1 H2.
  pose proof (key_compare_nLt_trans (fkey x) (fkey y) (fkey z)) as H.
  destruct (key_compare (fkey x) (fkey y)), (key_compare (fkey y) (fkey z)),
    (key_compare (fkey x) (fkey z)); try done; exfalso; by apply H.
Qed.

Lemma ltb_false_leb x y :
  is_nan x = false -> is_nan y = false -> (x <? y) = false -> (y <=? x) = true.
Proof.
  intros Hx Hy. rewrite ltb_key, leb_key by done.
  rewrite (key_compare_antisym (fkey x) (fkey y)).
  by destruct (key_compare (fkey x) (fkey y)).
Qed.

Lemma leb_ltb_false x y : (y <=? x) = true -> (x <? y) = false.
Proof.
  intros H. destruct (leb_true_num _ _ H) as [Hy Hx].
  rewrite leb_key in H by done. rewrite ltb_key by done.
  rewrite (key_compare_antisym (fkey y) (fkey x)).
  by destruct (key_compare (fkey y) (fkey x)).
Qed.

Lemma ltb_leb x y : (x <? y) = true -> (x <=? y) = true.
Proof.
  intros H. destruct (ltb_true_num _ _ H) as [Hx Hy].
  rewrite ltb_key in H by done. rewrite leb_key by done.
  by destruct (key_compare (fkey x) (fkey y)).
Qed.

Lemma leb_refl x : is_nan x = false -> (x <=? x) = true.
Proof. intros Hx. apply ltb_false_leb; auto using ltb_irrefl. Qed.

Lemma leb_trans x y z : (x <=? y) = true -> (y <=? z) = true -> (x <=? z) = true.
Proof.
  intros H1 H2.
  destruct (leb_true_num _ _ H1) as [Hx Hy].
  destruct (leb_true_num _ _ H2) as [_ Hz].
  apply ltb_false_leb; [done..|].
  apply (ltb_negtrans z y x); auto using leb_ltb_false.
Qed.

Lemma leb_ltb_trans x y z : (x <=? y) = true -> (y <? z) = true -> (x <? z) = true.
Proof.
  intros H1 H2.
  destruct (leb_true_num _ _ H1) as [Hx Hy].
  destruct (ltb_true_num _ _ H2) as [_ Hz].
  destruct (x <? z) eqn:E; [done|].
  apply ltb_false_leb in E; [|done..].
  by rewrite (leb_ltb_false _ _ (leb_trans _ _ _ E H1)) in H2.
Qed.

Lemma ltb_leb_trans x y z : (x <? y) = true -> (y <=? z) = true -> (x <? z) = true.
Proof.
  intros H1 H2.
  destruct (ltb_true_num _ _ H1) as [Hx Hy].
  destruct (leb_true_num _ _ H2) as [_ Hz].
  destruct (x <? z) eqn:E; [done|].
  apply ltb_false_leb in E; [|done..].
  by rewrite (leb_ltb_false _ _ (leb_trans _ _ _ H2 E)) in H1.
Qed.

(** *** Arithmetic identities that hold bit for bit *)

Lemma add_comm x y : x + y = y + x.
Proof.
  apply Prim2SF_inj. rewrite !add_spec. unfold SF64add.
  destruct (Prim2SF x) as [[]|[]| |sx mx ex], (Prim2SF y) as [[]|[]| |sy my ey];
    try reflexivity.
  unfold SFadd. by rewrite Z.min_comm, Z.add_comm.
Qed.

Lemma mul_comm x y : x * y = y * x.
Proof.
  apply Prim2SF_inj. rewrite !mul_spec. unfold SF64mul.
  destruct (Prim2SF x) as [sx|sx| |sx mx ex], (Prim2SF y) as [sy|sy| |sy my ey];
    simpl; rewrite ?(xorb_comm sx sy); try reflexivity.
  by rewrite Pos.mul_comm, Z.add_comm.
Qed.

(** Multiplying by one changes nothing: the product of the mantissa by
    [2^52] is shifted back by 52 bits without losing any. *)
Lemma digits2_pos_xO p : digits2_pos (xO p) = Pos.succ (digits2_pos p).
Proof. reflexivity. Qed.

Lemma shr_1_xO p :
  shr_1 {| shr_m := Z.pos (xO p); shr_r := false; shr_s := false |}
  = {| shr_m := Z.pos p; shr_r := false; shr_s := false |}.
Proof. reflexivity. Qed.

Lemma SFmul_one_r x : valid_binary x = true -> SF64mul x (Prim2SF 1) = x.
Proof.
  change (Prim2SF 1) with (S754_finite false 4503599627370496 (-52)).
  destruct x as [s|s| |s m e]; simpl; rewrite ?xorb_false_r; try reflexivity.
  intros Hv. unfold SpecFloat.valid_binary, bounded, canonical_mantissa in Hv.
  apply andb_prop in Hv as [Hc He]. apply Z.eqb_eq in Hc.
  unfold binary_round_aux.
  rewrite Pos.mul_comm.
  let t := eval cbv beta iota delta [Pos.mul] in (4503599627370496 * m)%positive in
  change (4503599627370496 * m)%positive with t.
  unfold shr_fexp at 1. unfold Zdigits2.
  rewrite !digits2_pos_xO, !Pos2Z.inj_succ.
  replace (Z.succ _ + (e + -52))%Z with (Z.pos (digits2_pos m) + e)%Z by lia.
  rewrite Hc.
  replace (e - (e + -52))%Z with 52%Z by lia.
  unfold shr, shr_record_of_loc.
  cbv beta iota delta [SpecFloat.iter_pos]. rewrite !shr_1_xO.
  unfold loc_of_shr_record, round_nearest_even;
    cbv beta iota delta [shr_m shr_r shr_s].
  replace (e + -52 + 52)%Z with e by lia.
  unfold shr_fexp, Zdigits2. rewrite Hc, Z.sub_diag.
  unfold shr, shr_record_of_loc; cbv beta iota delta [shr_m].
  rewrite He. reflexivity.
Qed.

Lemma mul_one_r x : x * 1 = x.
Proof.
  apply Prim2SF_inj. rewrite mul_spec. apply SFmul_one_r, Prim2SF_valid.
Qed.

Lemma SFabs_binary_round s m e :
  SFabs (binary_round prec emax s m e) = SFabs (binary_round prec emax false m e).
Proof.
  unfold binary_round, binary_round_aux.
  destruct (shl_align _ _ _) as [mz ez].
  destruct (shr_fexp _ _ _ _ _) as [mrs e'].
  destruct (shr_fexp _ _ _ _ _) as [mrs' e''].
  destruct (shr_m mrs'); [reflexivity| |reflexivity].
  by destruct (_ <=? _)%Z.
Qed.

Lemma SFabs_binary_normalize_opp m e :
  SFabs (binary_normalize prec emax (- m) e false)
  = SFabs (binary_normalize prec emax m e false).
Proof.
  destruct m; simpl;
    [reflexivity | apply SFabs_binary_round | symmetry; apply SFabs_binary_round].
Qed.

Lemma SFabs_sub_swap x y :
  SFabs (SF64sub x y) = SFabs (SF64sub y x).
Proof.
  unfold SF64sub.
  destruct x as [[]|[]| |sx mx ex], y as [[]|[]| |sy my ey]; try reflexivity.
  unfold SFsub. rewrite (Z.min_comm ey ex).
  rewrite <- SFabs_binary_normalize_opp. f_equal. f_equal. lia.
Qed.

(** [|x - y|] does not depend on the order of the operands. *)
Lemma abs_sub_swap x y : abs (x - y) = abs (y - x).
Proof.
  apply Prim2SF_inj. rewrite !abs_spec, !sub_spec. apply SFabs_sub_swap.
Qed.

(** A NaN operand gives a NaN, and so does [0 / 0]. *)
Lemma SF2Prim_nan x : Prim2SF x = S754_nan -> x = nan.
Proof. intros H. rewrite <- (SF2Prim_Prim2SF x), H. reflexivity. Qed.

Lemma sub_nan_l y : nan - y = nan.
Proof. apply SF2Prim_nan. rewrite sub_spec. reflexivity. Qed.

Lemma sub_nan_r x : x - nan = nan.
Proof.
  apply SF2Prim_nan. rewrite sub_spec.
  change (Prim2SF nan) with S754_nan. unfold SF64sub.
  by destruct (Prim2SF x) as [[]|[]| |[]].
Qed.

Lemma div_nan_l y : nan / y = nan.
Proof. apply SF2Prim_nan. rewrite div_spec. reflexivity. Qed.

Lemma mul_nan_l y : nan * y = nan.
Proof. apply SF2Prim_nan. rewrite mul_spec. reflexivity. Qed.

Lemma eqb_zero_cases x : (x =? 0) = true -> x = 0 \/ x = (-0).
Proof.
  rewrite FloatAxioms.eqb_spec. unfold SFeqb. intros H.
  assert (exists s, Prim2SF x = S754_zero s) as [s Hs].
  { change (Prim2SF 0) with (S754_zero false) in H.
    destruct (Prim2SF x) as [s|[]| |[]]; try discriminate; eauto. }
  rewrite <- (SF2Prim_Prim2SF x), Hs. destruct s; [right|left]; reflexivity.
Qed.

(** A float strictly between two others is finite, and a finite float minus
    itself is [+0]. *)
Lemma SFsub_diag x :
  (forall s, x <> S754_infinity s) -> x <> S754_nan ->
  SF64sub x x = S754_zero false.
Proof.
  intros Hinf Hnan. destruct x as [[]|s| |s m e]; try done.
  - by destruct (Hinf s).
  - unfold SF64sub, SFsub. by rewrite Z.sub_diag.
Qed.

Lemma sub_diag_between lo x hi :
  (lo <? x) = true -> (x <? hi) = true -> x - x = 0.
Proof.
  rewrite !ltb_spec. unfold SFltb. intros Hlo Hhi.
  apply Prim2SF_inj. rewrite sub_spec. apply SFsub_diag.
  - intros s E. rewrite E in Hlo, Hhi. destruct s.
    + by destruct (Prim2SF lo) as [|[]| |[]].
    + by destruct (Prim2SF hi) as [|[]| |[]].
  - intros E. rewrite E in Hhi. done.
Qed.

Lemma leb_false_ltb x y :
  is_nan x = false -> is_nan y = false -> (x <=? y) = false -> (y <? x) = true.
Proof.
  intros Hx Hy H. destruct (y <? x) eqn:E; [done|].
  by rewrite (ltb_false_leb _ _ Hy Hx E) in H.
Qed.

End Float64Facts.

(** *** The sort Go runs on slices of at most twelve elements

    For such slices [sort.Slice] is an insertion sort (since Go 1.19; before,
    for slices of fewer than seven elements): each element in turn is
    swapped towards the front while it is less than its left neighbour. The
    sorted prefix is kept reversed here, so that the left neighbour is the
    head. Longer slices are sorted by a pattern-defeating quicksort that
    this development does not model: it is covered by the contract
    only. *)
Module InsertionSort.
Section sort.
Context {A : Type} (less : A -> A -> bool).

Fixpoint sink (x : A) (rprefix : list A) : list A :=
  match rprefix with
  | [] => [x]
  | p :: ps => if less x p then p :: sink x ps else x :: p :: ps
  end.

Definition insertionSort (l : list A) : list A :=
  reverse (foldl (fun rprefix x => sink x rprefix) [] l).

Lemma sink_perm x rp : sink x rp ≡ₚ x :: rp.
Proof.
  induction rp as [|p ps IH]; simpl; [done|].
  destruct (less x p); [|done].
  rewrite IH. apply Permutation_swap.
Qed.

Lemma foldl_sink_perm l acc :
  foldl (fun rprefix x => sink x rprefix) acc l ≡ₚ l ++ acc.
Proof.
  revert acc. induction l as [|x l IH]; intros acc; simpl; [done|].
  rewrite IH, sink_perm. by rewrite Permutation_middle.
Qed.

Lemma insertionSort_perm l : insertionSort l ≡ₚ l.
Proof.
  unfold insertionSort. rewrite reverse_Permutation, foldl_sink_perm.
  by rewrite app_nil_r.
Qed.

(** In the reversed prefix every element is not less than the ones after
    it. *)
Definition rsorted (U : list A) (rp : list A) : Prop :=
  StronglySorted (fun a b => less a b = false) rp /\ rp ⊆ U.

Lemma sink_rsorted U x rp :
  strict_weak_on less U -> x ∈ U -> rsorted U rp -> rsorted U (sink x rp).
Proof.
  intros Hswo Hx [Hs Hsub]. split.
  2:{ intros y Hy%(elem_of_Permutation_proper _ _ _ (sink_perm x rp)).
      apply elem_of_cons in Hy as [->|Hy]; auto. }
  induction Hs as [|p ps Hs IH Hp]; simpl.
  { repeat constructor. }
  assert (p ∈ U) as HpU by (apply Hsub; left).
  assert (ps ⊆ U) as HpsU by (intros y Hy; apply Hsub; by right).
  destruct (less x p) eqn:Hxp.
  - constructor; [by apply IH|].
    apply Forall_forall. intros y Hy.
    apply (elem_of_Permutation_proper _ _ _ (sink_perm x ps)) in Hy.
    apply elem_of_cons in Hy as [->|Hy].
    + destruct (less p x) eqn:Hpx; [|done].
      rewrite <- (swo_irrefl less U Hswo x Hx).
      symmetry. by apply (swo_trans less U Hswo x p x).
    + by eapply Forall_forall in Hp.
  - constructor; [by constructor|].
    constructor; [done|].
    apply Forall_forall. intros y Hy.
    apply (swo_negtrans less U Hswo x p y); auto.
    by eapply Forall_forall in Hp.
Qed.

Lemma foldl_sink_rsorted U l acc :
  strict_weak_on less U -> l ⊆ U -> rsorted U acc ->
  rsorted U (foldl (fun rprefix x => sink x rprefix) acc l).
Proof.
  intros Hswo. revert acc.
  induction l as [|x l IH]; intros acc Hl Hacc; simpl; [done|].
  apply IH.
  - intros y Hy. apply Hl. by right.
  - apply sink_rsorted; auto. apply Hl. left.
Qed.

Lemma StronglySorted_reverse (R : relation A) l :
  StronglySorted R l -> StronglySorted (flip R) (reverse l).
Proof.
  induction 1 as [|x l Hl IH Hx]; [constructor|].
  rewrite reverse_cons. apply StronglySorted_app; split_and!.
  - intros y z Hy ->%list_elem_of_singleton.
    rewrite elem_of_reverse in Hy.
    rewrite Forall_forall in Hx. unfold flip. by apply Hx.
  - done.
  - repeat constructor.
Qed.

Lemma insertionSort_sorted l :
  strict_weak_on less l ->
  StronglySorted (fun a b => less b a = false) (insertionSort l).
Proof.
  intros Hswo. unfold insertionSort.
  apply (StronglySorted_reverse (fun a b => less a b = false)).
  apply (foldl_sink_rsorted l l []); [done|done|].
  split; [constructor|]. intros y Hy. by apply elem_of_nil in Hy.
Qed.
End sort.
End InsertionSort.

#[export] Instance insertion_SortSlice : SortSlice := {|
  sort_Slice A less l := InsertionSort.insertionSort less l;
  sort_Slice_perm A less l := InsertionSort.insertionSort_perm less l;
  sort_Slice_sorted A less l := InsertionSort.insertionSort_sorted less l
|}.

(** Ranging in the order of [map_to_list] is one of the orders Go may take. *)
#[export] Instance canonical_MapRange : MapRange := {|
  map_range V m := map_to_list m;
  map_range_perm V m := reflexivity _
|}.

(** ** A reader of plain decimals

    An instance of [strconv.ParseFloat] for the examples: it reads
    [digits], [digits.digits], [.digits] and [digits.] when the digits
    together are an integer below [2^53] and at most 18 of them follow the
    point. Then the integer and the power of ten are both floats (and both
    fit the 63-bit integers they are converted from) and one division rounds
    the quotient once, which is the correctly rounded value Go returns.
    Every other string is rejected here (Go reads more: signs, exponents,
    infinities, NaN). *)
Module Decimal.

Definition digit (c : ascii) : option Z :=
  let n := Z.of_nat (nat_of_ascii c) in
  if ((48 <=? n) && (n <=? 57))%Z then Some (n - 48)%Z else None.

Fixpoint digits (s : string) (value count : Z) : option (Z * Z) :=
  match s with
  | EmptyString => Some (value, count)
  | String c s' =>
      match digit c with
      | Some d => digits s' (10 * value + d)%Z (count + 1)%Z
      | None => None
      end
  end.

Definition of_Z (z : Z) : float := PrimFloat.of_uint63 (Uint63.of_Z z).

Definition point : ascii := Ascii.ascii_of_nat 46.

Definition parse (s : string) : option float :=
  match strings_Split s point with
  | [whole] =>
      match digits whole 0 0 with
      | Some (v, n) =>
          if ((0 <? n) && (v <? 2 ^ 53))%Z then Some (of_Z v) else None
      | None => None
      end
  | [whole; fraction] =>
      match digits whole 0 0 with
      | Some (vw, nw) =>
          match digits fraction vw 0 with
          | Some (v, nf) =>
              if ((0 <? nw + nf) && (v <? 2 ^ 53) && (nf <=? 18))%Z
              then Some (of_Z v / of_Z (10 ^ nf))%float
              else None
          | None => None
          end
      | None => None
      end
  | _ => None
  end.

End Decimal.

#[export] Instance decimal_ParseFloat64 : ParseFloat64 := Decimal.parse.

(** Instruments and pairs for the examples: a live instrument with an
    identifier and a mark price, and the pair of a base symbol quoted in
    USDT on both venues. *)
Definition instrument (instID markPx : string) : Instrument :=
  {| InstID := instID; InstType := ""; BaseCcy := ""; QuoteCcy := "";
     State := "live"; MarkPx := markPx; Lever := ""; LotSz := ""; TickSz := "";
     MinSz := ""; MaxSz := ""; Extra := ∅ |}.

Definition pairOf (baseSymbol marginPx swapPx : string) : MatchingSymbol :=
  {| MS_BaseSymbol := baseSymbol;
     MS_Margin := instrument (String.append baseSymbol "-USDT") marginPx;
     MS_Swap := instrument (String.append baseSymbol "-USDT-SWAP") swapPx |}.

(** ** Loops that append *)

Lemma collect_omap {A B} (body : A -> option B) (xs : list A) :
  collect body xs = omap body xs.
Proof.
  unfold collect.
  enough (forall out,
    foldl (fun out x => match body x with Some y => out ++ [y] | None => out end)
          out xs = out ++ omap body xs) as H by apply (H []).
  induction xs as [|x xs IH]; intros out; simpl.
  - by rewrite app_nil_r.
  - rewrite IH. destruct (body x); [|done]. by rewrite <- app_assoc.
Qed.

(** ** Symbol matching *)

Module SymbolMatcher.
Section matching.
Context {ranger : MapRange}.

Fixpoint has_byte (c : ascii) (s : string) : bool :=
  match s with
  | EmptyString => false
  | String c' s' => Ascii.eqb c' c || has_byte c s'
  end.

Lemma strings_Split_no_sep s sep :
  has_byte sep s = false -> strings_Split s sep = [s].
Proof.
  induction s as [|c s IH]; simpl; [done|].
  intros [Hc Hs]%orb_false_iff. rewrite Hc, (IH Hs). done.
Qed.

Lemma strings_Split_nonempty s sep :
  exists p ps, strings_Split s sep = p :: ps.
Proof.
  destruct s as [|c s]; simpl; [eauto|].
  destruct (Ascii.eqb c sep); [eauto|].
  destruct (strings_Split s sep); eauto.
Qed.

Lemma strings_Split_sep s sep :
  has_byte sep s = true -> exists p q r, strings_Split s sep = p :: q :: r.
Proof.
  induction s as [|c s IH]; simpl; [done|].
  destruct (Ascii.eqb c sep) eqn:Hc; simpl.
  - intros _. destruct (strings_Split_nonempty s sep) as (p & ps & ->). eauto.
  - intros (p & q & r & ->)%IH. eauto.
Qed.

(** The number of tokens is below two exactly when there is no separator. *)
Lemma strings_Split_tokens s sep :
  (length (strings_Split s sep) < 2)%nat <-> has_byte sep s = false.
Proof.
  split.
  - destruct (has_byte sep s) eqn:H; [|done].
    destruct (strings_Split_sep s sep H) as (p & q & r & ->). simpl. lia.
  - intros ->%strings_Split_no_sep. simpl. lia.
Qed.

(** The key an instrument is stored under. *)
Definition keyOf (inst : Instrument) : string := ExtractBaseSymbol (InstID inst).

(** The last instrument of a list that has the key [k]. *)
Definition lastWithKey (k : string) (instruments : list Instrument)
  : option Instrument :=
  last (filter (fun inst => keyOf inst = k) instruments).

Lemma foldl_insert_lookup (instruments : list Instrument)
    (symbols : gmap string Instrument) k :
  foldl (fun symbols inst => <[keyOf inst := inst]> symbols) symbols instruments
    !! k
  = match lastWithKey k instruments with
    | Some inst => Some inst
    | None => symbols !! k
    end.
Proof.
  revert symbols. unfold lastWithKey.
  induction instruments as [|inst l IH]; intros symbols; simpl; [done|].
  rewrite IH. rewrite filter_cons.
  destruct (decide (keyOf inst = k)) as [Hk|Hk].
  - destruct (filter _ l) as [|x xs] eqn:Hf; simpl.
    + by rewrite <- Hk, lookup_insert_eq.
    + by destruct (last (x :: xs)) eqn:Hl; [|apply last_None in Hl].
  - destruct (last (filter _ l)); [done|]. by rewrite lookup_insert_ne.
Qed.

(** Last write wins: the lookup keeps, for each key, the last instrument
    processed under it. *)
Lemma symbolsOf_lookup instruments k :
  symbolsOf instruments !! k = lastWithKey k instruments.
Proof.
  unfold symbolsOf. rewrite (foldl_insert_lookup instruments ∅ k).
  by destruct (lastWithKey k instruments).
Qed.

Lemma lastWithKey_Some k instruments inst :
  lastWithKey k instruments = Some inst -> inst ∈ instruments /\ keyOf inst = k.
Proof.
  unfold lastWithKey. intros H%last_Some_elem_of.
  apply list_elem_of_filter in H. tauto.
Qed.

Lemma lastWithKey_is_Some k instruments :
  is_Some (lastWithKey k instruments)
  <-> exists inst, inst ∈ instruments /\ keyOf inst = k.
Proof.
  split.
  - intros [inst H]. exists inst. by apply lastWithKey_Some.
  - intros (inst & Hin & Hk). unfold lastWithKey.
    destruct (last _) eqn:Hl; [eauto|].
    apply last_None in Hl.
    assert (inst ∈ filter (fun inst => keyOf inst = k) instruments) as Hf
      by (apply list_elem_of_filter; auto).
    rewrite Hl in Hf. by apply elem_of_nil in Hf.
Qed.

(** The pair emitted for an entry of the margin lookup. *)
Definition pairFor (swapSymbols : gmap string Instrument)
    (entry : string * Instrument) : option MatchingSymbol :=
  let '(baseSymbol, marginInst) := entry in
  match swapSymbols !! baseSymbol with
  | Some swapInst =>
      Some {| MS_BaseSymbol := baseSymbol;
              MS_Margin := marginInst;
              MS_Swap := swapInst |}
  | None => None
  end.

Lemma FindMatchingSymbols_omap marginInstruments swapInstruments :
  FindMatchingSymbols marginInstruments swapInstruments
  ≡ₚ omap (pairFor (symbolsOf swapInstruments))
          (map_to_list (symbolsOf marginInstruments)).
Proof.
  unfold FindMatchingSymbols. rewrite collect_omap.
  by rewrite (map_range_perm _ (symbolsOf marginInstruments)).
Qed.

Lemma elem_of_FindMatchingSymbols marginInstruments swapInstruments pair :
  pair ∈ FindMatchingSymbols marginInstruments swapInstruments
  <-> lastWithKey (MS_BaseSymbol pair) marginInstruments = Some (MS_Margin pair)
      /\ lastWithKey (MS_BaseSymbol pair) swapInstruments = Some (MS_Swap pair).
Proof.
  rewrite FindMatchingSymbols_omap, list_elem_of_omap. split.
  - intros ([k mi] & Hin & Hp). apply elem_of_map_to_list in Hin.
    simpl in Hp. destruct (symbolsOf swapInstruments !! k) as [si|] eqn:Hs;
      [|done].
    injection Hp as <-. simpl. by rewrite <- !symbolsOf_lookup.
  - intros [Hm Hs]. exists (MS_BaseSymbol pair, MS_Margin pair). split.
    + apply elem_of_map_to_list. by rewrite symbolsOf_lookup.
    + unfold pairFor. rewrite symbolsOf_lookup, Hs. by destruct pair.
Qed.

Lemma NoDup_FindMatchingSymbols marginInstruments swapInstruments :
  NoDup (MS_BaseSymbol <$> FindMatchingSymbols marginInstruments swapInstruments).
Proof.
  rewrite FindMatchingSymbols_omap.
  pose proof (NoDup_fst_map_to_list (symbolsOf marginInstruments)) as Hnd.
  induction (map_to_list (symbolsOf marginInstruments)) as [|[k mi] l IH];
    simpl; [constructor|].
  apply NoDup_cons in Hnd as [Hk Hnd].
  destruct (symbolsOf swapInstruments !! k) as [si|]; simpl; [|by apply IH].
  apply NoDup_cons. split; [|by apply IH].
  intros (pair & Hpk & Hin)%list_elem_of_fmap.
  apply list_elem_of_omap in Hin as ([k' mi'] & Hin & Hp).
  simpl in Hp. destruct (symbolsOf swapInstruments !! k'); [|done].
  injection Hp as <-. simpl in Hpk. subst k'.
  apply Hk. apply list_elem_of_fmap. by exists (k, mi').
Qed.

Lemma filter_key_absent {A} (f : A -> string) (l : list A) k :
  k ∉ (f <$> l) -> filter (fun y => f y = k) l = [].
Proof.
  induction l as [|y l IH]; simpl; intros Hk; [done|].
  rewrite not_elem_of_cons in Hk. destruct Hk as [Hy Hl].
  rewrite filter_cons, decide_False by done. by apply IH.
Qed.

Lemma filter_key_NoDup {A} (f : A -> string) (l : list A) x :
  NoDup (f <$> l) -> x ∈ l -> filter (fun y => f y = f x) l = [x].
Proof.
  induction l as [|y l IH]; simpl; intros Hnd Hin.
  { by apply elem_of_nil in Hin. }
  apply NoDup_cons in Hnd as [Hy Hnd]. rewrite filter_cons.
  apply elem_of_cons in Hin as [->|Hin].
  - rewrite decide_True by done. f_equal. by apply filter_key_absent.
  - rewrite decide_False; [by apply IH|].
    intros Hfy. apply Hy. apply list_elem_of_fmap. by exists x.
Qed.

(** C9. For every two instrument lists, and whatever order the range over
    the margin lookup takes: the base symbols of the emitted pairs are
    pairwise distinct; a base symbol is emitted exactly when some margin
    instrument and some swap instrument have it as their key, and then
    exactly one pair of the result carries it; each pair holds the last
    instrument of either list stored under its key (the last one processed
    wins, the earlier ones leave no trace); instruments whose key occurs in
    one list only are in no pair, and the function, being total, reports no
    error. *)
Theorem FindMatchingSymbols_one_pair_per_common_key
    (marginInstruments swapInstruments : list Instrument) :
  let matching := FindMatchingSymbols marginInstruments swapInstruments in
  NoDup (MS_BaseSymbol <$> matching)
  /\ (forall k,
        k ∈ (MS_BaseSymbol <$> matching)
        <-> (exists inst, inst ∈ marginInstruments /\ keyOf inst = k)
            /\ (exists inst, inst ∈ swapInstruments /\ keyOf inst = k))
  /\ (forall pair, pair ∈ matching ->
        filter (fun p => MS_BaseSymbol p = MS_BaseSymbol pair) matching = [pair]
        /\ lastWithKey (MS_BaseSymbol pair) marginInstruments
           = Some (MS_Margin pair)
        /\ lastWithKey (MS_BaseSymbol pair) swapInstruments
           = Some (MS_Swap pair)).
Proof.
  intros matching. subst matching. split_and!.
  - apply NoDup_FindMatchingSymbols.
  - intros k. rewrite list_elem_of_fmap. split.
    + intros (pair & -> & [Hm Hs]%elem_of_FindMatchingSymbols).
      split; apply lastWithKey_is_Some; eauto.
    + intros [[mi Hm]%lastWithKey_is_Some [si Hs]%lastWithKey_is_Some].
      exists {| MS_BaseSymbol := k; MS_Margin := mi; MS_Swap := si |}.
      split; [done|]. by apply elem_of_FindMatchingSymbols.
  - intros pair Hin. split.
    + apply filter_key_NoDup; [apply NoDup_FindMatchingSymbols | done].
    + by apply elem_of_FindMatchingSymbols.
Qed.

(** C10. An identifier without the separator ['-'] splits into fewer than
    two tokens and [ExtractBaseSymbol] returns it unchanged; an instrument
    with such an identifier is therefore stored in the lookup under its whole
    identifier: the lookup has an entry for that key, held by an instrument
    keyed the same way. *)
Theorem ExtractBaseSymbol_without_separator (instID : string) :
  has_byte dash instID = false ->
  ExtractBaseSymbol instID = instID
  /\ (length (strings_Split instID dash) < 2)%nat
  /\ forall instruments inst,
       inst ∈ instruments -> InstID inst = instID ->
       exists stored,
         symbolsOf instruments !! instID = Some stored
         /\ ExtractBaseSymbol (InstID stored) = instID.
Proof.
  intros Hno.
  assert (ExtractBaseSymbol instID = instID) as Hid.
  { unfold ExtractBaseSymbol. by rewrite (strings_Split_no_sep _ _ Hno). }
  split_and!; [done | by apply strings_Split_tokens |].
  intros instruments inst Hin Hinst.
  destruct (proj2 (lastWithKey_is_Some instID instruments)) as [stored Hs].
  { exists inst. split; [done|]. unfold keyOf. by rewrite Hinst. }
  exists stored. rewrite symbolsOf_lookup. split; [done|].
  by apply lastWithKey_Some in Hs as [_ Hk].
Qed.

Lemma ExtractBaseSymbol_without_separator_witness :
  ExtractBaseSymbol "BTCUSDT" = "BTCUSDT"%string
  /\ (length (strings_Split "BTCUSDT" dash) < 2)%nat.
Proof.
  destruct (ExtractBaseSymbol_without_separator "BTCUSDT" eq_refl)
    as (H1 & H2 & _).
  exact (conj H1 H2).
Defined.

(** With a separator the key is the text before the first one. *)
Example ExtractBaseSymbol_swap :
  ExtractBaseSymbol "BTC-USDT-SWAP" = "BTC"%string.
Proof. reflexivity. Qed.

End matching.

(** Two margin instruments share the key BTC and the later one is paired;
    ETH and SOL are listed on one venue only and are left out. *)
Example FindMatchingSymbols_last_wins :
  FindMatchingSymbols (ranger := canonical_MapRange)
    [instrument "BTC-USDT" "1"; instrument "ETH-USDT" "2";
     instrument "BTC-USDC" "3"]
    [instrument "BTC-USDT-SWAP" "4"; instrument "SOL-USDT-SWAP" "5"]
  = [{| MS_BaseSymbol := "BTC";
        MS_Margin := instrument "BTC-USDC" "3";
        MS_Swap := instrument "BTC-USDT-SWAP" "4" |}].
Proof. by vm_compute. Qed.
End SymbolMatcher.

(** ** Pricing against order-book depth *)

Module OrderBookPricer.

Import Float64 Float64Facts.
Local Open Scope string_scope.
Local Open Scope list_scope.
Local Open Scope float_scope.

(** The side of the book a trade consumes: asks for a buy, bids for a
    sell. *)
Definition relevantSide (orderBook : OrderBook) (side : string)
  : option (list OrderBookLevel) :=
  if String.eqb side "buy" then Some (Asks orderBook)
  else if String.eqb side "sell" then Some (Bids orderBook)
  else None.

(** The walk in the specification's words: the levels are taken best to
    worst, each contributes the price used and the size filled at it, which
    is the level's size or what is still requested if that is less, and the
    walk stops once nothing is requested any more. *)
Fixpoint fills (levels : list OrderBookLevel) (requested : float)
  : list (float * float) :=
  match levels with
  | [] => []
  | level :: rest =>
      if requested <=? 0 then []
      else
        let filled := if requested <? Size level then requested else Size level in
        (Price level, filled) :: fills rest (requested - filled)
  end.

(** What is still requested after the fills, and their accumulated cost. *)
Definition unfilledFrom (requested : float) (fs : list (float * float)) : float :=
  foldl (fun r pf => r - pf.2) requested fs.

Definition costFrom (cost : float) (fs : list (float * float)) : float :=
  foldl (fun c pf => c + pf.2 * pf.1) cost fs.

Definition unfilled (levels : list OrderBookLevel) (requested : float) : float :=
  unfilledFrom requested (fills levels requested).

Definition fillCost (levels : list OrderBookLevel) (requested : float) : float :=
  costFrom 0 (fills levels requested).

(** The cumulative size of a side, which the code never forms: the sum of
    the sizes as a float64 addition from the first level on accumulates it,
    and the exact sum. The exact value of a finite float is given as a
    multiple of [2^-1074], the smallest positive float, of which every
    finite float is an integer multiple. *)
Definition cumulativeSize (levels : list OrderBookLevel) : float :=
  foldl (fun total level => total + Size level) 0 levels.

Definition inUnits (x : float) : option Z :=
  match Prim2SF x with
  | S754_zero _ => Some 0%Z
  | S754_finite s m e =>
      Some ((if s then Z.neg m else Z.pos m) * 2 ^ (e + 1074))%Z
  | _ => None
  end.

Definition exactCumulativeSize (levels : list OrderBookLevel) : option Z :=
  foldl (fun total level =>
           match total, inUnits (Size level) with
           | Some t, Some s => Some (t + s)%Z
           | _, _ => None
           end) (Some 0%Z) levels.

(** The loop of the code computes these. *)
Lemma walkLevels_fills levels st :
  walkLevels levels st
  = {| totalCost := costFrom (totalCost st) (fills levels (remainingSize st));
       remainingSize :=
         unfilledFrom (remainingSize st) (fills levels (remainingSize st));
       liquidity := costFrom (liquidity st) (fills levels (remainingSize st)) |}.
Proof.
  revert st. induction levels as [|level rest IH]; intros [c r q]; simpl;
    [done|].
  destruct (r <=? 0); [done|]. by rewrite IH.
Qed.

Lemma weighLevels_fills orderBook side tradeSize levels bestPrice :
  weighLevels orderBook side tradeSize levels bestPrice
  = if gtb (unfilled levels tradeSize) 0 then
      {| WP_Symbol := OB_InstID orderBook;
         WP_Side := side;
         WP_TradeSize := tradeSize;
         WeightedPrice := 0;
         TotalCost := 0;
         Liquidity := fillCost levels tradeSize;
         HasEnoughLiquidity := false;
         Slippage := 0 |}
    else
      {| WP_Symbol := OB_InstID orderBook;
         WP_Side := side;
         WP_TradeSize := tradeSize;
         WeightedPrice := fillCost levels tradeSize / tradeSize;
         TotalCost := fillCost levels tradeSize;
         Liquidity := fillCost levels tradeSize;
         HasEnoughLiquidity := true;
         Slippage :=
           if String.eqb side "buy"
           then ((fillCost levels tradeSize / tradeSize - bestPrice) / bestPrice) * 100
           else ((bestPrice - fillCost levels tradeSize / tradeSize) / bestPrice) * 100 |}.
Proof. unfold weighLevels. by rewrite walkLevels_fills. Qed.

(** What is left unfilled, level by level: nothing is taken once the
    request is met; a level larger than what is still requested fills it and
    leaves zero; any other level is consumed whole and its size is
    subtracted. So the depth covers a request when the sizes subtracted one
    after the other bring it to zero or below, and falls short when a
    positive size is left after the last level. *)
Lemma unfilled_nil requested : unfilled [] requested = requested.
Proof. reflexivity. Qed.

Lemma unfilled_met best rest requested :
  (requested <=? 0) = true -> unfilled (best :: rest) requested = requested.
Proof. unfold unfilled; simpl. by intros ->. Qed.

Lemma unfilled_whole_level best rest requested :
  (requested <=? 0) = false ->
  (requested <? Size best) = false ->
  unfilled (best :: rest) requested = unfilled rest (requested - Size best).
Proof. unfold unfilled; simpl. by intros -> ->. Qed.

Lemma unfilled_within_level best rest requested :
  (requested <=? 0) = false ->
  (requested <? Size best) = true ->
  unfilled (best :: rest) requested = 0.
Proof.
  intros Hpos Hlt. unfold unfilled; simpl. rewrite Hpos, Hlt.
  unfold unfilledFrom; simpl.
  destruct (ltb_true_num _ _ Hlt) as [Hnum _].
  assert (requested - requested = 0) as ->.
  { apply (sub_diag_between 0 _ (Size best)); [|done].
    by apply leb_false_ltb. }
  by destruct rest.
Qed.

(** When the depth falls short, every level was consumed whole: what is
    left is the request minus the sizes of all the levels. *)
Lemma unfilled_short levels requested :
  (0 <? unfilled levels requested) = true ->
  unfilled levels requested
  = foldl (fun r level => r - Size level) requested levels.
Proof.
  revert requested. induction levels as [|best rest IH]; intros requested;
    [done|].
  destruct (requested <=? 0) eqn:Hmet.
  { rewrite (unfilled_met _ _ _ Hmet). intros Hpos.
    by rewrite (leb_ltb_false _ _ Hmet) in Hpos. }
  destruct (requested <? Size best) eqn:Hlt.
  { rewrite (unfilled_within_level _ _ _ Hmet Hlt). intros Hpos.
    by rewrite ltb_irrefl in Hpos. }
  rewrite (unfilled_whole_level _ _ _ Hmet Hlt). simpl. apply IH.
Qed.

Lemma fills_short levels requested :
  (0 <? unfilled levels requested) = true ->
  fills levels requested = (fun level => (Price level, Size level)) <$> levels.
Proof.
  revert requested. induction levels as [|best rest IH]; intros requested;
    [done|].
  destruct (requested <=? 0) eqn:Hmet.
  { rewrite (unfilled_met _ _ _ Hmet). intros Hpos.
    by rewrite (leb_ltb_false _ _ Hmet) in Hpos. }
  destruct (requested <? Size best) eqn:Hlt.
  { rewrite (unfilled_within_level _ _ _ Hmet Hlt). intros Hpos.
    by rewrite ltb_irrefl in Hpos. }
  rewrite (unfilled_whole_level _ _ _ Hmet Hlt). intros Hpos.
  simpl. rewrite Hmet, Hlt. f_equal. by apply IH.
Qed.

Lemma costFrom_whole cost levels :
  costFrom cost ((fun level => (Price level, Size level)) <$> levels)
  = foldl (fun c level => c + Size level * Price level) cost levels.
Proof.
  revert cost. induction levels as [|l ls IH]; intros cost; [done|].
  simpl. apply IH.
Qed.

Lemma CalculateWeightedPrice_relevantSide orderBook side tradeSize best rest :
  relevantSide orderBook side = Some (best :: rest) ->
  CalculateWeightedPrice orderBook side tradeSize
  = Ok (weighLevels orderBook side tradeSize (best :: rest) (Price best)).
Proof.
  unfold relevantSide, CalculateWeightedPrice.
  destruct (String.eqb side "buy").
  - intros [= ->]. done.
  - destruct (String.eqb side "sell"); [|done]. intros [= ->]. done.
Qed.

(** An empty relevant side, or a side that is neither [buy] nor [sell], is
    an error. *)
Lemma CalculateWeightedPrice_error orderBook side tradeSize :
  (exists msg, CalculateWeightedPrice orderBook side tradeSize = Err msg)
  <-> relevantSide orderBook side = None \/ relevantSide orderBook side = Some [].
Proof.
  unfold relevantSide, CalculateWeightedPrice.
  destruct (String.eqb side "buy").
  { destruct (Asks orderBook) as [|best rest].
    - split; [intros _; by right | intros _; eauto].
    - split; [intros [msg H]; discriminate | intros [H|H]; discriminate]. }
  destruct (String.eqb side "sell").
  { destruct (Bids orderBook) as [|best rest].
    - split; [intros _; by right | intros _; eauto].
    - split; [intros [msg H]; discriminate | intros [H|H]; discriminate]. }
  split; [intros _; by left | intros _; eauto].
Qed.

Definition book (asks bids : list OrderBookLevel) : OrderBook :=
  {| OB_InstID := "BTC-USDT"; Bids := bids; Asks := asks; OB_TS := "" |}.

Definition level (price size : float) : OrderBookLevel :=
  {| Price := price; Size := size; Orders := 1 |}.




(** C3, as the code has it. The depth falls short, for the code, when the
    walk over all the levels leaves a positive size still requested, each
    subtraction rounded; this is not the comparison of the request with the
    cumulative size. For every order book whose relevant side is non-empty,
    when it does: every level was consumed whole, what is left is the
    request minus the sizes of all the levels, one after the other, and
    [CalculateWeightedPrice] returns a result with [hasEnoughLiquidity =
    false] and [weightedPrice = 0], and with zero total cost and slippage,
    whatever was filled along the way; only the liquidity field keeps the
    cost of the partial fill, which is the cost of the whole side. *)
Theorem CalculateWeightedPrice_insufficient
    orderBook side requestedSize best rest :
  relevantSide orderBook side = Some (best :: rest) ->
  (0 <? unfilled (best :: rest) requestedSize) = true ->
  fills (best :: rest) requestedSize
  = (fun level => (Price level, Size level)) <$> (best :: rest)
  /\ unfilled (best :: rest) requestedSize
     = foldl (fun r level => r - Size level) requestedSize (best :: rest)
  /\ fillCost (best :: rest) requestedSize
     = foldl (fun c level => c + Size level * Price level) 0 (best :: rest)
  /\ CalculateWeightedPrice orderBook side requestedSize
     = Ok {| WP_Symbol := OB_InstID orderBook;
             WP_Side := side;
             WP_TradeSize := requestedSize;
             WeightedPrice := 0;
             TotalCost := 0;
             Liquidity := fillCost (best :: rest) requestedSize;
             HasEnoughLiquidity := false;
             Slippage := 0 |}.
Proof.
  intros Hside Hshort. split; [by apply fills_short|].
  split; [by apply unfilled_short|].
  split; [unfold fillCost; by rewrite (fills_short _ _ Hshort), costFrom_whole|].
  rewrite (CalculateWeightedPrice_relevantSide _ _ _ _ _ Hside).
  rewrite weighLevels_fills. unfold gtb. by rewrite Hshort.
Qed.

(** Scenario 4: asks [(100,1)] and a buy of size 5. *)
Lemma CalculateWeightedPrice_insufficient_witness :
  CalculateWeightedPrice (book [level 100 1] []) "buy" 5
  = Ok {| WP_Symbol := "BTC-USDT";
          WP_Side := "buy";
          WP_TradeSize := 5;
          WeightedPrice := 0;
          TotalCost := 0;
          Liquidity := 100;
          HasEnoughLiquidity := false;
          Slippage := 0 |}.
Proof.
  exact (proj2 (proj2 (proj2
           (CalculateWeightedPrice_insufficient
              (book [level 100 1] []) "buy" 5 (level 100 1) []
              eq_refl eq_refl)))).
Defined.

(** C3 as stated fails. Asks of sizes 0.2 and 0.7 have a cumulative size
    strictly below 0.9, in float64 addition and exactly, and a buy of 0.9 is
    reported as filled, with a weighted price: the subtraction [0.9 - 0.2]
    rounds down to the float 0.7, which the second level covers. *)
Lemma cumulative_size_short_but_filled :
  let asks := [level 100 0.2; level 101 0.7] in
  let requested := 0.9 in
  relevantSide (book asks []) "buy" = Some asks
  /\ (cumulativeSize asks <? requested) = true
  /\ (exists total units,
        exactCumulativeSize asks = Some total
        /\ inUnits requested = Some units
        /\ (total < units)%Z)
  /\ exists r,
       CalculateWeightedPrice (book asks []) "buy" requested = Ok r
       /\ HasEnoughLiquidity r = true
       /\ (0 <? WeightedPrice r) = true.
Proof.
  split_and!; [done | by vm_compute | |].
  - eexists _, _. split; [by vm_compute|]. split; [by vm_compute|].
    by vm_compute.
  - eexists. split; [reflexivity|]. by vm_compute.
Qed.

(** Remark on rounding. Sufficiency is decided by subtracting the sizes from
    the request one after the other, and every subtraction rounds to the
    nearest float; the code never forms the sum of the sizes. The outcome
    can therefore differ from a comparison of the request with that sum, as
    above, and also on sizes that differ by many orders of magnitude: the
    three sizes below add up to the request exactly, in the reals and in
    floats, and the walk still leaves [2^-54] unfilled. This is why
    [unfilled] is the measure of depth in C2 and C3. *)
Lemma rounding_can_leave_a_remainder :
  let sizes := [0x1p-54; 1; 0x1.8p-53] in
  let requested := 0x1.0000000000001p+0 in
  0x1p-54 + 1 + 0x1.8p-53 = requested
  /\ unfilled (level 100 <$> sizes) requested = 0x1p-54
  /\ HasEnoughLiquidity
       (weighLevels (book (level 100 <$> sizes) []) "buy" requested
          (level 100 <$> sizes) 100) = false.
Proof. by vm_compute. Qed.

(** A request of size zero consumes no level. *)
Lemma fills_zero levels requested :
  (requested =? 0) = true -> fills levels requested = [].
Proof.
  intros [-> | ->]%eqb_zero_cases; by destruct levels.
Qed.

(** C4, as the code has it. For every order book whose relevant side is
    non-empty, a requested size of zero (of either sign) consumes no level
    and gives a result with [hasEnoughLiquidity = true], zero total cost and
    zero liquidity; the weighted price is the quotient [0 / 0] and the
    slippage is computed from it, so both are NaN: the best price is not
    returned and the slippage is not zero. *)
Theorem CalculateWeightedPrice_zero_size
    orderBook side requestedSize best rest :
  relevantSide orderBook side = Some (best :: rest) ->
  (requestedSize =? 0) = true ->
  CalculateWeightedPrice orderBook side requestedSize
  = Ok {| WP_Symbol := OB_InstID orderBook;
          WP_Side := side;
          WP_TradeSize := requestedSize;
          WeightedPrice := nan;
          TotalCost := 0;
          Liquidity := 0;
          HasEnoughLiquidity := true;
          Slippage := nan |}.
Proof.
  intros Hside Hzero.
  rewrite (CalculateWeightedPrice_relevantSide _ _ _ _ _ Hside).
  rewrite weighLevels_fills. unfold unfilled, fillCost.
  rewrite (fills_zero _ _ Hzero). simpl. unfold gtb.
  assert ((0 <? requestedSize) = false /\ 0 / requestedSize = nan) as [-> ->].
  { by destruct (eqb_zero_cases _ Hzero) as [-> | ->]. }
  do 2 f_equal.
  destruct (String.eqb side "buy").
  - by rewrite sub_nan_l, div_nan_l, mul_nan_l.
  - by rewrite sub_nan_r, div_nan_l, mul_nan_l.
Qed.

Lemma CalculateWeightedPrice_zero_size_witness :
  CalculateWeightedPrice (book [level 100 1] []) "buy" 0
  = Ok {| WP_Symbol := "BTC-USDT";
          WP_Side := "buy";
          WP_TradeSize := 0;
          WeightedPrice := nan;
          TotalCost := 0;
          Liquidity := 0;
          HasEnoughLiquidity := true;
          Slippage := nan |}.
Proof.
  exact (CalculateWeightedPrice_zero_size
           (book [level 100 1] []) "buy" 0 (level 100 1) [] eq_refl eq_refl).
Defined.

(** C4 as stated fails: on asks [(100,1)] a buy of size zero does not return
    the best price 100 with zero slippage; the weighted price and the
    slippage compare unequal to every number. *)
Lemma CalculateWeightedPrice_zero_size_not_best_price :
  exists r,
    CalculateWeightedPrice (book [level 100 1] []) "buy" 0 = Ok r
    /\ (WeightedPrice r =? 100) = false
    /\ (Slippage r =? 0) = false
    /\ is_nan (WeightedPrice r) = true
    /\ is_nan (Slippage r) = true.
Proof. eexists. split; [reflexivity|]. by vm_compute. Qed.

End OrderBookPricer.

(** ** Mark-price differences *)

Module DiffEngine.

Import Float64 Float64Facts.
Local Open Scope string_scope.
Local Open Scope list_scope.
Local Open Scope float_scope.

Section diffs.
Context {parse : ParseFloat64}.

(** The pair with the two venues exchanged. *)
Definition swapVenues (match_ : MatchingSymbol) : MatchingSymbol :=
  {| MS_BaseSymbol := MS_BaseSymbol match_;
     MS_Margin := MS_Swap match_;
     MS_Swap := MS_Margin match_ |}.

(** The formula of the specification. *)
Definition percentDiffOf (priceA priceB : float) : float :=
  100 * abs (priceA - priceB) / ((priceA + priceB) / 2).

Lemma percentDiffOf_sym priceA priceB :
  percentDiffOf priceA priceB = percentDiffOf priceB priceA.
Proof.
  unfold percentDiffOf.
  by rewrite (abs_sub_swap priceA priceB), (add_comm priceA priceB).
Qed.

(** The loop body once both prices are read. *)
Lemma markPxDiff_parsed minDiff match_ marginPx swapPx :
  ParseFloat (MarkPx (MS_Margin match_)) = Some marginPx ->
  ParseFloat (MarkPx (MS_Swap match_)) = Some swapPx ->
  markPxDiff minDiff match_
  = if (marginPx <=? 0) || (swapPx <=? 0) then None
    else if percentDiffOf marginPx swapPx <? minDiff then None
    else Some {| DR_BaseSymbol := MS_BaseSymbol match_;
                 DR_MarginMarkPx := marginPx;
                 DR_SwapMarkPx := swapPx;
                 DR_PercentDiff := percentDiffOf marginPx swapPx;
                 DR_ActualDiff := swapPx - marginPx;
                 DR_IsContango := gtb (swapPx - marginPx) 0;
                 DR_TermStructure :=
                   if gtb (swapPx - marginPx) 0 then "Contango"
                   else "Backwardation" |}.
Proof.
  intros Hm Hs. unfold markPxDiff. rewrite Hm, Hs.
  unfold Abs. fold (percentDiffOf swapPx marginPx).
  rewrite (add_comm marginPx swapPx). fold (percentDiffOf swapPx marginPx).
  by rewrite (percentDiffOf_sym swapPx marginPx).
Qed.

(** Exchanging the venues leaves the percentage of every pair as it is,
    and with it the decision to keep the pair. *)
Lemma markPxDiff_swapVenues minDiff match_ :
  DR_PercentDiff <$> markPxDiff minDiff (swapVenues match_)
  = DR_PercentDiff <$> markPxDiff minDiff match_.
Proof.
  destruct (ParseFloat (MarkPx (MS_Margin match_))) as [a|] eqn:Ha;
  destruct (ParseFloat (MarkPx (MS_Swap match_))) as [b|] eqn:Hb.
  - rewrite (markPxDiff_parsed minDiff match_ a b Ha Hb).
    rewrite (markPxDiff_parsed minDiff (swapVenues match_) b a Hb Ha).
    rewrite (orb_comm (b <=? 0)), (percentDiffOf_sym b a).
    destruct ((a <=? 0) || (b <=? 0)); [done|].
    by destruct (percentDiffOf a b <? minDiff).
  - unfold markPxDiff, swapVenues; simpl. by rewrite Ha, Hb.
  - unfold markPxDiff, swapVenues; simpl. by rewrite Ha, Hb.
  - unfold markPxDiff, swapVenues; simpl. by rewrite Ha, Hb.
Qed.

Lemma positive_not_le0 x : (0 <? x) = true -> (x <=? 0) = false.
Proof.
  intros H. destruct (x <=? 0) eqn:E; [|done].
  by rewrite (leb_ltb_false _ _ E) in H.
Qed.

(** C8. For every matched pair whose two mark prices parse to positive
    numbers [priceA] (margin) and [priceB] (swap): the result computed for
    the pair, which exists unless the percentage is below [minDiff], has
    [percentDiff = 100 * |priceA - priceB| / ((priceA + priceB) / 2)]; the
    formula has the same value with the prices exchanged, and so has the
    percentage computed for the pair with its venues exchanged. *)
Theorem percentDiff_formula_symmetric minDiff match_ priceA priceB :
  ParseFloat (MarkPx (MS_Margin match_)) = Some priceA ->
  ParseFloat (MarkPx (MS_Swap match_)) = Some priceB ->
  (0 <? priceA) = true ->
  (0 <? priceB) = true ->
  let percentDiff := 100 * abs (priceA - priceB) / ((priceA + priceB) / 2) in
  (forall d, markPxDiff minDiff match_ = Some d -> DR_PercentDiff d = percentDiff)
  /\ (is_Some (markPxDiff minDiff match_) <-> (percentDiff <? minDiff) = false)
  /\ percentDiff = 100 * abs (priceB - priceA) / ((priceB + priceA) / 2)
  /\ DR_PercentDiff <$> markPxDiff minDiff (swapVenues match_)
     = DR_PercentDiff <$> markPxDiff minDiff match_.
Proof.
  intros Ha Hb HposA HposB percentDiff.
  pose proof (markPxDiff_parsed minDiff match_ priceA priceB Ha Hb) as Hd.
  rewrite (positive_not_le0 _ HposA), (positive_not_le0 _ HposB) in Hd.
  simpl in Hd. fold percentDiff (percentDiffOf priceA priceB) in Hd |- *.
  change (percentDiffOf priceA priceB) with percentDiff in Hd.
  split_and!.
  - intros d Hsome. rewrite Hd in Hsome.
    destruct (percentDiff <? minDiff); [done|]. by injection Hsome as <-.
  - rewrite Hd. destruct (percentDiff <? minDiff).
    + split; [by intros [? ?] | done].
    + split; [done | by eauto].
  - apply percentDiffOf_sym.
  - apply markPxDiff_swapVenues.
Qed.

End diffs.

(** Scenario 1: margin price 100.0 and swap price 100.3 give the actual
    difference, the percentage and the direction of the specification. *)
Lemma percentDiff_formula_symmetric_witness :
  let percentDiff := 100 * abs (100 - 100.3) / ((100 + 100.3) / 2) in
  (forall d, markPxDiff (parse := decimal_ParseFloat64) 0.24
               (pairOf "BTC" "100.0" "100.3") = Some d ->
             DR_PercentDiff d = percentDiff)
  /\ (is_Some (markPxDiff (parse := decimal_ParseFloat64) 0.24
                 (pairOf "BTC" "100.0" "100.3"))
      <-> (percentDiff <? 0.24) = false)
  /\ percentDiff = 100 * abs (100.3 - 100) / ((100.3 + 100) / 2)
  /\ DR_PercentDiff <$> markPxDiff (parse := decimal_ParseFloat64) 0.24
                          (swapVenues (pairOf "BTC" "100.0" "100.3"))
     = DR_PercentDiff <$> markPxDiff (parse := decimal_ParseFloat64) 0.24
                            (pairOf "BTC" "100.0" "100.3").
Proof.
  exact (percentDiff_formula_symmetric (parse := decimal_ParseFloat64) 0.24
           (pairOf "BTC" "100.0" "100.3") 100 100.3
           eq_refl eq_refl eq_refl eq_refl).
Defined.

Example scenario1 :
  markPxDiff (parse := decimal_ParseFloat64) 0.24 (pairOf "BTC" "100.0" "100.3")
  = Some {| DR_BaseSymbol := "BTC";
            DR_MarginMarkPx := 100;
            DR_SwapMarkPx := 100.3;
            DR_PercentDiff := 0.29955067398901364;
            DR_ActualDiff := 100.3 - 100;
            DR_IsContango := true;
            DR_TermStructure := "Contango" |}.
Proof. by vm_compute. Qed.

End DiffEngine.

(** ** Fees *)

Module Fees.

Import Float64 Float64Facts.
Local Open Scope string_scope.
Local Open Scope list_scope.
Local Open Scope float_scope.

(** The hourly borrow rate used for a base symbol: its own rate when the map
    has one that is strictly positive, the default of the schedule
    otherwise. *)
Definition borrowRateFor (baseSymbol : string) (fees : FeeInfo)
    (borrowRates : gmap string float) : float :=
  match borrowRates !! baseSymbol with
  | Some r => if 0 <? r then r else MarginBorrow fees
  | None => MarginBorrow fees
  end.

(** C7. For every result, fee schedule and borrow-rate map: with term
    structure [Contango], [EstimateFees] returns [2 * spotTaker + 2 *
    swapTaker]; with [Backwardation] it returns that sum plus the hourly
    borrow rate, once (the code multiplies the rate by one hour, which
    changes no float), where the rate is the entry of the map for the base
    symbol when there is one and it is strictly positive, and
    [MarginBorrow] of the schedule otherwise. *)
Theorem EstimateFees_round_trip_and_borrow
    (diff : DiffResult) (fees : FeeInfo) (borrowRates : gmap string float) :
  let roundTrip := 2 * SpotTaker fees + 2 * SwapTaker fees in
  let borrow := borrowRateFor (DR_BaseSymbol diff) fees borrowRates in
  (DR_TermStructure diff = "Contango" ->
     EstimateFees diff fees borrowRates = roundTrip)
  /\ (DR_TermStructure diff = "Backwardation" ->
        EstimateFees diff fees borrowRates = roundTrip + borrow)
  /\ (forall r, borrowRates !! DR_BaseSymbol diff = Some r ->
        (0 <? r) = true -> borrow = r)
  /\ (forall r, borrowRates !! DR_BaseSymbol diff = Some r ->
        (0 <? r) = false -> borrow = MarginBorrow fees)
  /\ (borrowRates !! DR_BaseSymbol diff = None -> borrow = MarginBorrow fees).
Proof.
  intros roundTrip borrow. subst roundTrip borrow.
  unfold EstimateFees, borrowRateFor, gtb.
  rewrite (mul_comm 2 (SpotTaker fees)), (mul_comm 2 (SwapTaker fees)).
  split_and!.
  - by intros ->.
  - intros ->. simpl. by rewrite mul_one_r.
  - by intros r -> ->.
  - by intros r -> ->.
  - by intros ->.
Qed.

(** Scenario 2: the fee fraction for the default taker fees. *)
Example scenario2_fee d :
  DR_TermStructure d = "Contango" ->
  EstimateFees d {| SpotTaker := 0.001; SwapTaker := 0.0005; MarginBorrow := 0.0002 |} ∅
  = 0.003.
Proof. unfold EstimateFees. by intros ->. Qed.

(** Any other term structure is charged like [Contango]. *)
Lemma EstimateFees_not_backwardation diff fees borrowRates :
  DR_TermStructure diff <> "Backwardation" ->
  EstimateFees diff fees borrowRates = SpotTaker fees * 2 + SwapTaker fees * 2.
Proof.
  intros H. unfold EstimateFees.
  destruct (String.eqb_spec (DR_TermStructure diff) "Backwardation"); done.
Qed.

End Fees.

(** ** The profitability filter of the printed tables *)

Module Output.

Import Float64 Float64Facts.
Local Open Scope string_scope.
Local Open Scope list_scope.
Local Open Scope float_scope.

(** The fee fraction looked up for a symbol, and the profit shown for a
    percentage. *)
Definition feeFor (feesMap : gmap string float) (baseSymbol : string) : float :=
  default 0 (feesMap !! baseSymbol).

Definition actualProfitOf (percentDiff feeFraction : float) : float :=
  percentDiff - feeFraction * 100.

Lemma printed_diff diffs fundingMap feesMap minDiff d :
  d ∈ (DRow_diff <$>
         PrintTopMarkPxDiffsWithFundingAndFees diffs fundingMap feesMap minDiff)
  <-> d ∈ diffs
      /\ (actualProfitOf (DR_PercentDiff d) (feeFor feesMap (DR_BaseSymbol d))
            <? 0.06) = false.
Proof.
  unfold PrintTopMarkPxDiffsWithFundingAndFees. rewrite collect_omap.
  rewrite list_elem_of_fmap. setoid_rewrite list_elem_of_omap.
  unfold actualProfitOf, feeFor. split.
  - intros (row & Hrow_d & x & Hin & Hrow).
    destruct (_ <? 0.06) eqn:E; [done|]. injection Hrow as <-.
    simpl in Hrow_d. subst x. auto.
  - intros [Hin E]. eexists. split; [|exists d; split; [done|]].
    2:{ rewrite E. reflexivity. }
    done.
Qed.

Lemma printed_result results fundingMap feesMap minDiff r :
  r ∈ (RRow_result <$>
         PrintRealArbitrageResults results fundingMap feesMap minDiff)
  <-> r ∈ results
      /\ (actualProfitOf (RA_PercentDiff r) (feeFor feesMap (RA_BaseSymbol r))
            <? 0.06) = false.
Proof.
  unfold PrintRealArbitrageResults. rewrite collect_omap.
  rewrite list_elem_of_fmap. setoid_rewrite list_elem_of_omap.
  unfold actualProfitOf, feeFor. split.
  - intros (row & Hrow_d & x & Hin & Hrow).
    destruct (_ <? 0.06) eqn:E; [done|]. injection Hrow as <-.
    simpl in Hrow_d. subst x. auto.
  - intros [Hin E]. eexists. split; [|exists r; split; [done|]].
    2:{ rewrite E. reflexivity. }
    done.
Qed.

(** For a number, not being below the floor is being at least the floor. *)
Lemma not_below_floor x :
  is_nan x = false -> (x <? 0.06) = false <-> (0.06 <=? x) = true.
Proof.
  intros Hx. split.
  - by apply ltb_false_leb.
  - apply leb_ltb_false.
Qed.

(** Not being below the floor is being at least the floor, or not being a
    number at all. *)
Lemma not_below_floor_or_nan x :
  (x <? 0.06) = false <-> (0.06 <=? x) = true \/ is_nan x = true.
Proof.
  split.
  - intros Hlt. destruct (is_nan x) eqn:Hx; [by right | left].
    by apply ltb_false_leb.
  - intros [Hle | Hnan]; [by apply leb_ltb_false | by apply ltb_nan_l].
Qed.

(** C6, as the code has it. Both printing functions skip a result when its
    profit is below 0.06, which is not the same as printing it when the
    profit is at least 0.06. For every list of ranked results handed to
    either printing function, and every result of the list, with
    [feeFraction] the entry of the fee map for the result's symbol (zero
    when there is none): the result is among the printed rows if and only
    if its profit [percentDiff - feeFraction * 100] is at least 0.06 or is
    NaN; when the profit is a number, if and only if it is at least 0.06.
    The floor is the literal 0.06: the rows printed do not depend on the
    [minDiff] argument, nor on the funding map. *)
Theorem profitability_filter
    (diffs : list DiffResult) (results : list RealArbitrageResult)
    (fundingMap : gmap string Funding) (feesMap : gmap string float)
    (minDiff : float) :
  (forall d,
     d ∈ diffs ->
     let actualProfit :=
       DR_PercentDiff d - feeFor feesMap (DR_BaseSymbol d) * 100 in
     (d ∈ (DRow_diff <$>
             PrintTopMarkPxDiffsWithFundingAndFees diffs fundingMap feesMap minDiff)
      <-> (0.06 <=? actualProfit) = true \/ is_nan actualProfit = true)
     /\ (is_nan actualProfit = false ->
         d ∈ (DRow_diff <$>
                PrintTopMarkPxDiffsWithFundingAndFees
                  diffs fundingMap feesMap minDiff)
         <-> (0.06 <=? actualProfit) = true))
  /\ (forall r,
        r ∈ results ->
        let actualProfit :=
          RA_PercentDiff r - feeFor feesMap (RA_BaseSymbol r) * 100 in
        (r ∈ (RRow_result <$>
                PrintRealArbitrageResults results fundingMap feesMap minDiff)
         <-> (0.06 <=? actualProfit) = true \/ is_nan actualProfit = true)
        /\ (is_nan actualProfit = false ->
            r ∈ (RRow_result <$>
                   PrintRealArbitrageResults results fundingMap feesMap minDiff)
            <-> (0.06 <=? actualProfit) = true))
  /\ (forall fundingMap' minDiff',
        DRow_diff <$>
          PrintTopMarkPxDiffsWithFundingAndFees diffs fundingMap' feesMap minDiff'
        = DRow_diff <$>
            PrintTopMarkPxDiffsWithFundingAndFees diffs fundingMap feesMap minDiff)
  /\ (forall fundingMap' minDiff',
        RRow_result <$>
          PrintRealArbitrageResults results fundingMap' feesMap minDiff'
        = RRow_result <$>
            PrintRealArbitrageResults results fundingMap feesMap minDiff).
Proof.
  split_and!.
  - intros d Hin actualProfit. rewrite printed_diff.
    subst actualProfit. unfold actualProfitOf. split.
    + rewrite not_below_floor_or_nan. tauto.
    + intros Hnum. rewrite (not_below_floor _ Hnum). tauto.
  - intros r Hin actualProfit. rewrite printed_result.
    subst actualProfit. unfold actualProfitOf. split.
    + rewrite not_below_floor_or_nan. tauto.
    + intros Hnum. rewrite (not_below_floor _ Hnum). tauto.
  - intros fundingMap' minDiff'.
    unfold PrintTopMarkPxDiffsWithFundingAndFees. rewrite !collect_omap.
    induction diffs as [|d l IH]; simpl; [done|].
    destruct (_ <? 0.06); simpl; [apply IH | f_equal; apply IH].
  - intros fundingMap' minDiff'.
    unfold PrintRealArbitrageResults. rewrite !collect_omap.
    induction results as [|r l IH]; simpl; [done|].
    destruct (_ <? 0.06); simpl; [apply IH | f_equal; apply IH].
Qed.

(** A result whose profit is not a number is printed: the test [actualProfit
    < 0.06] that skips a row is false for a NaN. *)
Lemma printed_when_profit_nan diffs fundingMap feesMap minDiff d :
  d ∈ diffs ->
  is_nan (DR_PercentDiff d - feeFor feesMap (DR_BaseSymbol d) * 100) = true ->
  d ∈ (DRow_diff <$>
         PrintTopMarkPxDiffsWithFundingAndFees diffs fundingMap feesMap minDiff).
Proof.
  intros Hin Hnan. apply printed_diff. split; [done|].
  by apply ltb_nan_l.
Qed.

Definition diffOf (baseSymbol : string) (marginPx swapPx percentDiff : float)
  : DiffResult :=
  {| DR_BaseSymbol := baseSymbol;
     DR_MarginMarkPx := marginPx;
     DR_SwapMarkPx := swapPx;
     DR_PercentDiff := percentDiff;
     DR_ActualDiff := swapPx - marginPx;
     DR_IsContango := gtb (swapPx - marginPx) 0;
     DR_TermStructure :=
       if gtb (swapPx - marginPx) 0 then "Contango" else "Backwardation" |}.

Definition twoDiffs : list DiffResult :=
  [diffOf "ETH" 100 100.5 0.5; diffOf "BTC" 100 100.3 0.29955067398901364].

Definition defaultFees : gmap string float :=
  {["ETH" := 0.003; "BTC" := 0.003]}.

(** Scenario 2: with a fee fraction of 0.003 the result of scenario 1 is left
    out, and a result with half a percent is printed. *)
Lemma profitability_filter_witness :
  (diffOf "ETH" 100 100.5 0.5
     ∈ (DRow_diff <$>
          PrintTopMarkPxDiffsWithFundingAndFees twoDiffs ∅ defaultFees 0.24)
   <-> (0.06 <=? 0.5 - 0.003 * 100) = true
       \/ is_nan (0.5 - 0.003 * 100) = true)
  /\ (diffOf "BTC" 100 100.3 0.29955067398901364
        ∈ (DRow_diff <$>
             PrintTopMarkPxDiffsWithFundingAndFees twoDiffs ∅ defaultFees 0.24)
      <-> (0.06 <=? 0.29955067398901364 - 0.003 * 100) = true).
Proof.
  split.
  - destruct (proj1 (profitability_filter twoDiffs [] ∅ defaultFees 0.24)
                (diffOf "ETH" 100 100.5 0.5)) as [Hprinted _]; [by left|].
    exact Hprinted.
  - destruct (proj1 (profitability_filter twoDiffs [] ∅ defaultFees 0.24)
                (diffOf "BTC" 100 100.3 0.29955067398901364))
      as [_ Hnumber]; [by right; left|].
    apply Hnumber. reflexivity.
Defined.

(** Two finite mark prices at the top of the float range, [2^1023] and
    [1.5 * 2^1023], written in the hexadecimal notation
    [strconv.ParseFloat] accepts. *)
Definition hexPrices : ParseFloat64 := fun s =>
  if String.eqb s "0x1p+1023" then Some 0x1p+1023
  else if String.eqb s "0x1.8p+1023" then Some 0x1.8p+1023
  else None.

(** C6 as stated fails. For a pair with these two mark prices the sum of
    the prices overflows, the percentage of the result is the quotient of
    two infinities, and so is NaN, as is the profit. The profit is not at
    least 0.06, and the result is printed. *)
Lemma printed_below_the_floor :
  exists d,
    CalculateTopMarkPxDiffs (sorter := insertion_SortSlice) (parse := hexPrices)
      [pairOf "BTC" "0x1p+1023" "0x1.8p+1023"] 10 0.24 = Returns [d]
    /\ let actualProfit :=
         DR_PercentDiff d - feeFor defaultFees (DR_BaseSymbol d) * 100 in
       (0.06 <=? actualProfit) = false
       /\ is_nan actualProfit = true
       /\ DRow_diff <$>
            PrintTopMarkPxDiffsWithFundingAndFees [d] ∅ defaultFees 0.24
          = [d].
Proof. eexists. split; [by vm_compute|]. by vm_compute. Qed.

Example scenario2_rows :
  DRow_diff <$> PrintTopMarkPxDiffsWithFundingAndFees twoDiffs ∅ defaultFees 0.24
  = [diffOf "ETH" 100 100.5 0.5].
Proof. by vm_compute. Qed.

End Output.

(** ** Arbitrage on execution prices *)

Module ArbitrageEvaluator.

Import Float64 Float64Facts.
Local Open Scope string_scope.
Local Open Scope list_scope.
Local Open Scope float_scope.

Section evaluate.
Context {parse : ParseFloat64} {client : OrderBookClient}.

(** The percentage of a direction that sells at [sell] and buys at [buy]:
    their difference over their mean, times a hundred. *)
Definition percentOver (sell buy : float) : float :=
  ((sell - buy) / ((sell + buy) / 2)) * 100.

Definition allLiquid (marginBuy marginSell swapBuy swapSell : WeightedPriceResult)
  : bool :=
  HasEnoughLiquidity marginBuy && HasEnoughLiquidity marginSell &&
  HasEnoughLiquidity swapBuy && HasEnoughLiquidity swapSell.

Definition anySlipped (maxSlippage : float)
    (marginBuy marginSell swapBuy swapSell : WeightedPriceResult) : bool :=
  gtb (Slippage marginBuy) maxSlippage || gtb (Slippage marginSell) maxSlippage
  || gtb (Slippage swapBuy) maxSlippage || gtb (Slippage swapSell) maxSlippage.

(** The result emitted for the contango direction (buy margin, sell swap)
    and for the backwardation direction (sell margin, buy swap). *)
Definition contangoResult (match_ : MatchingSymbol)
    (marginBuy marginSell swapBuy swapSell : WeightedPriceResult)
  : RealArbitrageResult :=
  {| RA_BaseSymbol := MS_BaseSymbol match_;
     RA_MarginBuyPrice := WeightedPrice marginBuy;
     RA_MarginSellPrice := WeightedPrice marginSell;
     RA_SwapBuyPrice := WeightedPrice swapBuy;
     RA_SwapSellPrice := WeightedPrice swapSell;
     RA_PercentDiff :=
       percentOver (WeightedPrice swapSell) (WeightedPrice marginBuy);
     RA_ActualDiff := WeightedPrice swapSell - WeightedPrice marginBuy;
     RA_IsContango := true;
     RA_TermStructure := "Contango";
     RA_MarginLiquidity := Liquidity marginBuy;
     RA_SwapLiquidity := Liquidity swapSell;
     RA_HasEnoughLiquidity := allLiquid marginBuy marginSell swapBuy swapSell;
     RA_MarginSlippage := Slippage marginBuy;
     RA_SwapSlippage := Slippage swapSell |}.

Definition backwardationResult (match_ : MatchingSymbol)
    (marginBuy marginSell swapBuy swapSell : WeightedPriceResult)
  : RealArbitrageResult :=
  {| RA_BaseSymbol := MS_BaseSymbol match_;
     RA_MarginBuyPrice := WeightedPrice marginBuy;
     RA_MarginSellPrice := WeightedPrice marginSell;
     RA_SwapBuyPrice := WeightedPrice swapBuy;
     RA_SwapSellPrice := WeightedPrice swapSell;
     RA_PercentDiff :=
       percentOver (WeightedPrice marginSell) (WeightedPrice swapBuy);
     RA_ActualDiff := WeightedPrice marginSell - WeightedPrice swapBuy;
     RA_IsContango := false;
     RA_TermStructure := "Backwardation";
     RA_MarginLiquidity := Liquidity marginSell;
     RA_SwapLiquidity := Liquidity swapBuy;
     RA_HasEnoughLiquidity := allLiquid marginBuy marginSell swapBuy swapSell;
     RA_MarginSlippage := Slippage marginSell;
     RA_SwapSlippage := Slippage swapBuy |}.

(** The loop body once the books are fetched, the margin price is read and
    positive, and the four legs are priced. *)
Lemma realArbitrage_legs config match_ marginOrderBook swapOrderBook
    marginPrice marginBuy marginSell swapBuy swapSell :
  FetchOrderBook (InstID (MS_Margin match_)) (OrderBookDepth config)
    = Ok marginOrderBook ->
  FetchOrderBook (InstID (MS_Swap match_)) (OrderBookDepth config)
    = Ok swapOrderBook ->
  ParseFloat (MarkPx (MS_Margin match_)) = Some marginPrice ->
  (marginPrice <=? 0) = false ->
  CalculateWeightedPrice marginOrderBook "buy" (TradeSizeUSD config / marginPrice)
    = Ok marginBuy ->
  CalculateWeightedPrice marginOrderBook "sell" (TradeSizeUSD config / marginPrice)
    = Ok marginSell ->
  CalculateWeightedPrice swapOrderBook "buy" (TradeSizeUSD config / marginPrice)
    = Ok swapBuy ->
  CalculateWeightedPrice swapOrderBook "sell" (TradeSizeUSD config / marginPrice)
    = Ok swapSell ->
  realArbitrage config match_
  = if negb (allLiquid marginBuy marginSell swapBuy swapSell) then None
    else if anySlipped (MaxSlippage config) marginBuy marginSell swapBuy swapSell
    then None
    else
      let contangoPercent :=
        percentOver (WeightedPrice swapSell) (WeightedPrice marginBuy) in
      let backwardationPercent :=
        percentOver (WeightedPrice marginSell) (WeightedPrice swapBuy) in
      if gtb contangoPercent backwardationPercent && gtb contangoPercent 0
      then Some (contangoResult match_ marginBuy marginSell swapBuy swapSell)
      else if gtb backwardationPercent 0
      then Some (backwardationResult match_ marginBuy marginSell swapBuy swapSell)
      else None.
Proof.
  intros Hmb Hsb Hp Hpos H1 H2 H3 H4. unfold realArbitrage.
  rewrite Hmb, Hsb, Hp, Hpos, H1, H2, H3, H4. reflexivity.
Qed.

(** A result is only ever emitted with a positive percentage. *)
Lemma realArbitrage_positive config match_ r :
  realArbitrage config match_ = Some r -> (0 <? RA_PercentDiff r) = true.
Proof.
  unfold realArbitrage.
  repeat (case_match; try discriminate).
  - intros [= <-]. simpl.
    match goal with H : _ && _ = true |- _ => apply andb_prop in H as [_ H] end.
    done.
  - intros [= <-]. simpl. done.
Qed.

(** Which outcomes of the two comparisons give a result: one of the
    percentages is positive, and the backwardation percentage is a
    number. *)
Lemma emitted_iff contangoPercent backwardationPercent :
  gtb contangoPercent backwardationPercent && gtb contangoPercent 0 = true
  \/ gtb backwardationPercent 0 = true
  <-> is_nan backwardationPercent = false
      /\ (gtb contangoPercent 0 = true \/ gtb backwardationPercent 0 = true).
Proof.
  unfold gtb. split.
  - intros [[Hcb Hc]%andb_prop | Hb].
    + split; [by apply ltb_true_num in Hcb as [? _] | by left].
    + split; [by apply ltb_true_num in Hb as [_ ?] | by right].
  - intros [Hnum [Hc | Hb]]; [|by right].
    destruct (0 <? backwardationPercent) eqn:Hb; [by right | left].
    rewrite Hc, andb_true_r.
    apply (leb_ltb_trans _ 0); [|done].
    apply ltb_false_leb; [done | | done].
    by apply ltb_true_num in Hc as [? _].
Qed.

(** C5, as the code has it. For every matched pair whose two order books
    are fetched:
    - a margin mark price that parses to a non-positive number gives no
      result (nor does one that does not parse, nor a leg that cannot be
      priced because its side of the book is empty);
    - with a positive margin price and the four legs (buy and sell on either
      book) priced at the same quantity [tradeSizeUSD / marginPrice], a leg
      with [hasEnoughLiquidity = false] gives no result, and so does a leg
      whose slippage exceeds [maxSlippage];
    - otherwise the contango percentage is the difference [swapSell -
      marginBuy] of the weighted prices over their mean, times a hundred,
      the backwardation percentage is the same for [marginSell - swapBuy],
      and the pair gives the contango result when the contango percentage
      exceeds the backwardation percentage and is positive, else the
      backwardation result when the backwardation percentage is positive,
      else no result;
    - so a result is given exactly when one of the percentages is positive
      and the backwardation percentage is a number: a backwardation
      percentage that is NaN gives no result, also beside a positive
      contango percentage, and a contango percentage that is NaN leaves the
      decision to the backwardation percentage alone; when both percentages
      are numbers and one is positive, a result is given and its percentage
      is one of the two and at least both;
    - in particular no result is given when neither percentage is positive,
      and a result that is given carries a positive percentage: the contango
      one, which then exceeds the other, or the backwardation one. *)
Theorem realArbitrage_decision config match_ marginOrderBook swapOrderBook :
  FetchOrderBook (InstID (MS_Margin match_)) (OrderBookDepth config)
    = Ok marginOrderBook ->
  FetchOrderBook (InstID (MS_Swap match_)) (OrderBookDepth config)
    = Ok swapOrderBook ->
  (forall marginPrice,
     ParseFloat (MarkPx (MS_Margin match_)) = Some marginPrice ->
     (marginPrice <=? 0) = true ->
     realArbitrage config match_ = None)
  /\ (ParseFloat (MarkPx (MS_Margin match_)) = None ->
        realArbitrage config match_ = None)
  /\ (forall marginPrice,
        ParseFloat (MarkPx (MS_Margin match_)) = Some marginPrice ->
        (marginPrice <=? 0) = false ->
        (exists orderBook side msg,
           orderBook ∈ [marginOrderBook; swapOrderBook]
           /\ side ∈ ["buy"; "sell"]
           /\ CalculateWeightedPrice orderBook side
                (TradeSizeUSD config / marginPrice) = Err msg) ->
        realArbitrage config match_ = None)
  /\ (forall marginPrice marginBuy marginSell swapBuy swapSell,
        ParseFloat (MarkPx (MS_Margin match_)) = Some marginPrice ->
        (marginPrice <=? 0) = false ->
        let quantity := TradeSizeUSD config / marginPrice in
        CalculateWeightedPrice marginOrderBook "buy" quantity = Ok marginBuy ->
        CalculateWeightedPrice marginOrderBook "sell" quantity = Ok marginSell ->
        CalculateWeightedPrice swapOrderBook "buy" quantity = Ok swapBuy ->
        CalculateWeightedPrice swapOrderBook "sell" quantity = Ok swapSell ->
        let legs := [marginBuy; marginSell; swapBuy; swapSell] in
        let contangoPercent :=
          ((WeightedPrice swapSell - WeightedPrice marginBuy)
             / ((WeightedPrice swapSell + WeightedPrice marginBuy) / 2)) * 100 in
        let backwardationPercent :=
          ((WeightedPrice marginSell - WeightedPrice swapBuy)
             / ((WeightedPrice marginSell + WeightedPrice swapBuy) / 2)) * 100 in
        (Exists (fun leg => HasEnoughLiquidity leg = false) legs ->
           realArbitrage config match_ = None)
        /\ (Exists (fun leg => gtb (Slippage leg) (MaxSlippage config) = true) legs ->
              realArbitrage config match_ = None)
        /\ (Forall (fun leg => HasEnoughLiquidity leg = true) legs ->
            Forall (fun leg => gtb (Slippage leg) (MaxSlippage config) = false) legs ->
              realArbitrage config match_
              = (if gtb contangoPercent backwardationPercent
                    && gtb contangoPercent 0
                 then Some (contangoResult match_
                              marginBuy marginSell swapBuy swapSell)
                 else if gtb backwardationPercent 0
                 then Some (backwardationResult match_
                              marginBuy marginSell swapBuy swapSell)
                 else None)
              /\ ((exists r, realArbitrage config match_ = Some r)
                  <-> is_nan backwardationPercent = false
                      /\ (gtb contangoPercent 0 = true
                          \/ gtb backwardationPercent 0 = true))
              /\ (is_nan backwardationPercent = true ->
                    realArbitrage config match_ = None)
              /\ (is_nan contangoPercent = true ->
                    realArbitrage config match_
                    = if gtb backwardationPercent 0
                      then Some (backwardationResult match_
                                   marginBuy marginSell swapBuy swapSell)
                      else None)
              /\ (is_nan contangoPercent = false ->
                  is_nan backwardationPercent = false ->
                  gtb contangoPercent 0 = true \/ gtb backwardationPercent 0 = true ->
                  exists r,
                    realArbitrage config match_ = Some r
                    /\ (RA_PercentDiff r = contangoPercent
                        \/ RA_PercentDiff r = backwardationPercent)
                    /\ (contangoPercent <=? RA_PercentDiff r) = true
                    /\ (backwardationPercent <=? RA_PercentDiff r) = true))
        /\ (gtb contangoPercent 0 = false -> gtb backwardationPercent 0 = false ->
              realArbitrage config match_ = None)
        /\ (forall r, realArbitrage config match_ = Some r ->
              gtb (RA_PercentDiff r) 0 = true
              /\ ((RA_IsContango r = true
                   /\ RA_PercentDiff r = contangoPercent
                   /\ gtb contangoPercent backwardationPercent = true)
                  \/ (RA_IsContango r = false
                      /\ RA_PercentDiff r = backwardationPercent)))).
Proof.
  intros Hmb Hsb. split.
  { intros marginPrice Hp Hle. unfold realArbitrage.
    by rewrite Hmb, Hsb, Hp, Hle. }
  split.
  { intros Hp. unfold realArbitrage. by rewrite Hmb, Hsb, Hp. }
  split.
  { intros marginPrice Hp Hpos (orderBook & side & msg & Hbook & Hside & Herr).
    unfold realArbitrage. rewrite Hmb, Hsb, Hp, Hpos.
    destruct (CalculateWeightedPrice marginOrderBook "buy" _) eqn:E1; [|done].
    destruct (CalculateWeightedPrice marginOrderBook "sell" _) eqn:E2; [|done].
    destruct (CalculateWeightedPrice swapOrderBook "buy" _) eqn:E3; [|done].
    destruct (CalculateWeightedPrice swapOrderBook "sell" _) eqn:E4; [|done].
    rewrite !elem_of_cons, elem_of_nil in Hbook.
    rewrite !elem_of_cons, elem_of_nil in Hside.
    destruct Hbook as [->|[->|[]]], Hside as [->|[->|[]]]; congruence. }
  intros marginPrice marginBuy marginSell swapBuy swapSell Hp Hpos quantity
    H1 H2 H3 H4 legs contangoPercent backwardationPercent.
  pose proof (realArbitrage_legs config match_ _ _ _ _ _ _ _
                Hmb Hsb Hp Hpos H1 H2 H3 H4) as Hlegs.
  simpl in Hlegs.
  fold contangoPercent backwardationPercent in Hlegs.
  change (percentOver (WeightedPrice swapSell) (WeightedPrice marginBuy))
    with contangoPercent in Hlegs.
  change (percentOver (WeightedPrice marginSell) (WeightedPrice swapBuy))
    with backwardationPercent in Hlegs.
  subst legs. split_and!.
  - rewrite !Exists_cons, Exists_nil. rewrite Hlegs. unfold allLiquid.
    intros [->|[->|[->|[->|[]]]]]; by rewrite ?andb_false_r.
  - rewrite !Exists_cons, Exists_nil. rewrite Hlegs. unfold anySlipped.
    intros [->|[->|[->|[->|[]]]]]; rewrite ?orb_true_r; simpl;
      by destruct (negb _).
  - rewrite !Forall_cons, Forall_nil. rewrite Hlegs.
    unfold allLiquid, anySlipped.
    intros (-> & -> & -> & -> & _) (-> & -> & -> & -> & _). simpl.
    split; [done|]. split_and!.
    + rewrite <- emitted_iff.
      destruct (gtb contangoPercent backwardationPercent && gtb contangoPercent 0);
        [split; eauto|].
      destruct (gtb backwardationPercent 0); [split; eauto|].
      split; [by intros [r Hr] | by intros [|]].
    + intros Hnan. unfold gtb.
      by rewrite (ltb_nan_l _ _ Hnan), (ltb_nan_r _ _ Hnan).
    + intros Hnan. unfold gtb. by rewrite (ltb_nan_r _ _ Hnan).
    + intros Hnc Hnb Hpos'. unfold gtb in *.
      destruct (backwardationPercent <? contangoPercent) eqn:Hcb;
        destruct (0 <? contangoPercent) eqn:Hc; simpl.
      * eexists. split; [done|]. simpl. fold contangoPercent.
        split_and!; [by left | by apply leb_refl | by apply ltb_leb].
      * destruct Hpos' as [Hb|Hb]; [done|].
        by rewrite (ltb_trans _ _ _ Hb Hcb) in Hc.
      * assert ((0 <? backwardationPercent) = true) as ->.
        { apply (ltb_leb_trans 0 contangoPercent backwardationPercent Hc).
          by apply ltb_false_leb. }
        eexists. split; [done|]. simpl. fold backwardationPercent.
        split_and!; [by right | by apply ltb_false_leb | by apply leb_refl].
      * destruct Hpos' as [|Hb]; [done|]. rewrite Hb.
        eexists. split; [done|]. simpl. fold backwardationPercent.
        split_and!; [by right | by apply ltb_false_leb | by apply leb_refl].
  - intros Hc Hb. rewrite Hlegs, Hc, Hb, andb_false_r.
    by repeat case_match.
  - intros r Hr. split; [by apply (realArbitrage_positive config match_)|].
    rewrite Hlegs in Hr. repeat (case_match; try discriminate).
    + injection Hr as <-. left. simpl.
      match goal with H : _ && _ = true |- _ => apply andb_prop in H as [H _] end.
      done.
    + injection Hr as <-. right. done.
Qed.

End evaluate.

Import OrderBookPricer.

(** An exchange with one book per venue for BTC. *)
Definition marginBook : OrderBook :=
  {| OB_InstID := "BTC-USDT";
     Bids := [level 99.9 20];
     Asks := [level 100 20];
     OB_TS := "" |}.

Definition swapBook : OrderBook :=
  {| OB_InstID := "BTC-USDT-SWAP";
     Bids := [level 101 20];
     Asks := [level 101.1 20];
     OB_TS := "" |}.

Definition twoBooks : OrderBookClient := fun instID depth =>
  if String.eqb instID "BTC-USDT" then Ok marginBook
  else if String.eqb instID "BTC-USDT-SWAP" then Ok swapBook
  else Err "no order book data received".

Definition defaultConfig : TradingConfig :=
  {| TradeSizeUSD := 1000;
     MinLiquidityUSD := 10000;
     MaxSlippage := 0.5;
     OrderBookDepth := 20 |}.

Definition leg (symbol side : string) (size price : float) : WeightedPriceResult :=
  {| WP_Symbol := symbol;
     WP_Side := side;
     WP_TradeSize := size;
     WeightedPrice := price;
     TotalCost := size * price;
     Liquidity := size * price;
     HasEnoughLiquidity := true;
     Slippage := 0 |}.

(** Selling the swap at 101 against buying margin at 100 is a contango of
    about one percent. *)
Lemma realArbitrage_decision_witness :
  realArbitrage (parse := decimal_ParseFloat64) (client := twoBooks)
    defaultConfig (pairOf "BTC" "100" "101")
  = Some (contangoResult (pairOf "BTC" "100" "101")
            (leg "BTC-USDT" "buy" 10 100) (leg "BTC-USDT" "sell" 10 99.9)
            (leg "BTC-USDT-SWAP" "buy" 10 101.1)
            (leg "BTC-USDT-SWAP" "sell" 10 101)).
Proof.
  pose proof (realArbitrage_decision
                (parse := decimal_ParseFloat64) (client := twoBooks)
                defaultConfig (pairOf "BTC" "100" "101")
                marginBook swapBook eq_refl eq_refl) as (_ & _ & _ & H).
  specialize (H 100 (leg "BTC-USDT" "buy" 10 100) (leg "BTC-USDT" "sell" 10 99.9)
                (leg "BTC-USDT-SWAP" "buy" 10 101.1)
                (leg "BTC-USDT-SWAP" "sell" 10 101)
                eq_refl eq_refl eq_refl eq_refl eq_refl eq_refl).
  destruct H as (_ & _ & H & _).
  apply H; repeat constructor.
Defined.

(** A margin book whose best bid is the finite price [2^1023], and an
    exchange that answers with it. *)
Definition highBidBook : OrderBook :=
  {| OB_InstID := "BTC-USDT";
     Bids := [level 0x1p+1023 20];
     Asks := [level 100 20];
     OB_TS := "" |}.

Definition highBidBooks : OrderBookClient := fun instID depth =>
  if String.eqb instID "BTC-USDT" then Ok highBidBook
  else if String.eqb instID "BTC-USDT-SWAP" then Ok swapBook
  else Err "no order book data received".

(** C5 as stated fails. With these books every leg is liquid, no slippage
    exceeds the maximum, and selling the swap at 101 against buying margin
    at 100 is a contango of 0.995 percent, the only positive percentage: the
    claim has the contango result emitted. The cost of selling 10 at
    [2^1023] overflows, so that leg's weighted price is infinite and the
    backwardation percentage is the quotient of two infinities, NaN; the
    comparison [contangoPercent > backwardationPercent] is then false, and
    the pair gives no result. *)
Lemma positive_contango_not_emitted :
  exists marginBuy marginSell swapBuy swapSell,
    let legs := [marginBuy; marginSell; swapBuy; swapSell] in
    CalculateWeightedPrice highBidBook "buy" (1000 / 100) = Ok marginBuy
    /\ CalculateWeightedPrice highBidBook "sell" (1000 / 100) = Ok marginSell
    /\ CalculateWeightedPrice swapBook "buy" (1000 / 100) = Ok swapBuy
    /\ CalculateWeightedPrice swapBook "sell" (1000 / 100) = Ok swapSell
    /\ Forall (fun leg => HasEnoughLiquidity leg = true) legs
    /\ Forall (fun leg => gtb (Slippage leg) 0.5 = false) legs
    /\ WeightedPrice marginBuy = 100
    /\ WeightedPrice swapSell = 101
    /\ percentOver (WeightedPrice swapSell) (WeightedPrice marginBuy)
       = 0.99502487562189057
    /\ is_nan (percentOver (WeightedPrice marginSell) (WeightedPrice swapBuy))
       = true
    /\ realArbitrage (parse := decimal_ParseFloat64) (client := highBidBooks)
         defaultConfig (pairOf "BTC" "100" "101") = None.
Proof.
  do 4 eexists. cbv zeta.
  split; [reflexivity|]. split; [reflexivity|].
  split; [reflexivity|]. split; [reflexivity|].
  split; [by repeat constructor|]. split; [by repeat constructor|].
  by vm_compute.
Qed.

End ArbitrageEvaluator.

(** ** The ranking of the results *)

Module Ranking.

Import Float64 Float64Facts.
Local Open Scope string_scope.
Local Open Scope list_scope.
Local Open Scope float_scope.

(** Descending order of a list by a float key: no element is followed,
    immediately or later, by one with a larger key. Equal keys may follow
    each other. *)
Definition descending {A} (key : A -> float) (l : list A) : Prop :=
  StronglySorted (fun a b => (key b <=? key a) = true) l.

(** Strictly descending order: every element has a larger key than the
    next. *)
Definition strictly_descending {A} (key : A -> float) (l : list A) : Prop :=
  Sorted (fun a b => (key b <? key a) = true) l.

(** The comparison handed to [sort.Slice] meets the requirement of [Less] on
    lists without NaN keys. *)
Lemma gtb_strict_weak_on {A} (key : A -> float) (l : list A) :
  Forall (fun x => is_nan (key x) = false) l ->
  strict_weak_on (fun a b => gtb (key a) (key b)) l.
Proof.
  rewrite Forall_forall. intros Hnum. unfold gtb. split.
  - intros x _. apply ltb_irrefl.
  - intros x y z _ _ _ Hxy Hyz. by apply (ltb_trans _ (key y)).
  - intros x y z Hx Hy Hz Hxy Hyz.
    apply (ltb_negtrans _ (key y)); auto.
Qed.

Lemma StronglySorted_impl_elem_of {A} (R R' : relation A) (l : list A) :
  (forall a b, a ∈ l -> b ∈ l -> R a b -> R' a b) ->
  StronglySorted R l -> StronglySorted R' l.
Proof.
  intros Himpl Hs. induction Hs as [|x l Hs IH Hx]; [constructor|].
  constructor.
  - apply IH. intros a b Ha Hb. apply Himpl; by right.
  - rewrite Forall_forall in Hx |- *. intros y Hy.
    apply Himpl; [by left | by right | by apply Hx].
Qed.

Section sorting.
Context {sorter : SortSlice}.

Lemma sort_Slice_descending {A} (key : A -> float) (l : list A) :
  Forall (fun x => is_nan (key x) = false) l ->
  descending key (sort_Slice (fun a b => gtb (key a) (key b)) l).
Proof.
  intros Hnum. unfold descending.
  pose proof (sort_Slice_sorted _ _ l (gtb_strict_weak_on key l Hnum)) as Hs.
  pose proof (sort_Slice_perm A (fun a b => gtb (key a) (key b)) l) as Hp.
  eapply StronglySorted_impl_elem_of; [|exact Hs].
  intros a b Ha Hb Hab. simpl in Hab. unfold gtb in Hab.
  rewrite Forall_forall in Hnum.
  apply ltb_false_leb; [| |done]; apply Hnum; by rewrite <- Hp.
Qed.

Context {parse : ParseFloat64} {client : OrderBookClient}.

(** A negative [topN] makes the slice expression panic. *)
Lemma CalculateTopMarkPxDiffs_negative_topN matches topN minDiff :
  (topN < 0)%Z -> CalculateTopMarkPxDiffs matches topN minDiff = Panics.
Proof.
  intros Hneg. unfold CalculateTopMarkPxDiffs, slice_to.
  rewrite (proj2 (Z.ltb_lt topN _)) by lia.
  by rewrite (proj2 (Z.ltb_lt topN 0)).
Qed.

(** C1, as the code has it. For every list of matched pairs:
    - for every [topN >= 0], [CalculateTopMarkPxDiffs] returns the first
      [topN] results of a rearrangement of the results its loop appended, or
      all of them when there are fewer: exactly [min topN n] results of the
      [n] appended; provided no appended result has a NaN percentage, the
      rearrangement is in descending order of [PercentDiff] (no result is
      followed by one with a larger percentage), so the results returned
      are, and none of them is smaller than a result cut off;
    - [CalculateRealArbitrageOpportunities] returns a rearrangement of the
      results its loop appended, in descending order of [PercentDiff],
      without any condition: its results carry positive percentages.
    The order is not strict and the relative order of results with equal
    percentages is whatever [sort.Slice] leaves. *)
Theorem rankings_descending matches minDiff config :
  (forall topN : Z,
     (0 <= topN)%Z ->
     exists ranked diffs,
       ranked ≡ₚ omap (markPxDiff minDiff) matches
       /\ CalculateTopMarkPxDiffs matches topN minDiff = Returns diffs
       /\ diffs = take (Z.to_nat topN) ranked
       /\ Z.of_nat (length diffs)
          = Z.min topN (Z.of_nat (length (omap (markPxDiff minDiff) matches)))
       /\ (Forall (fun d => is_nan (DR_PercentDiff d) = false)
                  (omap (markPxDiff minDiff) matches) ->
           descending DR_PercentDiff ranked
           /\ descending DR_PercentDiff diffs
           /\ (forall d d', d ∈ diffs -> d' ∈ drop (Z.to_nat topN) ranked ->
                 (DR_PercentDiff d' <=? DR_PercentDiff d) = true)))
  /\ CalculateRealArbitrageOpportunities matches config
       ≡ₚ omap (realArbitrage config) matches
  /\ descending RA_PercentDiff (CalculateRealArbitrageOpportunities matches config).
Proof.
  split_and!.
  - intros topN HtopN.
    unfold CalculateTopMarkPxDiffs. rewrite collect_omap.
    set (candidates := omap (markPxDiff minDiff) matches) in *.
    set (sorted := sort_Slice _ candidates).
    assert (sorted ≡ₚ candidates) as Hperm by apply sort_Slice_perm.
    exists sorted, (take (Z.to_nat topN) sorted).
    split; [done|]. split.
    { destruct (topN <? Z.of_nat (length sorted))%Z eqn:Hlen.
      - unfold slice_to. by rewrite (proj2 (Z.ltb_ge topN 0)).
      - apply Z.ltb_ge in Hlen. rewrite take_ge; [done | lia]. }
    split; [done|]. split.
    { rewrite length_take, <- (Permutation_length Hperm). lia. }
    intros Hnum.
    assert (descending DR_PercentDiff sorted) as Hsorted
      by by apply sort_Slice_descending.
    split; [done|]. unfold descending in *.
    rewrite <- (take_drop (Z.to_nat topN) sorted) in Hsorted.
    apply StronglySorted_app in Hsorted as (Hcut & Htake & _).
    split; [done|]. auto.
  - unfold CalculateRealArbitrageOpportunities. rewrite collect_omap.
    apply sort_Slice_perm.
  - unfold CalculateRealArbitrageOpportunities. rewrite collect_omap.
    apply sort_Slice_descending. apply Forall_forall.
    intros r (match_ & _ & Hr)%list_elem_of_omap.
    apply ArbitrageEvaluator.realArbitrage_positive in Hr.
    by apply ltb_true_num in Hr as [_ Hr].
Qed.

End sorting.

(** Two pairs with the same prices. *)
Definition tiedPairs : list MatchingSymbol :=
  [pairOf "BTC" "100" "101"; pairOf "ETH" "100" "101"].

Definition tiedDiff (baseSymbol : string) : DiffResult :=
  {| DR_BaseSymbol := baseSymbol;
     DR_MarginMarkPx := 100;
     DR_SwapMarkPx := 101;
     DR_PercentDiff := 100 * abs (101 - 100) / ((100 + 101) / 2);
     DR_ActualDiff := 101 - 100;
     DR_IsContango := true;
     DR_TermStructure := "Contango" |}.

(** The first of the two tied results, with [topN = 1]. *)
Lemma rankings_descending_witness :
  exists ranked diffs,
    ranked ≡ₚ omap (markPxDiff (parse := decimal_ParseFloat64) 0.24) tiedPairs
    /\ CalculateTopMarkPxDiffs (sorter := insertion_SortSlice)
         (parse := decimal_ParseFloat64) tiedPairs 1 0.24 = Returns diffs
    /\ diffs = take 1 ranked
    /\ length diffs = 1%nat
    /\ descending DR_PercentDiff ranked
    /\ descending DR_PercentDiff diffs
    /\ (forall d d', d ∈ diffs -> d' ∈ drop 1 ranked ->
          (DR_PercentDiff d' <=? DR_PercentDiff d) = true).
Proof.
  assert (0 <= 1)%Z as HtopN by lia.
  destruct (proj1 (rankings_descending (sorter := insertion_SortSlice)
                     (parse := decimal_ParseFloat64)
                     (client := ArbitrageEvaluator.twoBooks)
                     tiedPairs 0.24 ArbitrageEvaluator.defaultConfig)
              1%Z HtopN)
    as (ranked & diffs & Hperm & Hreturns & Hcut & Hlength & Hsorted).
  exists ranked, diffs. split_and!; [done | done | done | | | |].
  - apply Nat2Z.inj. rewrite Hlength. reflexivity.
  - apply Hsorted. repeat constructor.
  - apply Hsorted. repeat constructor.
  - apply Hsorted. repeat constructor.
Defined.

(** C1 as stated fails. Go sorts a slice of two elements by insertion: for
    two pairs with the same prices both results are returned, next to each
    other and with the same percentage, so the order is not strictly
    descending. *)
Lemma rankings_not_strictly_descending :
  CalculateTopMarkPxDiffs (sorter := insertion_SortSlice)
    (parse := decimal_ParseFloat64) tiedPairs 10 0.24
  = Returns [tiedDiff "BTC"; tiedDiff "ETH"]
  /\ DR_PercentDiff (tiedDiff "BTC") = DR_PercentDiff (tiedDiff "ETH")
  /\ ~ strictly_descending DR_PercentDiff [tiedDiff "BTC"; tiedDiff "ETH"].
Proof.
  split_and!; [by vm_compute | done |].
  intros H. apply Sorted_inv in H as [_ H]. apply HdRel_inv in H.
  by vm_compute in H.
Qed.

(** Whatever [sort.Slice] does, the two results come out next to each
    other. *)
Lemma tied_results_adjacent (sorter : SortSlice) diffs :
  CalculateTopMarkPxDiffs (parse := decimal_ParseFloat64) tiedPairs 10 0.24
    = Returns diffs ->
  ~ strictly_descending DR_PercentDiff diffs.
Proof.
  unfold CalculateTopMarkPxDiffs. rewrite collect_omap.
  change (omap (markPxDiff 0.24) tiedPairs)
    with [tiedDiff "BTC"; tiedDiff "ETH"].
  set (sorted := sort_Slice _ _).
  assert (sorted ≡ₚ [tiedDiff "BTC"; tiedDiff "ETH"]) as Hperm
    by apply sort_Slice_perm.
  rewrite (Permutation_length Hperm). simpl. intros [= <-].
  apply Permutation_sym, Permutation_length_2_inv in Hperm as [-> | ->];
    intros H; apply Sorted_inv in H as [_ H]; apply HdRel_inv in H;
    by vm_compute in H.
Qed.

(** The contract of [sort.Slice] does not fix the order of ties: sorting the
    reversed slice by insertion meets it as well, and returns the two tied
    results in the other order. *)
Lemma strict_weak_on_reverse {A} (less : A -> A -> bool) (l : list A) :
  strict_weak_on less l -> strict_weak_on less (reverse l).
Proof.
  intros [Hi Ht Hn]. split.
  - intros x Hx. rewrite elem_of_reverse in Hx. auto.
  - intros x y z Hx Hy Hz. rewrite elem_of_reverse in Hx, Hy, Hz. eauto.
  - intros x y z Hx Hy Hz. rewrite elem_of_reverse in Hx, Hy, Hz. eauto.
Qed.

Definition reversing_SortSlice : SortSlice := {|
  sort_Slice A less l := InsertionSort.insertionSort less (reverse l);
  sort_Slice_perm A less l :=
    transitivity (InsertionSort.insertionSort_perm less (reverse l))
                 (reverse_Permutation l);
  sort_Slice_sorted A less l Hswo :=
    InsertionSort.insertionSort_sorted less (reverse l)
      (strict_weak_on_reverse less l Hswo)
|}.

Lemma tie_order_depends_on_the_sort :
  CalculateTopMarkPxDiffs (sorter := insertion_SortSlice)
    (parse := decimal_ParseFloat64) tiedPairs 10 0.24
  = Returns [tiedDiff "BTC"; tiedDiff "ETH"]
  /\ CalculateTopMarkPxDiffs (sorter := reversing_SortSlice)
       (parse := decimal_ParseFloat64) tiedPairs 10 0.24
     = Returns [tiedDiff "ETH"; tiedDiff "BTC"].
Proof. split; by vm_compute. Qed.

End Ranking.

(** * The rest of the package: decoding, fusing, fetching and the program *)

(** ** Decoding the exchange's objects (internal/models.go) *)

Record MarkPrice := {
  MP_InstID : string;
  MP_MarkPx : string;
  MP_TS : string;
  MP_Extra : gmap string json
}.

(** [json.Unmarshal(data, &raw)] for a [raw] of type
    [map[string]interface{}]: the members of the JSON object [data], a later
    member replacing an earlier one of the same name (no member for [null],
    which leaves the map nil), or an error when [data] is no object. *)
Class ObjectDecoder := json_Unmarshal_object : string -> result (gmap string json).

Section Decoding.

Local Open Scope string_scope.

Context {decoder : ObjectDecoder}.

(** The block [if v, ok := raw[key].(string); ok { field = v; delete(raw,
    key) }]: what the field and the map are after it. A key that is absent
    reads as [nil], which is no string. *)
Definition takeString (raw : gmap string json) (key : string) (field : string)
  : string * gmap string json :=
  match raw !! key with
  | Some (JString v) => (v, delete key raw)
  | _ => (field, raw)
  end.

(** The methods have a pointer receiver: [i] is the value the receiver holds
    when the method is called, the result the value it holds afterwards; on
    an error the receiver is left as it was. *)
Definition Instrument_UnmarshalJSON (i : Instrument) (data : string)
  : result Instrument :=
  match json_Unmarshal_object data with
  | Err err => Err err
  | Ok raw =>
      let '(instID, raw) := takeString raw "instId" (InstID i) in
      let '(instType, raw) := takeString raw "instType" (InstType i) in
      let '(baseCcy, raw) := takeString raw "baseCcy" (BaseCcy i) in
      let '(quoteCcy, raw) := takeString raw "quoteCcy" (QuoteCcy i) in
      let '(state, raw) := takeString raw "state" (State i) in
      let '(markPx, raw) := takeString raw "markPx" (MarkPx i) in
      let '(lever, raw) := takeString raw "lever" (Lever i) in
      let '(lotSz, raw) := takeString raw "lotSz" (LotSz i) in
      let '(tickSz, raw) := takeString raw "tickSz" (TickSz i) in
      let '(minSz, raw) := takeString raw "minSz" (MinSz i) in
      let '(maxSz, raw) := takeString raw "maxSz" (MaxSz i) in
      Ok {| InstID := instID; InstType := instType; BaseCcy := baseCcy;
            QuoteCcy := quoteCcy; State := state; MarkPx := markPx;
            Lever := lever; LotSz := lotSz; TickSz := tickSz; MinSz := minSz;
            MaxSz := maxSz; Extra := raw |}
  end.

Definition MarkPrice_UnmarshalJSON (m : MarkPrice) (data : string)
  : result MarkPrice :=
  match json_Unmarshal_object data with
  | Err err => Err err
  | Ok raw =>
      let '(instID, raw) := takeString raw "instId" (MP_InstID m) in
      let '(markPx, raw) := takeString raw "markPx" (MP_MarkPx m) in
      let '(ts, raw) := takeString raw "ts" (MP_TS m) in
      Ok {| MP_InstID := instID; MP_MarkPx := markPx; MP_TS := ts;
            MP_Extra := raw |}
  end.

End Decoding.

(** ** Fusing mark prices into instruments (internal/analyzer.go) *)

Section Fusing.

Local Open Scope string_scope.

(** The assignment [fusedInst.MarkPx = markPx] on a copy of the struct. *)
Definition withMarkPx (inst : Instrument) (markPx : string) : Instrument :=
  {| InstID := InstID inst; InstType := InstType inst; BaseCcy := BaseCcy inst;
     QuoteCcy := QuoteCcy inst; State := State inst; MarkPx := markPx;
     Lever := Lever inst; LotSz := LotSz inst; TickSz := TickSz inst;
     MinSz := MinSz inst; MaxSz := MaxSz inst; Extra := Extra inst |}.

Definition FuseData (instruments : list Instrument)
    (markPrices : gmap string MarkPrice) : list Instrument :=
  collect (fun inst =>
    let fusedInst := inst in
    let fusedInst :=
      match markPrices !! InstID inst with
      | Some markPrice =>
          if negb (String.eqb (MP_MarkPx markPrice) "")
          then withMarkPx fusedInst (MP_MarkPx markPrice)
          else fusedInst
      | None => fusedInst
      end in
    Some fusedInst) instruments.

End Fusing.

Module Decoder.
Section decoder.

Local Open Scope string_scope.

Context {decoder : ObjectDecoder}.

(** The JSON names of the typed fields. *)
Definition instrumentFields : list (string * (Instrument -> string)) :=
  [("instId", InstID); ("instType", InstType); ("baseCcy", BaseCcy);
   ("quoteCcy", QuoteCcy); ("state", State); ("markPx", MarkPx);
   ("lever", Lever); ("lotSz", LotSz); ("tickSz", TickSz); ("minSz", MinSz);
   ("maxSz", MaxSz)].

Definition markPriceFields : list (string * (MarkPrice -> string)) :=
  [("instId", MP_InstID); ("markPx", MP_MarkPx); ("ts", MP_TS)].

(** What a block leaves in the field and in the map. *)
Definition stringAt (raw : gmap string json) (key field : string) : string :=
  match raw !! key with
  | Some (JString v) => v
  | _ => field
  end.

Definition withoutString (raw : gmap string json) (key : string)
  : gmap string json :=
  match raw !! key with
  | Some (JString _) => delete key raw
  | _ => raw
  end.

Lemma takeString_eq raw key field :
  takeString raw key field = (stringAt raw key field, withoutString raw key).
Proof.
  unfold takeString, stringAt, withoutString.
  by destruct (raw !! key) as [[]|].
Qed.

Lemma lookup_withoutString_ne raw key k :
  key <> k -> withoutString raw key !! k = raw !! k.
Proof.
  intros Hne. unfold withoutString.
  destruct (raw !! key) as [[]|]; try done. by rewrite lookup_delete_ne.
Qed.

Lemma lookup_withoutString_eq raw key :
  withoutString raw key !! key
  = match raw !! key with
    | Some (JString _) => None
    | other => other
    end.
Proof.
  unfold withoutString.
  destruct (raw !! key) as [[]|] eqn:E; try done. by rewrite lookup_delete_eq.
Qed.

Lemma stringAt_withoutString_ne raw key k field :
  key <> k -> stringAt (withoutString raw key) k field = stringAt raw k field.
Proof.
  intros Hne. unfold stringAt. by rewrite lookup_withoutString_ne.
Qed.

(** A typed field and the map entry of its name after decoding, from the
    entry [entry] the object had under that name. *)
Definition decodedAs (entry : option json) (before after : string)
    (extra : option json) : Prop :=
  match entry with
  | Some (JString v) => after = v /\ extra = None
  | other => after = before /\ extra = other
  end.

Lemma decodedAs_intro raw key field extra :
  extra = match raw !! key with Some (JString _) => None | other => other end ->
  decodedAs (raw !! key) field (stringAt raw key field) extra.
Proof.
  intros ->. unfold decodedAs, stringAt. by destruct (raw !! key) as [[]|].
Qed.

Ltac decode_blocks :=
  repeat (rewrite takeString_eq; cbv beta iota).

Ltac decoded_field :=
  cbn [InstID InstType BaseCcy QuoteCcy State MarkPx Lever LotSz TickSz MinSz
       MaxSz Extra MP_InstID MP_MarkPx MP_TS MP_Extra];
  rewrite ?stringAt_withoutString_ne by done;
  apply decodedAs_intro;
  repeat first [ rewrite lookup_withoutString_ne by done
               | rewrite lookup_withoutString_eq ];
  reflexivity.

(** X1. [Instrument.UnmarshalJSON] fails exactly when the object does not
    decode, and then leaves the receiver alone. Otherwise each of the eleven
    typed fields whose member is present with a string value takes that
    value, and the member is removed from [Extra]; a member that is absent,
    [null] or not a string (a number, say) leaves the field as the receiver
    had it and, if present, stays in [Extra]; every member under another
    name is kept in [Extra] unchanged. So no member of the object is lost,
    and [Extra] never repeats a field that was read. *)
Theorem Instrument_UnmarshalJSON_fields_and_Extra (i : Instrument) (data : string) :
  match json_Unmarshal_object data with
  | Err err => Instrument_UnmarshalJSON i data = Err err
  | Ok raw =>
      exists r,
        Instrument_UnmarshalJSON i data = Ok r
        /\ (forall key field, (key, field) ∈ instrumentFields ->
              decodedAs (raw !! key) (field i) (field r) (Extra r !! key))
        /\ (forall key, key ∉ instrumentFields.*1 -> Extra r !! key = raw !! key)
  end.
Proof.
  unfold Instrument_UnmarshalJSON.
  destruct (json_Unmarshal_object data) as [raw|err]; [|done].
  decode_blocks. eexists. split; [reflexivity|]. split.
  - intros key field Hin. unfold instrumentFields in Hin.
    repeat (apply elem_of_cons in Hin as [[= -> ->]|Hin]);
      [decoded_field .. |].
    by apply elem_of_nil in Hin.
  - intros key Hkey. cbn in Hkey. rewrite !not_elem_of_cons in Hkey.
    cbn [Extra]. rewrite !lookup_withoutString_ne by (intros <-; tauto). done.
Qed.

(** X2. [MarkPrice.UnmarshalJSON] does the same with its three typed
    fields [instId], [markPx] and [ts]: a member with a string value is
    moved into its field, any other member is kept in [Extra], and a field
    without a string member keeps the value the receiver had. *)
Theorem MarkPrice_UnmarshalJSON_fields_and_Extra (m : MarkPrice) (data : string) :
  match json_Unmarshal_object data with
  | Err err => MarkPrice_UnmarshalJSON m data = Err err
  | Ok raw =>
      exists r,
        MarkPrice_UnmarshalJSON m data = Ok r
        /\ (forall key field, (key, field) ∈ markPriceFields ->
              decodedAs (raw !! key) (field m) (field r) (MP_Extra r !! key))
        /\ (forall key, key ∉ markPriceFields.*1 -> MP_Extra r !! key = raw !! key)
  end.
Proof.
  unfold MarkPrice_UnmarshalJSON.
  destruct (json_Unmarshal_object data) as [raw|err]; [|done].
  decode_blocks. eexists. split; [reflexivity|]. split.
  - intros key field Hin. unfold markPriceFields in Hin.
    repeat (apply elem_of_cons in Hin as [[= -> ->]|Hin]);
      [decoded_field .. |].
    by apply elem_of_nil in Hin.
  - intros key Hkey. cbn in Hkey. rewrite !not_elem_of_cons in Hkey.
    cbn [MP_Extra]. rewrite !lookup_withoutString_ne by (intros <-; tauto). done.
Qed.

End decoder.
End Decoder.

(** ** Fused instruments *)

Module PriceFuser.

Import SymbolMatcher.
Local Open Scope string_scope.

(** One turn of the loop of [FuseData]. *)
Definition fuseOne (markPrices : gmap string MarkPrice) (inst : Instrument)
  : Instrument :=
  match markPrices !! InstID inst with
  | Some markPrice =>
      if negb (String.eqb (MP_MarkPx markPrice) "")
      then withMarkPx inst (MP_MarkPx markPrice)
      else inst
  | None => inst
  end.

Lemma omap_Some_fmap {A B} (f : A -> B) (l : list A) :
  omap (fun x => Some (f x)) l = f <$> l.
Proof. induction l as [|x l IH]; [done|]. cbn. by f_equal. Qed.

Lemma FuseData_fmap instruments markPrices :
  FuseData instruments markPrices = fuseOne markPrices <$> instruments.
Proof.
  unfold FuseData. rewrite collect_omap.
  apply (omap_Some_fmap (fuseOne markPrices)).
Qed.

Lemma withMarkPx_same inst : withMarkPx inst (MarkPx inst) = inst.
Proof. by destruct inst. Qed.

Lemma InstID_fuseOne markPrices inst :
  InstID (fuseOne markPrices inst) = InstID inst.
Proof.
  unfold fuseOne. destruct (markPrices !! InstID inst) as [markPrice|]; [|done].
  by destruct (negb _).
Qed.

Lemma keyOf_fuseOne markPrices inst :
  keyOf (fuseOne markPrices inst) = keyOf inst.
Proof. unfold keyOf. by rewrite InstID_fuseOne. Qed.

Lemma fuseOne_unchanged_but_price markPrices inst :
  withMarkPx (fuseOne markPrices inst) (MarkPx inst) = inst.
Proof.
  unfold fuseOne. destruct (markPrices !! InstID inst) as [markPrice|];
    [destruct (negb _)|]; by destruct inst.
Qed.

Lemma eqb_empty_false s : String.eqb s "" = false <-> s <> "".
Proof. apply String.eqb_neq. Qed.

(** X3. [FuseData] never drops, adds or reorders an instrument and changes
    nothing but a mark price: the result has the length of the input, and
    its instrument at each position is the input's with, at most, another
    [MarkPx]. The price written is never empty: an instrument that had a
    price still has one, and the price of the result differs from the
    input's only where the snapshot holds a different, non-empty price under
    the instrument's [InstID]. *)
Theorem FuseData_changes_only_prices instruments markPrices :
  length (FuseData instruments markPrices) = length instruments
  /\ Forall2 (fun inst fused =>
       withMarkPx fused (MarkPx inst) = inst
       /\ (MarkPx inst <> "" -> MarkPx fused <> "")
       /\ (MarkPx fused <> MarkPx inst ->
           exists markPrice,
             markPrices !! InstID inst = Some markPrice
             /\ MP_MarkPx markPrice = MarkPx fused
             /\ MarkPx fused <> ""))
       instruments (FuseData instruments markPrices).
Proof.
  rewrite FuseData_fmap. split; [by rewrite length_fmap|].
  apply Forall2_fmap_r, Forall_Forall2_diag, Forall_forall.
  intros inst _. split; [apply fuseOne_unchanged_but_price|].
  unfold fuseOne. destruct (markPrices !! InstID inst) as [markPrice|]; [|done].
  destruct (String.eqb (MP_MarkPx markPrice) "") eqn:E; simpl; [done|].
  apply eqb_empty_false in E. split; [done|]. intros _. eauto.
Qed.

(** X4. Fusing is idempotent, and a snapshot in which no instrument of the
    list has a non-empty price (an empty snapshot in particular) leaves the
    list as it is. *)
Theorem FuseData_idempotent instruments markPrices :
  FuseData (FuseData instruments markPrices) markPrices
    = FuseData instruments markPrices
  /\ FuseData instruments ∅ = instruments
  /\ ((forall inst markPrice,
         inst ∈ instruments -> markPrices !! InstID inst = Some markPrice ->
         MP_MarkPx markPrice = "")
      -> FuseData instruments markPrices = instruments).
Proof.
  rewrite !FuseData_fmap. split_and!.
  - rewrite <- list_fmap_compose. apply list_fmap_ext. intros _ inst _. simpl.
    unfold fuseOne at 1. rewrite InstID_fuseOne.
    destruct (markPrices !! InstID inst) as [markPrice|] eqn:Hm; [|done].
    destruct (String.eqb (MP_MarkPx markPrice) "") eqn:E; simpl; [done|].
    unfold fuseOne. by rewrite Hm, E.
  - rewrite <- (list_fmap_id instruments) at 2. apply list_fmap_ext.
    intros _ inst _. unfold fuseOne. by rewrite lookup_empty.
  - intros Hempty. rewrite <- (list_fmap_id instruments) at 2.
    apply list_fmap_ext. intros k inst Hk. unfold fuseOne.
    destruct (markPrices !! InstID inst) as [markPrice|] eqn:Hm; [|done].
    rewrite (Hempty inst markPrice); [done | | done].
    by apply list_elem_of_lookup_2 in Hk.
Qed.

(** The pair of the fused instruments. *)
Definition fusePair (marginMarkPrices swapMarkPrices : gmap string MarkPrice)
    (pair : MatchingSymbol) : MatchingSymbol :=
  {| MS_BaseSymbol := MS_BaseSymbol pair;
     MS_Margin := fuseOne marginMarkPrices (MS_Margin pair);
     MS_Swap := fuseOne swapMarkPrices (MS_Swap pair) |}.

Lemma lastWithKey_fmap (f : Instrument -> Instrument) k instruments :
  (forall inst, keyOf (f inst) = keyOf inst) ->
  lastWithKey k (f <$> instruments) = f <$> lastWithKey k instruments.
Proof.
  intros Hkey. unfold lastWithKey. rewrite <- fmap_last. f_equal.
  induction instruments as [|inst l IH]; [done|].
  rewrite fmap_cons, !filter_cons, Hkey, IH.
  by destruct (decide (keyOf inst = k)).
Qed.

Section matching.
Context {ranger : MapRange}.

(** X5. Matching commutes with fusing: the pairs found among the fused
    lists are the pairs found among the raw lists with both instruments
    fused, so the snapshot decides no match and only sets prices. The order
    of either list is the order of a range over a map. *)
Theorem FindMatchingSymbols_FuseData
    marginInstruments swapInstruments marginMarkPrices swapMarkPrices :
  FindMatchingSymbols (FuseData marginInstruments marginMarkPrices)
                      (FuseData swapInstruments swapMarkPrices)
  ≡ₚ fusePair marginMarkPrices swapMarkPrices
       <$> FindMatchingSymbols marginInstruments swapInstruments.
Proof.
  rewrite !FuseData_fmap. apply NoDup_Permutation.
  - eapply NoDup_fmap_1, NoDup_FindMatchingSymbols.
  - apply (NoDup_fmap_1 MS_BaseSymbol). rewrite <- list_fmap_compose.
    apply (NoDup_FindMatchingSymbols marginInstruments swapInstruments).
  - intros pair. rewrite elem_of_FindMatchingSymbols, list_elem_of_fmap.
    rewrite !lastWithKey_fmap by apply keyOf_fuseOne. split.
    + intros [Hm Hs].
      destruct (lastWithKey _ marginInstruments) as [mi|] eqn:Hmi; [|done].
      destruct (lastWithKey _ swapInstruments) as [si|] eqn:Hsi; [|done].
      exists {| MS_BaseSymbol := MS_BaseSymbol pair;
                MS_Margin := mi; MS_Swap := si |}.
      split; [|by apply elem_of_FindMatchingSymbols].
      injection Hm as Hm. injection Hs as Hs. destruct pair; simpl in *.
      unfold fusePair; simpl. by rewrite Hm, Hs.
    + intros (raw & -> & [Hm Hs]%elem_of_FindMatchingSymbols). simpl.
      by rewrite Hm, Hs.
Qed.

End matching.
End PriceFuser.

(** ** Fetching from the exchange (internal/okxapi.go) *)

(** The envelope of every answer of the exchange ([OKXInstrumentResponse],
    [OKXMarkPriceResponse], [OKXInterestRateResponse], [okxFeeResponse] and
    the anonymous struct of [FetchOrderBook] have these three members). *)
Record Response (A : Type) := {
  Code : string;
  Msg : string;
  Data : list A
}.
Arguments Code {A} _.
Arguments Msg {A} _.
Arguments Data {A} _.

Record InterestRate := {
  Ccy : string;
  IR_InterestRate : float
}.

(** An element of [data] in the answer to an order-book request: the levels
    come as arrays of strings. *)
Record RawOrderBook := {
  Raw_InstID : string;
  Raw_Bids : list (list string);
  Raw_Asks : list (list string);
  Raw_TS : string
}.

(** An element of [data] in the answer to a funding-rate request, and what
    [FetchFundingInfo] makes of it. *)
Record RawFunding := {
  RF_InstID : string;
  RF_FundingRate : string;
  RF_NextFundingTime : string
}.

Record FundingInfo := {
  FI_InstID : string;
  FundingRate : float;
  NextFundingTime : Z
}.

(** The two requests, as far as the functions below depend on them: the body
    the exchange answers a URL with ([HTTPClient.MakeRequest]), or a method,
    path and query with ([HTTPClient.MakeSignedRequest]), or the error of a
    request that failed or was not answered with status 200. *)
Class Transport := {
  MakeRequest : string -> result string;
  MakeSignedRequest : string -> string -> string -> result string
}.

(** [json.Unmarshal(body, &response)] for each type of response. *)
Class ResponseDecoder := {
  decodeInstruments : string -> result (Response Instrument);
  decodeMarkPrices : string -> result (Response MarkPrice);
  decodeFees : string -> result (Response string);
  decodeInterestRates : string -> result (Response InterestRate);
  decodeOrderBooks : string -> result (Response RawOrderBook);
  decodeFunding : string -> result (Response RawFunding)
}.

(** [strconv.Atoi] and [strconv.ParseInt s 10 64]: [None] stands for a
    non-nil error. *)
Class Atoi := strconv_Atoi : string -> option Z.

Class ParseInt64 := strconv_ParseInt : string -> option Z.

(** The number [strconv.ParseFloat] returns beside its error, which
    [FetchFeeInfo] keeps without looking at the error. *)
Class ParseFloat64Value := strconv_ParseFloat_value : string -> float.

Module OkxApi.
Section api.

Local Open Scope string_scope.
Local Open Scope list_scope.
Local Open Scope float_scope.

Context {transport : Transport} {decoder : ResponseDecoder}
        {parse : ParseFloat64} {parseValue : ParseFloat64Value} {atoi : Atoi}
        {parseInt : ParseInt64}.

(** [fmt.Errorf("API error: %s - %s", code, msg)]. *)
Definition apiError {A} (response : Response A) : string :=
  String.append "API error: "
    (String.append (Code response) (String.append " - " (Msg response))).

Definition FetchMarkPrices (instType : string) : result (gmap string MarkPrice) :=
  let url :=
    String.append "https://www.okx.com/api/v5/public/mark-price?instType="
                  instType in
  match MakeRequest url with
  | Err err => Err (String.append "mark price request failed: " err)
  | Ok body =>
  match decodeMarkPrices body with
  | Err err =>
      Err (String.append "failed to unmarshal mark price response: " err)
  | Ok response =>
  if negb (String.eqb (Code response) "0") then Err (apiError response)
  else
    Ok (foldl (fun markPriceMap item =>
                 if negb (String.eqb (MP_InstID item) "")
                 then <[MP_InstID item := item]> markPriceMap
                 else markPriceMap)
              ∅ (Data response))
  end end.

Definition FetchInstruments (instType quoteCcy : string)
  : result (list Instrument) :=
  let url :=
    String.append "https://www.okx.com/api/v5/public/instruments?instType="
                  instType in
  match MakeRequest url with
  | Err err => Err (String.append "instruments request failed: " err)
  | Ok body =>
  match decodeInstruments body with
  | Err err =>
      Err (String.append "failed to unmarshal instruments response: " err)
  | Ok response =>
  if negb (String.eqb (Code response) "0") then Err (apiError response)
  else
    Ok (collect (fun inst =>
          if negb (String.eqb (State inst) "live") then None
          else if negb (String.eqb quoteCcy "")
                  && negb (String.eqb (QuoteCcy inst) quoteCcy) then None
          else Some inst)
        (Data response))
  end end.

(** The errors of the two parsers are wrapped into the message; their text
    is not modelled. *)
Definition FetchFundingInfo (instID : string) : result FundingInfo :=
  let url :=
    String.append "https://www.okx.com/api/v5/public/funding-rate?instId="
                  instID in
  match MakeRequest url with
  | Err err => Err (String.append "funding rate request failed: " err)
  | Ok body =>
  match decodeFunding body with
  | Err err => Err (String.append "failed to unmarshal funding response: " err)
  | Ok resp =>
  if negb (String.eqb (Code resp) "0") then Err (apiError resp)
  else
    match Data resp with
    | [] => Err (apiError resp)
    | data :: _ =>
        match strconv_ParseFloat (RF_FundingRate data) with
        | None => Err "failed to parse fundingRate"
        | Some fundingRate =>
            match strconv_ParseInt (RF_NextFundingTime data) with
            | None => Err "failed to parse nextFundingTime"
            | Some nextFundingTime =>
                Ok {| FI_InstID := RF_InstID data;
                      FundingRate := fundingRate;
                      NextFundingTime := nextFundingTime |}
            end
        end
    end
  end end.

(** The taker fee one of the two requests of [FetchFeeInfo] leaves in the
    field, which holds [fee] before. *)
Definition fetchTaker (url : string) (fee : float) : float :=
  match MakeRequest url with
  | Err _ => fee
  | Ok body =>
      match decodeFees body with
      | Ok resp =>
          if String.eqb (Code resp) "0" then
            match Data resp with
            | taker :: _ => strconv_ParseFloat_value taker
            | [] => fee
            end
          else fee
      | Err _ => fee
      end
  end.

Definition FetchFeeInfo : result FeeInfo :=
  let spotTaker :=
    fetchTaker "https://www.okx.com/api/v5/account/trade-fee?instType=SPOT" 0 in
  let spotTaker := if spotTaker =? 0 then 0.001 else spotTaker in
  let swapTaker :=
    fetchTaker "https://www.okx.com/api/v5/account/trade-fee?instType=SWAP" 0 in
  let swapTaker := if swapTaker =? 0 then 0.0005 else swapTaker in
  Ok {| SpotTaker := spotTaker; SwapTaker := swapTaker; MarginBorrow := 0.0002 |}.

Definition FetchInterestRates : result (gmap string float) :=
  let path := "/api/v5/account/interest-rate" in
  match MakeSignedRequest "GET" path "" with
  | Err err => Err (String.append "interest rate request failed: " err)
  | Ok body =>
  match decodeInterestRates body with
  | Err err =>
      Err (String.append "failed to unmarshal interest rate response: " err)
  | Ok resp =>
  if negb (String.eqb (Code resp) "0") then Err (apiError resp)
  else
    Ok (foldl (fun rates ir => <[Ccy ir := IR_InterestRate ir]> rates)
              ∅ (Data resp))
  end end.

(** One turn of the loop of [parseOrderBookLevels]: the level appended for a
    row, or [None] where the loop continues with the next row. *)
Definition parseLevel (level : list string) : option OrderBookLevel :=
  match level with
  | level0 :: level1 :: rest =>
      match strconv_ParseFloat level0 with
      | None => None
      | Some price =>
          match strconv_ParseFloat level1 with
          | None => None
          | Some size =>
              let orders :=
                match rest with
                | level2 :: _ =>
                    match strconv_Atoi level2 with
                    | Some ordersInt => ordersInt
                    | None => 1%Z
                    end
                | [] => 1%Z
                end in
              Some {| Price := price; Size := size; Orders := orders |}
          end
      end
  | _ => None
  end.

Definition parseOrderBookLevels (rawData : list (list string))
  : result (list OrderBookLevel) :=
  Ok (collect parseLevel rawData).

Definition FetchOrderBook (instID : string) (depth : Z) : result OrderBook :=
  let url :=
    String.append "https://www.okx.com/api/v5/market/books?instId="
      (String.append instID (String.append "&sz=" (pretty depth))) in
  match MakeRequest url with
  | Err err => Err (String.append "order book request failed: " err)
  | Ok body =>
  match decodeOrderBooks body with
  | Err err =>
      Err (String.append "failed to unmarshal order book response: " err)
  | Ok rawResponse =>
  if negb (String.eqb (Code rawResponse) "0") then Err (apiError rawResponse)
  else
    match Data rawResponse with
    | [] => Err "no order book data received"
    | rawData :: _ =>
        match parseOrderBookLevels (Raw_Bids rawData) with
        | Err err => Err (String.append "failed to parse bids: " err)
        | Ok bids =>
            match parseOrderBookLevels (Raw_Asks rawData) with
            | Err err => Err (String.append "failed to parse asks: " err)
            | Ok asks =>
                Ok {| OB_InstID := Raw_InstID rawData;
                      Bids := bids;
                      Asks := asks;
                      OB_TS := Raw_TS rawData |}
            end
        end
    end
  end end.

End api.
End OkxApi.

(** ** What is fetched *)

Module Fetching.

Import OkxApi PriceFuser.
Local Open Scope string_scope.
Local Open Scope list_scope.

(** A map filled by a loop of conditional assignments holds, under each key,
    the value of the last element that was assigned under it. *)
Lemma foldl_insert_last {A V} (key : A -> string) (val : A -> V)
    (keep : A -> bool) (l : list A) (m : gmap string V) k :
  foldl (fun m x => if keep x then <[key x := val x]> m else m) m l !! k
  = match last (filter (fun x => keep x = true /\ key x = k) l) with
    | Some x => Some (val x)
    | None => m !! k
    end.
Proof.
  revert m. induction l as [|x l IH]; intros m; simpl; [done|].
  rewrite IH, filter_cons. destruct (keep x) eqn:Hkeep.
  - destruct (decide (key x = k)) as [Hk|Hk].
    + rewrite decide_True by done.
      destruct (filter _ l) as [|y ys] eqn:Hf; simpl.
      * by rewrite <- Hk, lookup_insert_eq.
      * by destruct (last (y :: ys)) eqn:Hl; [|apply last_None in Hl].
    + rewrite decide_False by tauto.
      destruct (last (filter _ l)); [done|]. by rewrite lookup_insert_ne.
  - rewrite decide_False; [done|]. intros [? _]. done.
Qed.

Lemma foldl_insert_all_last {A V} (key : A -> string) (val : A -> V)
    (l : list A) (m : gmap string V) k :
  foldl (fun m x => <[key x := val x]> m) m l !! k
  = match last (filter (fun x => key x = k) l) with
    | Some x => Some (val x)
    | None => m !! k
    end.
Proof.
  revert m. induction l as [|x l IH]; intros m; simpl; [done|].
  rewrite IH, filter_cons. destruct (decide (key x = k)) as [Hk|Hk].
  - destruct (filter _ l) as [|y ys] eqn:Hf; simpl.
    + by rewrite <- Hk, lookup_insert_eq.
    + by destruct (last (y :: ys)) eqn:Hl; [|apply last_None in Hl].
  - destruct (last (filter _ l)); [done|]. by rewrite lookup_insert_ne.
Qed.

(** A loop that appends at most one element per turn. *)
Lemma omap_length_le {A B} (f : A -> option B) (l : list A) :
  (length (omap f l) <= length l)%nat.
Proof.
  induction l as [|x l IH]; [done|]. cbn. destruct (f x); simpl; lia.
Qed.

Section fetching.

Context {transport : Transport} {decoder : ResponseDecoder}
        {parse : ParseFloat64} {parseValue : ParseFloat64Value} {atoi : Atoi}.

Definition markPriceURL (instType : string) : string :=
  String.append "https://www.okx.com/api/v5/public/mark-price?instType=" instType.

Definition instrumentsURL (instType : string) : string :=
  String.append "https://www.okx.com/api/v5/public/instruments?instType=" instType.

(** Fetched without error: the request was answered, the body decoded, and
    the answer carries the code ["0"]. *)
Lemma FetchMarkPrices_Ok instType markPrices :
  FetchMarkPrices instType = Ok markPrices ->
  exists body response,
    MakeRequest (markPriceURL instType) = Ok body
    /\ decodeMarkPrices body = Ok response
    /\ Code response = "0"
    /\ markPrices
       = foldl (fun markPriceMap item =>
                  if negb (String.eqb (MP_InstID item) "")
                  then <[MP_InstID item := item]> markPriceMap
                  else markPriceMap) ∅ (Data response).
Proof.
  unfold FetchMarkPrices, markPriceURL.
  destruct (MakeRequest _) as [body|] eqn:Hreq; [|done].
  destruct (decodeMarkPrices body) as [response|] eqn:Hdec; [|done].
  destruct (String.eqb (Code response) "0") eqn:Hcode; [|done]. simpl.
  intros [= <-]. apply String.eqb_eq in Hcode. by exists body, response.
Qed.

(** The last item of the answer that carries the identifier [instID]. *)
Definition lastPriced (instID : string) (items : list MarkPrice)
  : option MarkPrice :=
  last (filter (fun item => MP_InstID item = instID) items).

Lemma filter_keep_instID instID (items : list MarkPrice) :
  instID <> "" ->
  filter (fun item => negb (String.eqb (MP_InstID item) "") = true
                      /\ MP_InstID item = instID) items
  = filter (fun item => MP_InstID item = instID) items.
Proof.
  intros Hid. apply list_filter_iff. intros item. split; [tauto|].
  intros ->. split; [|done]. apply negb_true_iff. by apply String.eqb_neq.
Qed.

Lemma filter_keep_empty (items : list MarkPrice) :
  filter (fun item => negb (String.eqb (MP_InstID item) "") = true
                      /\ MP_InstID item = "") items = [].
Proof.
  induction items as [|item l IH]; [done|].
  rewrite filter_cons, IH, decide_False; [done|].
  intros [H1 H2]. rewrite H2 in H1. done.
Qed.

(** X6. The snapshot [FetchMarkPrices] returns has no entry under the empty
    identifier, and under every other identifier the last item of the answer
    that carries it, the earlier ones being overwritten; identifiers the
    answer does not mention have no entry. *)
Theorem FetchMarkPrices_last_item_per_InstID instType markPrices :
  FetchMarkPrices instType = Ok markPrices ->
  exists body response,
    MakeRequest (markPriceURL instType) = Ok body
    /\ decodeMarkPrices body = Ok response
    /\ Code response = "0"
    /\ markPrices !! "" = None
    /\ forall instID, instID <> "" ->
         markPrices !! instID = lastPriced instID (Data response).
Proof.
  intros (body & response & Hreq & Hdec & Hcode & ->)%FetchMarkPrices_Ok.
  exists body, response. split_and!; try done.
  - rewrite (foldl_insert_last MP_InstID id
               (fun item => negb (String.eqb (MP_InstID item) ""))).
    by rewrite filter_keep_empty.
  - intros instID Hid.
    rewrite (foldl_insert_last MP_InstID id
               (fun item => negb (String.eqb (MP_InstID item) ""))).
    rewrite filter_keep_instID by done. unfold lastPriced.
    by destruct (last _).
Qed.

(** X7. Fusing with a fetched snapshot, as the program does: each
    instrument takes the price of the last item of the answer that carries
    its identifier, when the identifier and that price are not empty, and
    keeps its own price otherwise. An earlier item of the same identifier
    never counts, not even when the last one has no price. *)
Theorem FuseData_fetched_prices instType markPrices instruments :
  FetchMarkPrices instType = Ok markPrices ->
  exists body response,
    MakeRequest (markPriceURL instType) = Ok body
    /\ decodeMarkPrices body = Ok response
    /\ FuseData instruments markPrices
       = (fun inst =>
            match lastPriced (InstID inst) (Data response) with
            | Some item =>
                if decide (InstID inst <> "" /\ MP_MarkPx item <> "")
                then withMarkPx inst (MP_MarkPx item)
                else inst
            | None => inst
            end) <$> instruments.
Proof.
  intros (body & response & Hreq & Hdec & Hcode & ->)%FetchMarkPrices_Ok.
  exists body, response. split_and!; try done.
  rewrite FuseData_fmap. apply list_fmap_ext. intros _ inst _.
  unfold fuseOne.
  rewrite (foldl_insert_last MP_InstID id
             (fun item => negb (String.eqb (MP_InstID item) ""))).
  destruct (decide (InstID inst = "")) as [Hid|Hid].
  - assert (filter (fun item => negb (String.eqb (MP_InstID item) "") = true
                                 /\ MP_InstID item = InstID inst) (Data response)
            = []) as -> by (rewrite Hid; apply filter_keep_empty).
    simpl. destruct (lastPriced _ _); [|done].
    rewrite decide_False; [done|]. tauto.
  - rewrite filter_keep_instID by done. fold (lastPriced (InstID inst) (Data response)).
    destruct (lastPriced _ _) as [item|]; [|done]. simpl.
    destruct (String.eqb (MP_MarkPx item) "") eqn:E; simpl.
    + apply String.eqb_eq in E. rewrite decide_False; [done|]. tauto.
    + apply String.eqb_neq in E. by rewrite decide_True.
Qed.

(** X8. The instruments [FetchInstruments] returns are the instruments of
    the answer that are live and, when a quote currency is asked for, quoted
    in it, in the order of the answer; an empty [quoteCcy] keeps every live
    instrument. *)
Theorem FetchInstruments_live_and_quoted instType quoteCcy instruments :
  FetchInstruments instType quoteCcy = Ok instruments ->
  exists body response,
    MakeRequest (instrumentsURL instType) = Ok body
    /\ decodeInstruments body = Ok response
    /\ Code response = "0"
    /\ instruments
       = filter (fun inst =>
                   State inst = "live"
                   /\ (quoteCcy = "" \/ QuoteCcy inst = quoteCcy))
                (Data response).
Proof.
  unfold FetchInstruments, instrumentsURL.
  destruct (MakeRequest _) as [body|] eqn:Hreq; [|done].
  destruct (decodeInstruments body) as [response|] eqn:Hdec; [|done].
  destruct (String.eqb (Code response) "0") eqn:Hcode; [|done]. simpl.
  intros [= <-]. apply String.eqb_eq in Hcode.
  exists body, response. split_and!; try done.
  rewrite collect_omap. induction (Data response) as [|inst l IH]; [done|].
  rewrite filter_cons. cbn. rewrite IH.
  destruct (String.eqb (State inst) "live") eqn:Hlive; simpl.
  - apply String.eqb_eq in Hlive.
    destruct (String.eqb quoteCcy "") eqn:Hq; simpl.
    + apply String.eqb_eq in Hq. rewrite decide_True; [done|]. tauto.
    + apply String.eqb_neq in Hq.
      destruct (String.eqb (QuoteCcy inst) quoteCcy) eqn:Hi; simpl.
      * apply String.eqb_eq in Hi. rewrite decide_True; [done|]. tauto.
      * apply String.eqb_neq in Hi. rewrite decide_False; [done|]. tauto.
  - apply String.eqb_neq in Hlive. rewrite decide_False; [done|]. tauto.
Qed.

End fetching.
End Fetching.

(** ** Fees, rates and order books as fetched *)

Module Schedule.

Import OkxApi Fetching Float64 Float64Facts.
Local Open Scope string_scope.
Local Open Scope list_scope.
Local Open Scope float_scope.

Section schedule.

Context {transport : Transport} {decoder : ResponseDecoder}
        {parse : ParseFloat64} {parseValue : ParseFloat64Value} {atoi : Atoi}.

Definition spotFeeURL : string :=
  "https://www.okx.com/api/v5/account/trade-fee?instType=SPOT".

Definition swapFeeURL : string :=
  "https://www.okx.com/api/v5/account/trade-fee?instType=SWAP".

Lemma fallback_not_zero (taker fallback : float) :
  (fallback =? 0) = false ->
  ((if taker =? 0 then fallback else taker) =? 0) = false.
Proof. intros Hf. by destruct (taker =? 0) eqn:E. Qed.

(** X9. [FetchFeeInfo] has no failing path and never returns a taker fee
    equal to zero: whatever the exchange answers, it returns a schedule whose
    two taker fees compare different from zero and whose borrow rate is the
    constant 0.0002; a request that fails leaves the default of its fee,
    0.001 for spot and 0.0005 for swap. *)
Theorem FetchFeeInfo_never_fails_nor_zero :
  exists fee,
    FetchFeeInfo = Ok fee
    /\ (SpotTaker fee =? 0) = false
    /\ (SwapTaker fee =? 0) = false
    /\ MarginBorrow fee = 0.0002
    /\ (forall err, MakeRequest spotFeeURL = Err err -> SpotTaker fee = 0.001)
    /\ (forall err, MakeRequest swapFeeURL = Err err -> SwapTaker fee = 0.0005).
Proof.
  eexists. split; [reflexivity|]. cbn [SpotTaker SwapTaker MarginBorrow].
  split_and!.
  - by apply fallback_not_zero.
  - by apply fallback_not_zero.
  - done.
  - intros err Herr. unfold fetchTaker. fold spotFeeURL. by rewrite Herr.
  - intros err Herr. unfold fetchTaker. fold swapFeeURL. by rewrite Herr.
Qed.

(** X10. The borrow rates [FetchInterestRates] returns hold, under each
    currency, the rate of the last item of the answer for that currency, and
    nothing under a currency the answer does not list; so the borrow part of
    a backwardation fee estimated with them is that last rate when it is
    strictly positive, and the schedule's [MarginBorrow] otherwise. *)
Theorem FetchInterestRates_last_rate_per_currency rates :
  FetchInterestRates = Ok rates ->
  exists body resp,
    MakeSignedRequest "GET" "/api/v5/account/interest-rate" "" = Ok body
    /\ decodeInterestRates body = Ok resp
    /\ Code resp = "0"
    /\ (forall ccy,
          rates !! ccy
          = IR_InterestRate <$> last (filter (fun ir => Ccy ir = ccy) (Data resp)))
    /\ (forall diff fees,
          DR_TermStructure diff = "Backwardation" ->
          EstimateFees diff fees rates
          = SpotTaker fees * 2 + SwapTaker fees * 2
            + match last (filter (fun ir => Ccy ir = DR_BaseSymbol diff)
                                 (Data resp)) with
              | Some ir =>
                  if 0 <? IR_InterestRate ir then IR_InterestRate ir
                  else MarginBorrow fees
              | None => MarginBorrow fees
              end).
Proof.
  unfold FetchInterestRates.
  destruct (MakeSignedRequest _ _ _) as [body|] eqn:Hreq; [|done].
  destruct (decodeInterestRates body) as [resp|] eqn:Hdec; [|done].
  destruct (String.eqb (Code resp) "0") eqn:Hcode; [|done]. simpl.
  intros [= <-]. apply String.eqb_eq in Hcode.
  exists body, resp. split_and!; try done.
  - intros ccy. rewrite foldl_insert_all_last, lookup_empty.
    by destruct (last _).
  - intros diff fees Hback. unfold EstimateFees. rewrite Hback. simpl.
    rewrite mul_one_r. f_equal.
    rewrite foldl_insert_all_last, lookup_empty.
    by destruct (last _).
Qed.

(** The order count of a row: its third field when there is one and it is
    an integer, one otherwise. *)
Definition ordersOf (rest : list string) : Z :=
  default 1%Z (head rest ≫= strconv_Atoi).

Lemma parseLevel_Some row l :
  parseLevel row = Some l
  <-> exists level0 level1 rest,
        row = level0 :: level1 :: rest
        /\ strconv_ParseFloat level0 = Some (Price l)
        /\ strconv_ParseFloat level1 = Some (Size l)
        /\ Orders l = ordersOf rest.
Proof.
  unfold parseLevel, ordersOf. split.
  - destruct row as [|level0 [|level1 rest]]; simpl; [done..|].
    destruct (strconv_ParseFloat level0) as [price|] eqn:Hprice; [|done].
    destruct (strconv_ParseFloat level1) as [size|] eqn:Hsize; [|done].
    intros [= <-]. exists level0, level1, rest. split_and!; try done.
    simpl. destruct rest as [|level2 ?]; [done|]. simpl.
    by destruct (strconv_Atoi level2).
  - intros (level0 & level1 & rest & -> & -> & -> & Ho).
    destruct l as [p s o]. simpl in *. subst o. do 2 f_equal.
    destruct rest as [|level2 ?]; [done|]. simpl.
    by destruct (strconv_Atoi level2).
Qed.

(** X11. [parseOrderBookLevels] never returns an error: a row that is too
    short, or whose price or size does not parse, is skipped. The levels
    returned are, in the order of the rows, those of the rows with at least
    two fields of which the first two parse as numbers; the order count is
    the third field when it is an integer and 1 otherwise (a row is not
    skipped for its third field). So there are at most as many levels as
    rows, and the levels of two lists of rows put end to end are the levels
    of the first followed by those of the second. *)
Theorem parseOrderBookLevels_skips_bad_rows rawData :
  exists levels,
    parseOrderBookLevels rawData = Ok levels
    /\ (length levels <= length rawData)%nat
    /\ (forall l,
          l ∈ levels
          <-> exists level0 level1 rest,
                (level0 :: level1 :: rest) ∈ rawData
                /\ strconv_ParseFloat level0 = Some (Price l)
                /\ strconv_ParseFloat level1 = Some (Size l)
                /\ Orders l = ordersOf rest)
    /\ (forall before after,
          rawData = before ++ after ->
          exists levelsBefore levelsAfter,
            parseOrderBookLevels before = Ok levelsBefore
            /\ parseOrderBookLevels after = Ok levelsAfter
            /\ levels = levelsBefore ++ levelsAfter).
Proof.
  unfold parseOrderBookLevels. eexists. split; [reflexivity|].
  rewrite collect_omap. split_and!.
  - apply omap_length_le.
  - intros l. rewrite list_elem_of_omap. split.
    + intros (row & Hin & (l0 & l1 & rest & -> & H)%parseLevel_Some). eauto.
    + intros (l0 & l1 & rest & Hin & H). eexists. split; [exact Hin|].
      apply parseLevel_Some. eauto 10.
  - intros before after ->. do 2 eexists. split_and!; try reflexivity.
    rewrite !collect_omap. apply omap_app.
Qed.

Definition orderBookURL (instID : string) (depth : Z) : string :=
  String.append "https://www.okx.com/api/v5/market/books?instId="
    (String.append instID (String.append "&sz=" (pretty depth))).

(** X12. [FetchOrderBook] fails in four ways only: the request fails, the
    body does not decode, the answer carries a code other than ["0"], or it
    has no data; its two errors about levels that do not parse never occur.
    A book that is returned describes the first element of the data,
    whatever instrument was asked for, and each of its sides holds the rows
    of that element that parse, so never more levels than rows. *)
Theorem FetchOrderBook_outcomes instID depth :
  match OkxApi.FetchOrderBook instID depth with
  | Ok orderBook =>
      exists body rawResponse rawData others,
        MakeRequest (orderBookURL instID depth) = Ok body
        /\ decodeOrderBooks body = Ok rawResponse
        /\ Code rawResponse = "0"
        /\ Data rawResponse = rawData :: others
        /\ OB_InstID orderBook = Raw_InstID rawData
        /\ OB_TS orderBook = Raw_TS rawData
        /\ parseOrderBookLevels (Raw_Bids rawData) = Ok (Bids orderBook)
        /\ parseOrderBookLevels (Raw_Asks rawData) = Ok (Asks orderBook)
        /\ (length (Bids orderBook) <= length (Raw_Bids rawData))%nat
        /\ (length (Asks orderBook) <= length (Raw_Asks rawData))%nat
  | Err msg =>
      (exists err,
         MakeRequest (orderBookURL instID depth) = Err err
         /\ msg = String.append "order book request failed: " err)
      \/ (exists body,
            MakeRequest (orderBookURL instID depth) = Ok body
            /\ ((exists err,
                   decodeOrderBooks body = Err err
                   /\ msg = String.append
                              "failed to unmarshal order book response: " err)
                \/ (exists rawResponse,
                      decodeOrderBooks body = Ok rawResponse
                      /\ ((Code rawResponse <> "0"
                           /\ msg = apiError rawResponse)
                          \/ (Code rawResponse = "0"
                              /\ Data rawResponse = []
                              /\ msg = "no order book data received")))))
  end.
Proof.
  unfold OkxApi.FetchOrderBook. fold (orderBookURL instID depth).
  destruct (MakeRequest _) as [body|err] eqn:Hreq; [|left; eauto].
  destruct (decodeOrderBooks body) as [rawResponse|err] eqn:Hdec;
    [|right; exists body; eauto].
  destruct (String.eqb (Code rawResponse) "0") eqn:Hcode; simpl.
  2:{ apply String.eqb_neq in Hcode. right. exists body. split; [done|].
      right. exists rawResponse. eauto. }
  apply String.eqb_eq in Hcode.
  destruct (Data rawResponse) as [|rawData others] eqn:Hdata.
  { right. exists body. split; [done|]. right. exists rawResponse.
    split; [done|]. right. done. }
  unfold parseOrderBookLevels. simpl.
  exists body, rawResponse, rawData, others. split_and!; try done.
  - rewrite collect_omap. apply omap_length_le.
  - rewrite collect_omap. apply omap_length_le.
Qed.

Definition fundingURL (instID : string) : string :=
  String.append "https://www.okx.com/api/v5/public/funding-rate?instId=" instID.

(** X13. What [FetchFundingInfo] returns is read from the first element of
    the answer alone: its identifier (whatever instrument was asked for),
    its funding rate and its next funding time, both of which parse. So the
    call fails when the first element does not parse, whatever follows it,
    and when the answer has no element or a code other than ["0"]. *)
Theorem FetchFundingInfo_first_element {parseInt : ParseInt64} instID funding :
  FetchFundingInfo instID = Ok funding ->
  exists body resp data others,
    MakeRequest (fundingURL instID) = Ok body
    /\ decodeFunding body = Ok resp
    /\ Code resp = "0"
    /\ Data resp = data :: others
    /\ FI_InstID funding = RF_InstID data
    /\ strconv_ParseFloat (RF_FundingRate data) = Some (FundingRate funding)
    /\ strconv_ParseInt (RF_NextFundingTime data)
       = Some (NextFundingTime funding).
Proof.
  unfold FetchFundingInfo. fold (fundingURL instID).
  destruct (MakeRequest _) as [body|] eqn:Hreq; [|done].
  destruct (decodeFunding body) as [resp|] eqn:Hdec; [|done].
  destruct (String.eqb (Code resp) "0") eqn:Hcode; [|done]. simpl.
  apply String.eqb_eq in Hcode.
  destruct (Data resp) as [|data others] eqn:Hdata; [done|].
  destruct (strconv_ParseFloat _) as [fundingRate|] eqn:Hrate; [|done].
  destruct (strconv_ParseInt _) as [nextFundingTime|] eqn:Htime; [|done].
  intros [= <-]. by exists body, resp, data, others.
Qed.

End schedule.
End Schedule.

(** ** More about keys and matches *)

Module Keys.

Import SymbolMatcher.
Local Open Scope string_scope.
Local Open Scope list_scope.

(** The first piece of a split has no separator, and the string is that
    piece alone or that piece, a separator and the rest. *)
Lemma strings_Split_head s sep p ps :
  strings_Split s sep = p :: ps ->
  has_byte sep p = false
  /\ match ps with
     | [] => s = p
     | _ :: _ => exists rest, s = String.append p (String sep rest)
     end.
Proof.
  revert p ps. induction s as [|c s IH]; intros p ps; simpl.
  { by intros [= <- <-]. }
  destruct (Ascii.eqb c sep) eqn:Hc.
  - intros [= <- <-]. split; [done|].
    destruct (strings_Split_nonempty s sep) as (q & qs & ->).
    apply Ascii.eqb_eq in Hc as ->. by exists s.
  - destruct (strings_Split s sep) as [|q qs] eqn:Hs.
    { destruct (strings_Split_nonempty s sep) as (? & ? & ?). congruence. }
    intros [= <- <-]. destruct (IH q qs eq_refl) as [Hq Hrest].
    split; [simpl; by rewrite Hc|].
    destruct qs as [|q' qs]; [by subst|].
    destruct Hrest as [rest ->]. by exists rest.
Qed.

(** X14. The key [ExtractBaseSymbol] returns never contains the separator
    ['-']; it is the identifier itself exactly when the identifier has no
    separator, and otherwise the text before the first separator, so that
    the identifier is the key, a separator and a rest. Extracting the key of
    a key changes nothing. *)
Theorem ExtractBaseSymbol_text_before_first_dash (instID : string) :
  has_byte dash (ExtractBaseSymbol instID) = false
  /\ (ExtractBaseSymbol instID = instID <-> has_byte dash instID = false)
  /\ (has_byte dash instID = true ->
      exists rest,
        instID = String.append (ExtractBaseSymbol instID) (String dash rest))
  /\ ExtractBaseSymbol (ExtractBaseSymbol instID) = ExtractBaseSymbol instID.
Proof.
  assert (forall s, has_byte dash s = false -> ExtractBaseSymbol s = s) as Hplain.
  { intros s Hs. unfold ExtractBaseSymbol. by rewrite (strings_Split_no_sep _ _ Hs). }
  assert (has_byte dash (ExtractBaseSymbol instID) = false) as Hkey.
  { unfold ExtractBaseSymbol.
    destruct (strings_Split instID dash) as [|p [|q r]] eqn:Hs.
    - destruct (strings_Split_nonempty instID dash) as (? & ? & ?). congruence.
    - apply strings_Split_head in Hs as [Hp ->]. done.
    - by apply strings_Split_head in Hs as [Hp _]. }
  split_and!.
  - done.
  - split; [|apply Hplain]. intros Heq. by rewrite <- Heq.
  - intros Hdash. unfold ExtractBaseSymbol.
    destruct (strings_Split_sep _ _ Hdash) as (p & q & r & Hs). rewrite Hs.
    by apply strings_Split_head in Hs as [_ Hrest].
  - by apply Hplain.
Qed.

Section matching.
Context {ranger : MapRange}.

Lemma keys_of_matches marginInstruments swapInstruments k :
  k ∈ (MS_BaseSymbol <$> FindMatchingSymbols marginInstruments swapInstruments) ->
  k ∈ (keyOf <$> marginInstruments) /\ k ∈ (keyOf <$> swapInstruments).
Proof.
  intros (pair & -> & [Hm Hs]%elem_of_FindMatchingSymbols)%list_elem_of_fmap.
  apply lastWithKey_Some in Hm as [Hm Hkm].
  apply lastWithKey_Some in Hs as [Hs Hks].
  split; apply list_elem_of_fmap;
    [exists (MS_Margin pair) | exists (MS_Swap pair)]; done.
Qed.

(** X15. Matching treats the two venues alike: with the two lists exchanged
    it finds the same pairs with the two instruments exchanged (in the order
    of a range over the other lookup). It never finds more pairs than either
    list has instruments, and none when either list is empty. *)
Theorem FindMatchingSymbols_venues_exchanged marginInstruments swapInstruments :
  FindMatchingSymbols swapInstruments marginInstruments
    ≡ₚ DiffEngine.swapVenues
         <$> FindMatchingSymbols marginInstruments swapInstruments
  /\ (length (FindMatchingSymbols marginInstruments swapInstruments)
      <= length marginInstruments)%nat
  /\ (length (FindMatchingSymbols marginInstruments swapInstruments)
      <= length swapInstruments)%nat.
Proof.
  split_and!.
  - apply NoDup_Permutation.
    + eapply NoDup_fmap_1, NoDup_FindMatchingSymbols.
    + apply (NoDup_fmap_1 MS_BaseSymbol). rewrite <- list_fmap_compose.
      apply (NoDup_FindMatchingSymbols marginInstruments swapInstruments).
    + intros pair. rewrite elem_of_FindMatchingSymbols, list_elem_of_fmap.
      split.
      * intros [Hs Hm]. exists (DiffEngine.swapVenues pair).
        split; [by destruct pair|]. by apply elem_of_FindMatchingSymbols.
      * intros (raw & -> & [Hm Hs]%elem_of_FindMatchingSymbols). done.
  - rewrite <- (length_fmap MS_BaseSymbol), <- (length_fmap keyOf marginInstruments).
    apply submseteq_length, NoDup_submseteq; [apply NoDup_FindMatchingSymbols|].
    intros k Hk. by apply keys_of_matches in Hk as [? _].
  - rewrite <- (length_fmap MS_BaseSymbol), <- (length_fmap keyOf swapInstruments).
    apply submseteq_length, NoDup_submseteq; [apply NoDup_FindMatchingSymbols|].
    intros k Hk. by apply keys_of_matches in Hk as [_ ?].
Qed.

End matching.
End Keys.

(** ** More about the two rankings *)

Module Results.

Import Float64 Float64Facts OrderBookPricer DiffEngine ArbitrageEvaluator.
Local Open Scope string_scope.
Local Open Scope list_scope.
Local Open Scope float_scope.

(** A float minus itself is zero or no number, never positive. *)
Lemma sub_diag_not_positive x : (0 <? x - x) = false.
Proof.
  rewrite ltb_spec, sub_spec. change (Prim2SF 0) with (S754_zero false).
  destruct (Prim2SF x) as [s|s| |s m e] eqn:E.
  - by rewrite SFsub_diag.
  - by destruct s.
  - done.
  - by rewrite SFsub_diag.
Qed.

Section results.

Context {parse : ParseFloat64} {sorter : SortSlice} {client : OrderBookClient}.

Lemma markPxDiff_Some minDiff match_ d :
  markPxDiff minDiff match_ = Some d ->
  DR_BaseSymbol d = MS_BaseSymbol match_
  /\ ParseFloat (MarkPx (MS_Margin match_)) = Some (DR_MarginMarkPx d)
  /\ ParseFloat (MarkPx (MS_Swap match_)) = Some (DR_SwapMarkPx d)
  /\ (DR_MarginMarkPx d <=? 0) = false
  /\ (DR_SwapMarkPx d <=? 0) = false
  /\ DR_PercentDiff d = percentDiffOf (DR_MarginMarkPx d) (DR_SwapMarkPx d)
  /\ (DR_PercentDiff d <? minDiff) = false
  /\ DR_ActualDiff d = DR_SwapMarkPx d - DR_MarginMarkPx d
  /\ DR_IsContango d = gtb (DR_ActualDiff d) 0
  /\ DR_TermStructure d
     = (if DR_IsContango d then "Contango" else "Backwardation").
Proof.
  destruct (ParseFloat (MarkPx (MS_Margin match_))) as [a|] eqn:Ha;
    [|unfold markPxDiff; by rewrite Ha].
  destruct (ParseFloat (MarkPx (MS_Swap match_))) as [b|] eqn:Hb;
    [|unfold markPxDiff; by rewrite Ha, Hb].
  rewrite (markPxDiff_parsed minDiff match_ a b Ha Hb).
  destruct (a <=? 0) eqn:Hapos; [done|].
  destruct (b <=? 0) eqn:Hbpos; [done|]. simpl.
  destruct (percentDiffOf a b <? minDiff) eqn:Hmin; [done|].
  intros [= <-]. simpl. by split_and!.
Qed.

(** Cutting a list keeps elements of the list. *)
Lemma slice_to_elem_of {A} (xs ys : list A) n x :
  slice_to xs n = Returns ys -> x ∈ ys -> x ∈ xs.
Proof.
  unfold slice_to. destruct (n <? 0)%Z; [done|]. intros [= <-].
  apply (subseteq_take (Z.to_nat n) xs x).
Qed.

(** X16. Every result [CalculateTopMarkPxDiffs] returns comes from a pair
    it was given: it carries the pair's base symbol and the two mark prices
    as parsed, neither of which is zero or negative; its percentage follows
    the formula and is not below [minDiff]; its actual difference is swap
    minus margin; it is marked contango exactly when that difference is
    strictly positive, and backwardation otherwise. Two equal prices
    therefore count as backwardation. *)
Theorem CalculateTopMarkPxDiffs_results matches topN minDiff diffs d :
  CalculateTopMarkPxDiffs matches topN minDiff = Returns diffs ->
  d ∈ diffs ->
  (exists match_,
     match_ ∈ matches
     /\ DR_BaseSymbol d = MS_BaseSymbol match_
     /\ ParseFloat (MarkPx (MS_Margin match_)) = Some (DR_MarginMarkPx d)
     /\ ParseFloat (MarkPx (MS_Swap match_)) = Some (DR_SwapMarkPx d))
  /\ (DR_MarginMarkPx d <=? 0) = false
  /\ (DR_SwapMarkPx d <=? 0) = false
  /\ DR_PercentDiff d = percentDiffOf (DR_MarginMarkPx d) (DR_SwapMarkPx d)
  /\ (DR_PercentDiff d <? minDiff) = false
  /\ DR_ActualDiff d = DR_SwapMarkPx d - DR_MarginMarkPx d
  /\ DR_IsContango d = (0 <? DR_ActualDiff d)
  /\ DR_TermStructure d
     = (if DR_IsContango d then "Contango" else "Backwardation")
  /\ (DR_SwapMarkPx d = DR_MarginMarkPx d ->
      DR_TermStructure d = "Backwardation").
Proof.
  intros Hret Hd.
  assert (d ∈ omap (markPxDiff minDiff) matches) as Hin.
  { revert Hret. unfold CalculateTopMarkPxDiffs. rewrite collect_omap.
    set (sorted := sort_Slice _ _).
    assert (sorted ≡ₚ omap (markPxDiff minDiff) matches) as Hperm
      by apply sort_Slice_perm.
    destruct (_ <? _)%Z.
    - intros Hcut. rewrite <- Hperm. by apply (slice_to_elem_of _ _ _ _ Hcut).
    - intros [= <-]. by rewrite <- Hperm. }
  apply list_elem_of_omap in Hin as (match_ & Hmatch & Hdiff).
  apply markPxDiff_Some in Hdiff
    as (Hsym & Hm & Hs & Hmpos & Hspos & Hpct & Hmin & Hact & Hcon & Hterm).
  split_and!; try done.
  - by exists match_.
  - intros Heq. rewrite Hterm, Hcon, Hact, Heq. unfold gtb.
    by rewrite sub_diag_not_positive.
Qed.

Lemma realArbitrage_Some config match_ r :
  realArbitrage config match_ = Some r ->
  RA_BaseSymbol r = MS_BaseSymbol match_
  /\ RA_HasEnoughLiquidity r = true
  /\ gtb (RA_MarginSlippage r) (MaxSlippage config) = false
  /\ gtb (RA_SwapSlippage r) (MaxSlippage config) = false
  /\ RA_TermStructure r
     = (if RA_IsContango r then "Contango" else "Backwardation")
  /\ RA_ActualDiff r
     = (if RA_IsContango r then RA_SwapSellPrice r - RA_MarginBuyPrice r
        else RA_MarginSellPrice r - RA_SwapBuyPrice r)
  /\ RA_PercentDiff r
     = (if RA_IsContango r
        then percentOver (RA_SwapSellPrice r) (RA_MarginBuyPrice r)
        else percentOver (RA_MarginSellPrice r) (RA_SwapBuyPrice r)).
Proof.
  unfold realArbitrage.
  repeat (case_match; try discriminate);
    intros [= <-]; simpl;
    repeat match goal with
           | H : negb _ = false |- _ => apply negb_false_iff in H
           | H : _ || _ = false |- _ => apply orb_false_iff in H as [? ?]
           end;
    by split_and!.
Qed.

(** X17. Every result [CalculateRealArbitrageOpportunities] returns comes
    from a pair it was given and carries its base symbol; all four legs had
    enough liquidity, the two slippages it shows do not exceed the maximum,
    its percentage is strictly positive, and its term structure, actual
    difference and percentage are those of the direction it is marked with:
    swap sell against margin buy for contango, margin sell against swap buy
    for backwardation. *)
Theorem CalculateRealArbitrageOpportunities_results matches config r :
  r ∈ CalculateRealArbitrageOpportunities matches config ->
  (exists match_, match_ ∈ matches /\ RA_BaseSymbol r = MS_BaseSymbol match_)
  /\ RA_HasEnoughLiquidity r = true
  /\ (MaxSlippage config <? RA_MarginSlippage r) = false
  /\ (MaxSlippage config <? RA_SwapSlippage r) = false
  /\ (0 <? RA_PercentDiff r) = true
  /\ RA_TermStructure r
     = (if RA_IsContango r then "Contango" else "Backwardation")
  /\ RA_ActualDiff r
     = (if RA_IsContango r then RA_SwapSellPrice r - RA_MarginBuyPrice r
        else RA_MarginSellPrice r - RA_SwapBuyPrice r)
  /\ RA_PercentDiff r
     = (if RA_IsContango r
        then percentOver (RA_SwapSellPrice r) (RA_MarginBuyPrice r)
        else percentOver (RA_MarginSellPrice r) (RA_SwapBuyPrice r)).
Proof.
  unfold CalculateRealArbitrageOpportunities. rewrite collect_omap.
  rewrite sort_Slice_perm.
  intros (match_ & Hmatch & Hr)%list_elem_of_omap.
  pose proof (realArbitrage_positive _ _ _ Hr) as Hpos.
  apply realArbitrage_Some in Hr as (Hsym & Hliq & Hms & Hss & Hterm & Hact & Hpct).
  split_and!; try done. by exists match_.
Qed.

(** X18. [EstimateFees] reads two fields of the result it is given, the
    base symbol and the term structure: two results that agree on these are
    charged the same, which is what lets the order-book mode estimate the
    fees of a result from a [DiffResult] that carries nothing else. A term
    structure that is not the exact text [Backwardation] is charged without
    borrow cost, and then the symbol and the borrow rates do not matter
    either. *)
Theorem EstimateFees_reads_symbol_and_structure
    (diff diff' : DiffResult) (fees : FeeInfo)
    (borrowRates borrowRates' : gmap string float) :
  DR_TermStructure diff = DR_TermStructure diff' ->
  (DR_BaseSymbol diff = DR_BaseSymbol diff' ->
   EstimateFees diff fees borrowRates = EstimateFees diff' fees borrowRates)
  /\ (DR_TermStructure diff <> "Backwardation" ->
      EstimateFees diff fees borrowRates = EstimateFees diff' fees borrowRates'
      /\ EstimateFees diff fees borrowRates
         = SpotTaker fees * 2 + SwapTaker fees * 2).
Proof.
  intros Hterm. unfold EstimateFees. rewrite <- Hterm. split.
  - by intros <-.
  - intros Hnot.
    by destruct (String.eqb_spec (DR_TermStructure diff) "Backwardation").
Qed.

End results.
End Results.

(** ** The table without fees (internal/analyzer.go) *)

Record FundingRow := {
  FRow_diff : DiffResult;
  FRow_diffSign : string;
  FRow_funding : Funding
}.

Section FundingTable.

Local Open Scope string_scope.
Local Open Scope list_scope.
Local Open Scope float_scope.

(** The data rows [PrintTopMarkPxDiffsWithFunding] writes, each with the
    values its columns show and the sign put before the actual
    difference. *)
Definition PrintTopMarkPxDiffsWithFunding (diffs : list DiffResult)
    (fundingMap : gmap string Funding) (minDiff : float) : list FundingRow :=
  collect (fun d =>
    let funding := default noFunding (fundingMap !! DR_BaseSymbol d) in
    let diffSign := if DR_ActualDiff d <? 0 then "" else "+" in
    Some {| FRow_diff := d;
            FRow_diffSign := diffSign;
            FRow_funding := funding |}) diffs.

End FundingTable.

(** ** More about pricing against the book *)

Module Depth.

Import Float64 Float64Facts OrderBookPricer.
Local Open Scope string_scope.
Local Open Scope list_scope.
Local Open Scope float_scope.

(** X19. [CalculateWeightedPrice] fails exactly when the side is neither
    [buy] nor [sell] or the side of the book it would consume is empty.
    Otherwise the result repeats the book's instrument, the side and the
    size; its liquidity is the cost of the fills (not the depth of the
    book); when the request is covered the total cost equals that liquidity
    and the weighted price is the total cost over the size; when it is not,
    total cost, weighted price and slippage are zero and only the liquidity
    tells what could be filled. *)
Theorem CalculateWeightedPrice_outcomes orderBook side tradeSize :
  match CalculateWeightedPrice orderBook side tradeSize with
  | Err _ =>
      relevantSide orderBook side = None \/ relevantSide orderBook side = Some []
  | Ok r =>
      exists best rest,
        relevantSide orderBook side = Some (best :: rest)
        /\ WP_Symbol r = OB_InstID orderBook
        /\ WP_Side r = side
        /\ WP_TradeSize r = tradeSize
        /\ Liquidity r = fillCost (best :: rest) tradeSize
        /\ HasEnoughLiquidity r = negb (0 <? unfilled (best :: rest) tradeSize)
        /\ if HasEnoughLiquidity r
           then TotalCost r = Liquidity r
                /\ WeightedPrice r = TotalCost r / tradeSize
           else TotalCost r = 0 /\ WeightedPrice r = 0 /\ Slippage r = 0
  end.
Proof.
  destruct (relevantSide orderBook side) as [[|best rest]|] eqn:Hside.
  - destruct (proj2 (CalculateWeightedPrice_error orderBook side tradeSize))
      as [msg ->]; auto.
  - rewrite (CalculateWeightedPrice_relevantSide _ _ _ _ _ Hside).
    rewrite weighLevels_fills. exists best, rest. unfold gtb.
    by destruct (0 <? unfilled (best :: rest) tradeSize).
  - destruct (proj2 (CalculateWeightedPrice_error orderBook side tradeSize))
      as [msg ->]; auto.
Qed.

(** Once the request is met the walk stops: levels after that are not
    consumed. *)
Lemma fills_app_met levels deeper requested :
  (unfilled levels requested <=? 0) = true ->
  fills (levels ++ deeper) requested = fills levels requested.
Proof.
  revert requested. induction levels as [|level rest IH]; intros requested.
  - rewrite unfilled_nil. intros Hmet. simpl.
    destruct deeper as [|level deeper]; [done|]. simpl. by rewrite Hmet.
  - unfold unfilled. simpl. destruct (requested <=? 0) eqn:Hreq; [done|].
    simpl. intros Hmet. f_equal. by apply IH.
Qed.

(** X20. [CalculateWeightedPrice] reads no more of the book than it fills:
    when the levels of the consumed side cover the request, any levels
    behind them, the other side of the book and its timestamp change
    nothing in the result. *)
Theorem CalculateWeightedPrice_ignores_deeper_levels
    orderBook orderBook' side tradeSize best rest deeper :
  relevantSide orderBook side = Some (best :: rest) ->
  relevantSide orderBook' side = Some ((best :: rest) ++ deeper) ->
  OB_InstID orderBook' = OB_InstID orderBook ->
  (unfilled (best :: rest) tradeSize <=? 0) = true ->
  CalculateWeightedPrice orderBook' side tradeSize
  = CalculateWeightedPrice orderBook side tradeSize.
Proof.
  intros Hside Hside' Hid Hmet.
  rewrite (CalculateWeightedPrice_relevantSide _ _ _ _ _ Hside).
  rewrite <- app_comm_cons in Hside'.
  rewrite (CalculateWeightedPrice_relevantSide _ _ _ _ _ Hside').
  rewrite !weighLevels_fills, Hid. unfold unfilled, fillCost.
  rewrite app_comm_cons, (fills_app_met _ _ _ Hmet). done.
Qed.

End Depth.

(** ** What the tables keep of a ranking *)

Module Tables.

Import Float64 Float64Facts Ranking Output.
Local Open Scope string_scope.
Local Open Scope list_scope.
Local Open Scope float_scope.

(** A loop that appends, for some of the elements, a row that records the
    element, visits a sublist of them. *)
Lemma recorded_sublist {A B} (body : A -> option B) (recorded : B -> A)
    (l : list A) :
  (forall x row, body x = Some row -> recorded row = x) ->
  sublist (recorded <$> omap body l) l.
Proof.
  intros Hrec. induction l as [|x l IH]; [constructor|]. cbn.
  destruct (body x) as [row|] eqn:Hrow; simpl.
  - rewrite (Hrec x row Hrow). by constructor.
  - by constructor.
Qed.

Lemma StronglySorted_sublist {A} (R : relation A) (l l' : list A) :
  sublist l' l -> StronglySorted R l -> StronglySorted R l'.
Proof.
  intros Hsub Hsorted. revert l' Hsub.
  induction Hsorted as [|x l Hsorted IH Hx]; intros l' Hsub.
  - apply sublist_nil_r in Hsub as ->. constructor.
  - apply sublist_cons_r in Hsub as [Hsub | (l'' & -> & Hsub)]; [by apply IH|].
    constructor; [by apply IH|].
    rewrite Forall_forall in Hx |- *. intros y Hy. apply Hx.
    by apply (elem_of_sublist l'' l).
Qed.

(** X21. [PrintTopMarkPxDiffsWithFunding] writes one row for every result,
    in the order given, whatever [minDiff] and the funding map are: it has no
    profit floor. The rows of [PrintTopMarkPxDiffsWithFundingAndFees] are
    taken from among them in the same order. A symbol without funding entry
    shows the rate zero, and the sign before the actual difference is empty
    exactly when the difference is below zero. *)
Theorem PrintTopMarkPxDiffsWithFunding_prints_every_result
    diffs fundingMap feesMap minDiff :
  let rows := PrintTopMarkPxDiffsWithFunding diffs fundingMap minDiff in
  FRow_diff <$> rows = diffs
  /\ sublist (DRow_diff <$> PrintTopMarkPxDiffsWithFundingAndFees
                              diffs fundingMap feesMap minDiff)
             (FRow_diff <$> rows)
  /\ Forall (fun row =>
       FRow_funding row
         = default noFunding (fundingMap !! DR_BaseSymbol (FRow_diff row))
       /\ (FRow_diffSign row = "" <->
           (DR_ActualDiff (FRow_diff row) <? 0) = true)) rows.
Proof.
  intros rows. subst rows. unfold PrintTopMarkPxDiffsWithFunding.
  rewrite collect_omap.
  match goal with
  | |- context [omap ?body diffs] =>
      assert (FRow_diff <$> omap body diffs = diffs) as Hall
  end.
  { induction diffs as [|d l IH]; [done|]. cbn. by f_equal. }
  split_and!.
  - exact Hall.
  - rewrite Hall. unfold PrintTopMarkPxDiffsWithFundingAndFees.
    rewrite collect_omap. apply recorded_sublist.
    intros d row. destruct (_ <? 0.06); [done|]. by intros [= <-].
  - apply Forall_forall. intros row (d & _ & [= <-])%list_elem_of_omap.
    simpl. split; [done|]. by destruct (DR_ActualDiff d <? 0).
Qed.

(** X22. The two tables with fees keep the order of the ranking they are
    given: the results of their rows form a sublist of it, so a ranking in
    descending order of percentage is printed in descending order, with
    nothing repeated that was not repeated before. Each row shows the fee
    fraction of its symbol times a hundred, and as profit the percentage
    less that. *)
Theorem printed_rows_keep_the_ranking
    (diffs : list DiffResult) (results : list RealArbitrageResult)
    (fundingMap : gmap string Funding) (feesMap : gmap string float)
    (minDiff : float) :
  let diffRows :=
    PrintTopMarkPxDiffsWithFundingAndFees diffs fundingMap feesMap minDiff in
  let realRows :=
    PrintRealArbitrageResults results fundingMap feesMap minDiff in
  sublist (DRow_diff <$> diffRows) diffs
  /\ sublist (RRow_result <$> realRows) results
  /\ (descending DR_PercentDiff diffs ->
      descending DR_PercentDiff (DRow_diff <$> diffRows))
  /\ (descending RA_PercentDiff results ->
      descending RA_PercentDiff (RRow_result <$> realRows))
  /\ Forall (fun row =>
       DRow_feesPct row
         = feeFor feesMap (DR_BaseSymbol (DRow_diff row)) * 100
       /\ DRow_actualProfit row
          = DR_PercentDiff (DRow_diff row) - DRow_feesPct row) diffRows
  /\ Forall (fun row =>
       RRow_feesPct row
         = feeFor feesMap (RA_BaseSymbol (RRow_result row)) * 100
       /\ RRow_actualProfit row
          = RA_PercentDiff (RRow_result row) - RRow_feesPct row) realRows.
Proof.
  intros diffRows realRows. subst diffRows realRows.
  unfold PrintTopMarkPxDiffsWithFundingAndFees, PrintRealArbitrageResults.
  rewrite !collect_omap.
  match goal with
  | |- context [omap ?body diffs] =>
      assert (sublist (DRow_diff <$> omap body diffs) diffs) as Hdiffs
  end.
  { apply recorded_sublist. intros d row.
    destruct (_ <? 0.06); [done|]. by intros [= <-]. }
  match goal with
  | |- context [omap ?body results] =>
      assert (sublist (RRow_result <$> omap body results) results) as Hresults
  end.
  { apply recorded_sublist. intros r row.
    destruct (_ <? 0.06); [done|]. by intros [= <-]. }
  split_and!.
  - exact Hdiffs.
  - exact Hresults.
  - unfold descending. by apply StronglySorted_sublist.
  - unfold descending. by apply StronglySorted_sublist.
  - apply Forall_forall. intros row (d & _ & Hrow)%list_elem_of_omap.
    destruct (_ <? 0.06); [done|]. by injection Hrow as <-.
  - apply Forall_forall. intros row (r & _ & Hrow)%list_elem_of_omap.
    destruct (_ <? 0.06); [done|]. by injection Hrow as <-.
Qed.

End Tables.

(** ** The program (cmd/getinsts.go) *)

(** The command-line flags the analysis depends on ([-timeout] only
    configures the HTTP client). *)
Record Flags := {
  marginInstType : string;
  swapInstType : string;
  quoteCurrency : string;
  topN : Z;
  minDiff : float;
  useOrderBook : bool;
  tradeSizeUSD : float;
  minLiquidityUSD : float;
  maxSlippage : float;
  orderBookDepth : Z
}.

(** [time.Until(time.UnixMilli(ms))], in nanoseconds, as read in a given
    turn of the loop that asks for it. *)
Class Clock := time_Until : nat -> Z -> Z.

(** A run of the program ends normally, or with [log.Fatalf], or with a
    run-time panic. What it prints is modelled by the table it ends with
    and, in order-book mode, by the configuration line it starts with
    ([configLine] below); its progress messages are not modelled. *)
Inductive run (A : Type) : Type :=
  | Completes (a : A)
  | Fatal (msg : string)
  | Panic.
Arguments Completes {A} a.
Arguments Fatal {A} msg.
Arguments Panic {A}.

Inductive Table : Type :=
  | MarkPriceTable (rows : list DiffRow)
  | OrderBookTable (rows : list RealRow).

Section Main.

Import Float64 OkxApi.
Local Open Scope string_scope.
Local Open Scope list_scope.
Local Open Scope float_scope.

Context {transport : Transport} {decoder : ResponseDecoder}
        {parse : ParseFloat64} {parseValue : ParseFloat64Value} {atoi : Atoi}
        {parseInt : ParseInt64} {clock : Clock}
        {sorter : SortSlice} {ranger : MapRange}.

Definition tradingConfigOf (flags : Flags) : TradingConfig :=
  {| TradeSizeUSD := tradeSizeUSD flags;
     MinLiquidityUSD := minLiquidityUSD flags;
     MaxSlippage := maxSlippage flags;
     OrderBookDepth := orderBookDepth flags |}.


(** The search for the swap instrument of a base symbol: the identifier of
    the first pair that carries the symbol, empty when there is none. *)
Fixpoint swapInstIDOf (matchingSymbols : list MatchingSymbol)
    (baseSymbol : string) : string :=
  match matchingSymbols with
  | [] => ""
  | match_ :: rest =>
      if String.eqb (MS_BaseSymbol match_) baseSymbol
      then InstID (MS_Swap match_)
      else swapInstIDOf rest baseSymbol
  end.

(** The entry of the funding map for a swap instrument. *)
Definition fundingOf (turn : nat) (swapInstID : string) : Funding :=
  match FetchFundingInfo swapInstID with
  | Err _ => {| Rate := 0; TimeToFunding := 0 |}
  | Ok funding =>
      {| Rate := FundingRate funding;
         TimeToFunding := time_Until turn (NextFundingTime funding) |}
  end.

(** The [DiffResult] the order-book mode builds to estimate the fees of a
    result: the other fields keep their zero value. *)
Definition feeDiffResult (result : RealArbitrageResult) : DiffResult :=
  {| DR_BaseSymbol := RA_BaseSymbol result;
     DR_MarginMarkPx := 0;
     DR_SwapMarkPx := 0;
     DR_PercentDiff := 0;
     DR_ActualDiff := 0;
     DR_IsContango := false;
     DR_TermStructure := RA_TermStructure result |}.

(** Borrow rates that cannot be fetched are replaced by an empty map, with a
    warning. *)
Definition borrowRatesOrDefault : gmap string float :=
  match FetchInterestRates with
  | Ok borrowRates => borrowRates
  | Err _ => ∅
  end.

Definition main (flags : Flags) : run Table :=
  if useOrderBook flags then
    match FetchInstruments (marginInstType flags) (quoteCurrency flags) with
    | Err err =>
        Fatal (String.append "Failed to fetch margin instruments: " err)
    | Ok marginInstruments =>
    match FetchInstruments (swapInstType flags) "" with
    | Err err => Fatal (String.append "Failed to fetch swap instruments: " err)
    | Ok swapInstruments =>
    let matchingSymbols :=
      FindMatchingSymbols marginInstruments swapInstruments in
    let realResults :=
      CalculateRealArbitrageOpportunities (client := OkxApi.FetchOrderBook)
        matchingSymbols (tradingConfigOf flags) in
    let filteredResults :=
      collect (fun result =>
                 if minDiff flags <=? RA_PercentDiff result then Some result
                 else None) realResults in
    match (if (topN flags <? Z.of_nat (length filteredResults))%Z
           then slice_to filteredResults (topN flags)
           else Returns filteredResults) with
    | Panics => Panic
    | Returns filteredResults =>
    match FetchFeeInfo with
    | Err err => Fatal (String.append "Failed to fetch fee info: " err)
    | Ok fees =>
    let borrowRates := borrowRatesOrDefault in
    let feesMap :=
      foldl (fun feesMap result =>
               let diffResult := feeDiffResult result in
               <[RA_BaseSymbol result :=
                   EstimateFees diffResult fees borrowRates]> feesMap)
            ∅ filteredResults in
    let fundingMap :=
      (foldl (fun '(turn, fundingMap) result =>
                let swapInstID :=
                  swapInstIDOf matchingSymbols (RA_BaseSymbol result) in
                if String.eqb swapInstID "" then (S turn, fundingMap)
                else (S turn,
                      <[RA_BaseSymbol result := fundingOf turn swapInstID]>
                        fundingMap))
             (0%nat, ∅) filteredResults).2 in
    Completes (OrderBookTable
      (PrintRealArbitrageResults filteredResults fundingMap feesMap
         (minDiff flags)))
    end end end end
  else
    match FetchMarkPrices (marginInstType flags) with
    | Err err =>
        Fatal (String.append "Failed to fetch margin mark prices: " err)
    | Ok marginMarkPrices =>
    match FetchMarkPrices (swapInstType flags) with
    | Err err => Fatal (String.append "Failed to fetch swap mark prices: " err)
    | Ok swapMarkPrices =>
    match FetchInstruments (marginInstType flags) (quoteCurrency flags) with
    | Err err =>
        Fatal (String.append "Failed to fetch margin instruments: " err)
    | Ok marginInstruments =>
    match FetchInstruments (swapInstType flags) "" with
    | Err err => Fatal (String.append "Failed to fetch swap instruments: " err)
    | Ok swapInstruments =>
    let fusedMargin := FuseData marginInstruments marginMarkPrices in
    let fusedSwap := FuseData swapInstruments swapMarkPrices in
    let matchingSymbols := FindMatchingSymbols fusedMargin fusedSwap in
    match CalculateTopMarkPxDiffs matchingSymbols (topN flags) (minDiff flags)
    with
    | Panics => Panic
    | Returns diffs =>
    match FetchFeeInfo with
    | Err err => Fatal (String.append "Failed to fetch fee info: " err)
    | Ok fees =>
    let borrowRates := borrowRatesOrDefault in
    let '(_, fundingMap, feesMap) :=
      foldl (fun '(turn, fundingMap, feesMap) d =>
               let swapInstID :=
                 swapInstIDOf matchingSymbols (DR_BaseSymbol d) in
               if String.eqb swapInstID "" then (S turn, fundingMap, feesMap)
               else (S turn,
                     <[DR_BaseSymbol d := fundingOf turn swapInstID]> fundingMap,
                     <[DR_BaseSymbol d := EstimateFees d fees borrowRates]>
                       feesMap))
            (0%nat, ∅, ∅) diffs in
    Completes (MarkPriceTable
      (PrintTopMarkPxDiffsWithFundingAndFees diffs fundingMap feesMap
         (minDiff flags)))
    end end end end end end.

End Main.

(** ** What the program prints *)

Module Program.

Import Float64 Float64Facts OkxApi SymbolMatcher Fetching Results Output.
Local Open Scope string_scope.
Local Open Scope list_scope.
Local Open Scope float_scope.

(** *** Loops *)

Lemma keyed_sublist {A B K} (body : A -> option B) (key : A -> K)
    (key' : B -> K) (l : list A) :
  (forall x y, body x = Some y -> key' y = key x) ->
  sublist (key' <$> omap body l) (key <$> l).
Proof.
  intros Hkey. induction l as [|x l IH]; [constructor|]. cbn.
  destruct (body x) as [y|] eqn:Hy; simpl.
  - rewrite (Hkey x y Hy). by constructor.
  - by constructor.
Qed.

Lemma omap_guard_filter {A} (keep : A -> bool) (l : list A) :
  omap (fun x => if keep x then Some x else None) l
  = filter (fun x => keep x = true) l.
Proof.
  induction l as [|x l IH]; [done|]. rewrite filter_cons, <- IH.
  destruct (decide (keep x = true)) as [Hk|Hk]; cbn.
  - by rewrite Hk.
  - by apply not_true_is_false in Hk as ->.
Qed.

Lemma filter_ext_elem_of {A} (P Q : A -> Prop)
    `{forall x, Decision (P x)} `{forall x, Decision (Q x)} (l : list A) :
  (forall x, x ∈ l -> P x <-> Q x) -> filter P l = filter Q l.
Proof.
  induction l as [|x l IH]; intros Hext; [done|].
  rewrite !filter_cons, IH by (intros y Hy; apply Hext; by right).
  destruct (decide (P x)) as [HP|HP], (decide (Q x)) as [HQ|HQ]; try done.
  - destruct HQ. apply Hext; [by left | done].
  - destruct HP. apply Hext; [by left | done].
Qed.

(** The conditional cut [if len(xs) > n { xs = xs[:n] }]. *)
Lemma cut_Returns {A} (xs ys : list A) (n : Z) :
  (if (n <? Z.of_nat (length xs))%Z then slice_to xs n else Returns xs)
    = Returns ys ->
  (0 <= n)%Z /\ ys = take (Z.to_nat n) xs.
Proof.
  unfold slice_to. destruct (n <? Z.of_nat (length xs))%Z eqn:Hlen.
  - destruct (n <? 0)%Z eqn:Hneg; [done|]. intros [= <-].
    apply Z.ltb_ge in Hneg. done.
  - intros [= <-]. apply Z.ltb_ge in Hlen. split; [lia|].
    rewrite take_ge; [done | lia].
Qed.

Lemma cut_negative {A} (xs : list A) (n : Z) :
  (n < 0)%Z ->
  (if (n <? Z.of_nat (length xs))%Z then slice_to xs n else Returns xs)
    = Panics.
Proof.
  intros Hneg. unfold slice_to.
  rewrite (proj2 (Z.ltb_lt n _)) by lia. by rewrite (proj2 (Z.ltb_lt n 0)).
Qed.

(** A map filled under distinct keys holds every value assigned. *)
Lemma foldl_insert_NoDup {A V} (key : A -> string) (val : A -> V)
    (keep : A -> bool) (l : list A) x :
  NoDup (key <$> l) -> x ∈ l ->
  foldl (fun m y => if keep y then <[key y := val y]> m else m)
        (∅ : gmap string V) l !! key x
  = if keep x then Some (val x) else None.
Proof.
  intros Hnd Hin. rewrite foldl_insert_last, lookup_empty.
  rewrite <- list_filter_filter, (filter_key_NoDup key l x Hnd Hin).
  destruct (keep x) eqn:Hk.
  - by rewrite filter_cons_True.
  - rewrite filter_cons_False; [done|]. by rewrite Hk.
Qed.

(** *** The tables as filters *)

Lemma printed_results_filter results fundingMap feesMap minDiff :
  RRow_result <$> PrintRealArbitrageResults results fundingMap feesMap minDiff
  = filter (fun r =>
              (RA_PercentDiff r - feeFor feesMap (RA_BaseSymbol r) * 100 <? 0.06)
              = false) results.
Proof.
  unfold PrintRealArbitrageResults, feeFor. rewrite collect_omap.
  induction results as [|r l IH]; [done|]. rewrite filter_cons, <- IH.
  destruct (decide _) as [E|E]; cbn.
  - by rewrite E.
  - by apply not_false_is_true in E as ->.
Qed.

Lemma printed_diffs_filter diffs fundingMap feesMap minDiff :
  DRow_diff <$>
    PrintTopMarkPxDiffsWithFundingAndFees diffs fundingMap feesMap minDiff
  = filter (fun d =>
              (DR_PercentDiff d - feeFor feesMap (DR_BaseSymbol d) * 100 <? 0.06)
              = false) diffs.
Proof.
  unfold PrintTopMarkPxDiffsWithFundingAndFees, feeFor. rewrite collect_omap.
  induction diffs as [|d l IH]; [done|]. rewrite filter_cons, <- IH.
  destruct (decide _) as [E|E]; cbn.
  - by rewrite E.
  - by apply not_false_is_true in E as ->.
Qed.

Section program.

Context {transport : Transport} {decoder : ResponseDecoder}
        {parse : ParseFloat64} {parseValue : ParseFloat64Value} {atoi : Atoi}
        {parseInt : ParseInt64} {clock : Clock}
        {sorter : SortSlice} {ranger : MapRange}.

(** *** Distinct symbols *)

Lemma NoDup_ranked_symbols {client : OrderBookClient} matches config :
  NoDup (MS_BaseSymbol <$> matches) ->
  NoDup (RA_BaseSymbol <$> CalculateRealArbitrageOpportunities matches config).
Proof.
  intros Hnd. unfold CalculateRealArbitrageOpportunities.
  rewrite collect_omap, sort_Slice_perm.
  apply (sublist_NoDup _ _ Hnd), keyed_sublist.
  intros match_ r Hr. by apply realArbitrage_Some in Hr as [Hsym _].
Qed.

Lemma NoDup_diff_symbols matches n threshold diffs :
  CalculateTopMarkPxDiffs matches n threshold = Returns diffs ->
  NoDup (MS_BaseSymbol <$> matches) ->
  NoDup (DR_BaseSymbol <$> diffs).
Proof.
  unfold CalculateTopMarkPxDiffs. rewrite collect_omap.
  set (sorted := sort_Slice _ _). intros Hcut Hnd.
  assert (NoDup (DR_BaseSymbol <$> sorted)) as Hsorted.
  { unfold sorted. rewrite sort_Slice_perm.
    apply (sublist_NoDup _ _ Hnd), keyed_sublist.
    intros match_ d Hd. by apply markPxDiff_Some in Hd as [Hsym _]. }
  apply cut_Returns in Hcut as [_ ->].
  eapply sublist_NoDup; [exact Hsorted|]. apply fmap_sublist, sublist_take.
Qed.

(** The search finds the swap instrument of a pair by its symbol. *)
Lemma swapInstIDOf_pair matchingSymbols pair :
  NoDup (MS_BaseSymbol <$> matchingSymbols) ->
  pair ∈ matchingSymbols ->
  swapInstIDOf matchingSymbols (MS_BaseSymbol pair) = InstID (MS_Swap pair).
Proof.
  induction matchingSymbols as [|match_ rest IH]; intros Hnd Hin.
  { by apply elem_of_nil in Hin. }
  rewrite fmap_cons in Hnd. apply NoDup_cons in Hnd as [Hfirst Hnd]. simpl.
  apply elem_of_cons in Hin as [->|Hin].
  - by rewrite String.eqb_refl.
  - destruct (String.eqb_spec (MS_BaseSymbol match_) (MS_BaseSymbol pair))
      as [Heq|Hne]; [|by apply IH].
    destruct Hfirst. rewrite Heq. apply list_elem_of_fmap. by exists pair.
Qed.

(** *** The order-book mode *)

(** The profit the order-book table shows for a result: its percentage less
    the fees estimated for its symbol and term structure, in percent. *)
Definition orderBookProfit (fees : FeeInfo) (r : RealArbitrageResult) : float :=
  RA_PercentDiff r
  - EstimateFees (feeDiffResult r) fees borrowRatesOrDefault * 100.

(** The fee map of the order-book mode. *)
Definition orderBookFeesMap (fees : FeeInfo)
    (filteredResults : list RealArbitrageResult) : gmap string float :=
  foldl (fun feesMap result =>
           <[RA_BaseSymbol result :=
               EstimateFees (feeDiffResult result) fees borrowRatesOrDefault]>
             feesMap) ∅ filteredResults.

(** The steps of the order-book mode when it reaches its table. *)
Lemma main_order_book_Completes flags rows :
  useOrderBook flags = true ->
  main flags = Completes (OrderBookTable rows) ->
  exists marginInstruments swapInstruments fees fundingMap,
    FetchInstruments (marginInstType flags) (quoteCurrency flags)
      = Ok marginInstruments
    /\ FetchInstruments (swapInstType flags) "" = Ok swapInstruments
    /\ FetchFeeInfo = Ok fees
    /\ (0 <= topN flags)%Z
    /\ let filteredResults :=
         take (Z.to_nat (topN flags))
           (filter (fun r => (minDiff flags <=? RA_PercentDiff r) = true)
              (CalculateRealArbitrageOpportunities
                 (client := OkxApi.FetchOrderBook)
                 (FindMatchingSymbols marginInstruments swapInstruments)
                 (tradingConfigOf flags))) in
       rows = PrintRealArbitrageResults filteredResults fundingMap
                (orderBookFeesMap fees filteredResults) (minDiff flags).
Proof.
  intros Huse. unfold main. rewrite Huse.
  destruct (FetchInstruments (marginInstType flags) _)
    as [marginInstruments|] eqn:Hmargin; [|done].
  destruct (FetchInstruments (swapInstType flags) _)
    as [swapInstruments|] eqn:Hswap; [|done].
  cbv zeta. rewrite collect_omap.
  rewrite (omap_guard_filter (fun r => minDiff flags <=? RA_PercentDiff r)).
  destruct (if (topN flags <? _)%Z then _ else _) as [cut|] eqn:Hcut; [|done].
  apply cut_Returns in Hcut as [HtopN ->].
  destruct FetchFeeInfo as [fees|] eqn:Hfees; [|done].
  intros [= <-]. exists marginInstruments, swapInstruments, fees.
  eexists. split_and!; try done.
Qed.

Lemma realArbitrage_margin_price {client : OrderBookClient} config match_ r :
  realArbitrage config match_ = Some r ->
  exists marginPrice,
    ParseFloat (MarkPx (MS_Margin match_)) = Some marginPrice
    /\ (marginPrice <=? 0) = false.
Proof.
  unfold realArbitrage.
  repeat (case_match; try discriminate); intros _; eauto.
Qed.

(** X23. End to end, in order-book mode: when the program prints its table,
    both instrument lists and the fee schedule were fetched and [-top] is
    not negative, and the results of the rows are obtained from the ranking
    of the matched pairs in three steps, in this order: keep the results
    whose percentage is at least [-min-diff], cut to the first [-top] of
    them, then drop those whose profit after the estimated fees is below
    0.06. Each row shows that profit. The cut comes before the profit floor,
    so fewer than [-top] rows are printed when results among the first are
    dropped, whatever follows in the ranking. *)
Theorem main_order_book_table flags rows :
  useOrderBook flags = true ->
  main flags = Completes (OrderBookTable rows) ->
  exists marginInstruments swapInstruments fees,
    FetchInstruments (marginInstType flags) (quoteCurrency flags)
      = Ok marginInstruments
    /\ FetchInstruments (swapInstType flags) "" = Ok swapInstruments
    /\ FetchFeeInfo = Ok fees
    /\ (0 <= topN flags)%Z
    /\ RRow_result <$> rows
       = filter (fun r => (orderBookProfit fees r <? 0.06) = false)
           (take (Z.to_nat (topN flags))
              (filter (fun r => (minDiff flags <=? RA_PercentDiff r) = true)
                 (CalculateRealArbitrageOpportunities
                    (client := OkxApi.FetchOrderBook)
                    (FindMatchingSymbols marginInstruments swapInstruments)
                    (tradingConfigOf flags))))
    /\ Forall (fun row =>
         RRow_actualProfit row = orderBookProfit fees (RRow_result row)) rows.
Proof.
  intros Huse Hmain.
  destruct (main_order_book_Completes flags rows Huse Hmain)
    as (marginInstruments & swapInstruments & fees & fundingMap
        & Hmargin & Hswap & Hfees & HtopN & Hrows).
  exists marginInstruments, swapInstruments, fees.
  set (ranked := CalculateRealArbitrageOpportunities _ _) in *.
  set (cut := take _ (filter _ ranked)) in *. cbv zeta in Hrows. subst rows.
  assert (NoDup (RA_BaseSymbol <$> cut)) as Hnd.
  { eapply sublist_NoDup; [apply (NoDup_ranked_symbols (client := OkxApi.FetchOrderBook)),
         NoDup_FindMatchingSymbols|].
    apply fmap_sublist. etrans; [apply sublist_take | apply sublist_filter]. }
  assert (forall r, r ∈ cut ->
            feeFor (orderBookFeesMap fees cut) (RA_BaseSymbol r)
            = EstimateFees (feeDiffResult r) fees borrowRatesOrDefault) as Hfee.
  { intros r Hr. unfold feeFor, orderBookFeesMap.
    pose proof (foldl_insert_NoDup RA_BaseSymbol
                  (fun r => EstimateFees (feeDiffResult r) fees
                              borrowRatesOrDefault)
                  (fun _ => true) cut r Hnd Hr) as H.
    cbn beta iota in H. by rewrite H. }
  split_and!; try done.
  - rewrite printed_results_filter. apply filter_ext_elem_of.
    intros r Hr. unfold orderBookProfit. by rewrite Hfee.
  - apply Forall_forall. intros row Hrow.
    unfold PrintRealArbitrageResults in Hrow. rewrite collect_omap in Hrow.
    apply list_elem_of_omap in Hrow as (r & Hr & Hrow).
    destruct (_ <? 0.06); [done|]. injection Hrow as <-. simpl.
    unfold orderBookProfit. by rewrite <- (Hfee r Hr).
Qed.

(** X24. The order-book mode fetches no mark prices and fuses none: the
    trade size of a pair is computed from the mark price its margin
    instrument carries in the answer to the instruments request. Every row
    of the table therefore belongs to a listed margin instrument whose
    [MarkPx] parses to a number that is not zero or negative, and when no
    listed margin instrument carries a mark price the table is empty. *)
Theorem main_order_book_needs_listed_prices flags rows :
  useOrderBook flags = true ->
  main flags = Completes (OrderBookTable rows) ->
  exists marginInstruments,
    FetchInstruments (marginInstType flags) (quoteCurrency flags)
      = Ok marginInstruments
    /\ (forall row, row ∈ rows ->
          exists inst marginPrice,
            inst ∈ marginInstruments
            /\ ExtractBaseSymbol (InstID inst) = RA_BaseSymbol (RRow_result row)
            /\ ParseFloat (MarkPx inst) = Some marginPrice
            /\ (marginPrice <=? 0) = false)
    /\ (Forall (fun inst => MarkPx inst = "") marginInstruments -> rows = []).
Proof.
  intros Huse Hmain.
  destruct (main_order_book_Completes flags rows Huse Hmain)
    as (marginInstruments & swapInstruments & fees & fundingMap
        & Hmargin & Hswap & Hfees & HtopN & Hrows).
  exists marginInstruments. split; [done|].
  assert (forall row, row ∈ rows ->
            exists inst marginPrice,
              inst ∈ marginInstruments
              /\ ExtractBaseSymbol (InstID inst) = RA_BaseSymbol (RRow_result row)
              /\ ParseFloat (MarkPx inst) = Some marginPrice
              /\ (marginPrice <=? 0) = false) as Hlisted.
  { intros row Hr. cbv zeta in Hrows. subst rows.
    apply (list_elem_of_fmap_2 RRow_result) in Hr.
    rewrite printed_results_filter in Hr.
    apply list_elem_of_filter in Hr as [_ Hr].
    apply (subseteq_take (Z.to_nat (topN flags))) in Hr.
    apply list_elem_of_filter in Hr as [_ Hr].
    unfold CalculateRealArbitrageOpportunities in Hr.
    rewrite collect_omap, sort_Slice_perm in Hr.
    apply list_elem_of_omap in Hr as (pair & Hpair & Hr).
    destruct (realArbitrage_margin_price _ _ _ Hr) as (marginPrice & Hp & Hpos).
    apply realArbitrage_Some in Hr as [Hsym _].
    apply elem_of_FindMatchingSymbols in Hpair as [Hm _].
    apply lastWithKey_Some in Hm as [Hin Hkey].
    exists (MS_Margin pair), marginPrice. split_and!; try done.
    unfold keyOf in Hkey. by rewrite Hsym. }
  split; [exact Hlisted|].
  intros Hnone. destruct rows as [|row rows']; [done|].
  destruct (Hlisted row) as (inst & marginPrice & Hin & _ & Hp & _);
    [by left|].
  rewrite Forall_forall in Hnone. rewrite (Hnone inst Hin) in Hp.
  unfold ParseFloat in Hp. done.
Qed.

(** *** The mark-price mode *)

(** The fee the mark-price mode charges a result: none when the search for
    the swap instrument of its symbol comes back empty. *)
Definition markPriceFee (matchingSymbols : list MatchingSymbol)
    (fees : FeeInfo) (d : DiffResult) : float :=
  if String.eqb (swapInstIDOf matchingSymbols (DR_BaseSymbol d)) "" then 0
  else EstimateFees d fees borrowRatesOrDefault.

Lemma markPrice_loop_feesMap matchingSymbols fees diffs (turn : nat)
    (fundingMap : gmap string Funding) (feesMap : gmap string float) :
  (foldl (fun '(turn, fundingMap, feesMap) d =>
            let swapInstID := swapInstIDOf matchingSymbols (DR_BaseSymbol d) in
            if String.eqb swapInstID "" then (S turn, fundingMap, feesMap)
            else (S turn,
                  <[DR_BaseSymbol d := fundingOf turn swapInstID]> fundingMap,
                  <[DR_BaseSymbol d := EstimateFees d fees borrowRatesOrDefault]>
                    feesMap))
         (turn, fundingMap, feesMap) diffs).2
  = foldl (fun feesMap d =>
             if negb (String.eqb
                        (swapInstIDOf matchingSymbols (DR_BaseSymbol d)) "")
             then <[DR_BaseSymbol d := EstimateFees d fees borrowRatesOrDefault]>
                    feesMap
             else feesMap) feesMap diffs.
Proof.
  revert turn fundingMap feesMap.
  induction diffs as [|d l IH]; intros turn fundingMap feesMap; [done|].
  simpl. destruct (String.eqb _ ""); simpl; apply IH.
Qed.

(** X25. End to end, in mark-price mode: when the program prints its table,
    the two snapshots, the two instrument lists and the fee schedule were
    fetched, the pairs are those matched among the fused lists, and the
    results of the rows are those of the ranking [CalculateTopMarkPxDiffs]
    returns for them whose percentage less the fee, in percent, is not below
    0.06, in the order of the ranking. The fee of a result is the estimate
    for it, except that a result whose swap instrument has an empty
    identifier is charged nothing. *)
Theorem main_mark_price_table flags rows :
  useOrderBook flags = false ->
  main flags = Completes (MarkPriceTable rows) ->
  exists marginMarkPrices swapMarkPrices marginInstruments swapInstruments
         fees diffs,
    FetchMarkPrices (marginInstType flags) = Ok marginMarkPrices
    /\ FetchMarkPrices (swapInstType flags) = Ok swapMarkPrices
    /\ FetchInstruments (marginInstType flags) (quoteCurrency flags)
       = Ok marginInstruments
    /\ FetchInstruments (swapInstType flags) "" = Ok swapInstruments
    /\ FetchFeeInfo = Ok fees
    /\ let matchingSymbols :=
         FindMatchingSymbols (FuseData marginInstruments marginMarkPrices)
                             (FuseData swapInstruments swapMarkPrices) in
       CalculateTopMarkPxDiffs matchingSymbols (topN flags) (minDiff flags)
         = Returns diffs
       /\ DRow_diff <$> rows
          = filter (fun d =>
                      (DR_PercentDiff d
                       - markPriceFee matchingSymbols fees d * 100 <? 0.06)
                      = false) diffs
       /\ (forall pair, pair ∈ matchingSymbols ->
             swapInstIDOf matchingSymbols (MS_BaseSymbol pair)
             = InstID (MS_Swap pair)).
Proof.
  intros Huse. unfold main. rewrite Huse.
  destruct (FetchMarkPrices (marginInstType flags))
    as [marginMarkPrices|] eqn:Hmp; [|done].
  destruct (FetchMarkPrices (swapInstType flags))
    as [swapMarkPrices|] eqn:Hsp; [|done].
  destruct (FetchInstruments (marginInstType flags) _)
    as [marginInstruments|] eqn:Hmargin; [|done].
  destruct (FetchInstruments (swapInstType flags) _)
    as [swapInstruments|] eqn:Hswap; [|done].
  cbv zeta.
  set (matchingSymbols := FindMatchingSymbols _ _).
  destruct (CalculateTopMarkPxDiffs matchingSymbols _ _) as [diffs|] eqn:Hdiffs;
    [|done].
  destruct FetchFeeInfo as [fees|] eqn:Hfees; [|done].
  destruct (foldl _ _ diffs) as [[turn fundingMap] feesMap] eqn:Hloop.
  intros [= <-].
  exists marginMarkPrices, swapMarkPrices, marginInstruments, swapInstruments,
         fees, diffs.
  assert (NoDup (MS_BaseSymbol <$> matchingSymbols)) as Hpairs
    by apply NoDup_FindMatchingSymbols.
  pose proof (NoDup_diff_symbols _ _ _ _ Hdiffs Hpairs) as Hnd.
  pose proof (markPrice_loop_feesMap matchingSymbols fees diffs 0 ∅ ∅) as Hfees'.
  cbv zeta in Hfees'. rewrite Hloop in Hfees'. simpl in Hfees'.
  split_and!; try done.
  - rewrite printed_diffs_filter. apply filter_ext_elem_of.
    intros d Hd. unfold markPriceFee, feeFor. rewrite Hfees'.
    rewrite (foldl_insert_NoDup DR_BaseSymbol
               (fun d => EstimateFees d fees borrowRatesOrDefault)
               (fun d => negb (String.eqb
                  (swapInstIDOf matchingSymbols (DR_BaseSymbol d)) ""))
               diffs d Hnd Hd).
    by destruct (String.eqb _ "").
  - intros pair Hpair. by apply swapInstIDOf_pair.
Qed.

(** *** How a run ends *)

(** The message of the first fetch that fails, in the order the program
    makes them; none when the instrument lists (and, in mark-price mode, the
    two snapshots before them) are all fetched. *)
Definition firstFailure (flags : Flags) : option string :=
  if useOrderBook flags then
    match FetchInstruments (marginInstType flags) (quoteCurrency flags) with
    | Err err => Some (String.append "Failed to fetch margin instruments: " err)
    | Ok _ =>
        match FetchInstruments (swapInstType flags) "" with
        | Err err =>
            Some (String.append "Failed to fetch swap instruments: " err)
        | Ok _ => None
        end
    end
  else
    match FetchMarkPrices (marginInstType flags) with
    | Err err => Some (String.append "Failed to fetch margin mark prices: " err)
    | Ok _ =>
    match FetchMarkPrices (swapInstType flags) with
    | Err err => Some (String.append "Failed to fetch swap mark prices: " err)
    | Ok _ =>
    match FetchInstruments (marginInstType flags) (quoteCurrency flags) with
    | Err err => Some (String.append "Failed to fetch margin instruments: " err)
    | Ok _ =>
    match FetchInstruments (swapInstType flags) "" with
    | Err err => Some (String.append "Failed to fetch swap instruments: " err)
    | Ok _ => None
    end end end end.

Lemma cut_nonnegative {A} (xs : list A) (n : Z) :
  (0 <= n)%Z ->
  (if (n <? Z.of_nat (length xs))%Z then slice_to xs n else Returns xs)
  = Returns (take (Z.to_nat n) xs).
Proof.
  intros Hn. unfold slice_to. destruct (n <? Z.of_nat (length xs))%Z eqn:Hlen.
  - by rewrite (proj2 (Z.ltb_ge n 0)).
  - apply Z.ltb_ge in Hlen. rewrite take_ge; [done | lia].
Qed.

(** X26. How a run of the program ends, in either mode. It ends with a
    fatal error exactly when one of the fetches it starts with fails, with
    the message of the first that does. Once these are made, a negative
    [-top] ends it with the run-time panic of a slice expression, even when
    there is nothing to cut, and any other [-top] lets it print its table:
    nothing else can stop it, neither an order book that cannot be fetched
    or priced, nor a price that does not parse, nor the requests for fees,
    borrow rates and funding, whose failures are replaced by defaults. *)
Theorem main_outcomes flags :
  match firstFailure flags with
  | Some msg => main flags = Fatal msg
  | None =>
      if (topN flags <? 0)%Z then main flags = Panic
      else exists table, main flags = Completes table
  end.
Proof.
  unfold firstFailure, main. destruct (useOrderBook flags).
  - destruct (FetchInstruments (marginInstType flags) _); [|done].
    destruct (FetchInstruments (swapInstType flags) _); [|done].
    cbv zeta. destruct (topN flags <? 0)%Z eqn:Htop.
    + apply Z.ltb_lt in Htop. by rewrite cut_negative.
    + apply Z.ltb_ge in Htop. rewrite cut_nonnegative by done.
      unfold FetchFeeInfo. eauto.
  - destruct (FetchMarkPrices (marginInstType flags)); [|done].
    destruct (FetchMarkPrices (swapInstType flags)); [|done].
    destruct (FetchInstruments (marginInstType flags) _); [|done].
    destruct (FetchInstruments (swapInstType flags) _); [|done].
    cbv zeta. destruct (topN flags <? 0)%Z eqn:Htop.
    + apply Z.ltb_lt in Htop.
      by rewrite (Ranking.CalculateTopMarkPxDiffs_negative_topN _ _ _ Htop).
    + apply Z.ltb_ge in Htop. unfold CalculateTopMarkPxDiffs.
      rewrite cut_nonnegative by done. unfold FetchFeeInfo.
      destruct (foldl _ _ _) as [[turn fundingMap] feesMap]. eauto.
Qed.



(** X29. No symbol has two rows: in either table the base symbols of the
    rows are pairwise distinct, although several instruments of a venue may
    share a base symbol. *)
Theorem main_one_row_per_symbol flags table :
  main flags = Completes table ->
  match table with
  | MarkPriceTable rows =>
      NoDup ((fun row => DR_BaseSymbol (DRow_diff row)) <$> rows)
  | OrderBookTable rows =>
      NoDup ((fun row => RA_BaseSymbol (RRow_result row)) <$> rows)
  end.
Proof.
  unfold main. destruct (useOrderBook flags).
  - destruct (FetchInstruments (marginInstType flags) _)
      as [marginInstruments|]; [|done].
    destruct (FetchInstruments (swapInstType flags) _)
      as [swapInstruments|]; [|done].
    cbv zeta. rewrite collect_omap.
    rewrite (omap_guard_filter (fun r => minDiff flags <=? RA_PercentDiff r)).
    destruct (if (topN flags <? _)%Z then _ else _) as [cut|] eqn:Hcut; [|done].
    apply cut_Returns in Hcut as [HtopN ->].
    destruct FetchFeeInfo as [fees|]; [|done].
    intros [= <-]. rewrite (list_fmap_compose RRow_result RA_BaseSymbol).
    rewrite printed_results_filter.
    eapply sublist_NoDup;
      [apply (NoDup_ranked_symbols (client := OkxApi.FetchOrderBook)),
             NoDup_FindMatchingSymbols|].
    apply fmap_sublist.
    etrans; [apply sublist_filter|].
    etrans; [apply sublist_take | apply sublist_filter].
  - destruct (FetchMarkPrices (marginInstType flags))
      as [marginMarkPrices|]; [|done].
    destruct (FetchMarkPrices (swapInstType flags))
      as [swapMarkPrices|]; [|done].
    destruct (FetchInstruments (marginInstType flags) _)
      as [marginInstruments|]; [|done].
    destruct (FetchInstruments (swapInstType flags) _)
      as [swapInstruments|]; [|done].
    cbv zeta.
    destruct (CalculateTopMarkPxDiffs _ _ _) as [diffs|] eqn:Hdiffs; [|done].
    destruct FetchFeeInfo as [fees|]; [|done].
    destruct (foldl _ _ diffs) as [[turn fundingMap] feesMap].
    intros [= <-]. rewrite (list_fmap_compose DRow_diff DR_BaseSymbol).
    rewrite printed_diffs_filter.
    eapply sublist_NoDup;
      [eapply NoDup_diff_symbols; [exact Hdiffs|];
       apply NoDup_FindMatchingSymbols|].
    apply fmap_sublist, sublist_filter.
Qed.

End program.
End Program.

(** ** The funding columns *)

Module FundingColumns.

Import Float64 Float64Facts OkxApi SymbolMatcher Fetching Results Output Program.
Local Open Scope string_scope.
Local Open Scope list_scope.
Local Open Scope float_scope.

(** A loop that counts its turns and assigns, in some of them, an entry
    that depends on the turn. *)
Definition countedInserts {A V} (key : A -> string)
    (entry : nat -> A -> option V) (state : nat * gmap string V) (l : list A)
  : nat * gmap string V :=
  foldl (fun '(turn, m) x =>
           (S turn,
            match entry turn x with
            | Some v => <[key x := v]> m
            | None => m
            end)) state l.

Lemma countedInserts_absent {A V} (key : A -> string)
    (entry : nat -> A -> option V) (l : list A) turn (m : gmap string V) k :
  k ∉ (key <$> l) ->
  (countedInserts key entry (turn, m) l).2 !! k = m !! k.
Proof.
  revert turn m. induction l as [|x l IH]; intros turn m Hk; [done|].
  rewrite fmap_cons, not_elem_of_cons in Hk. destruct Hk as [Hx Hl].
  unfold countedInserts in *. simpl. rewrite IH by done.
  destruct (entry turn x); [|done]. by rewrite lookup_insert_ne.
Qed.

Lemma countedInserts_lookup {A V} (key : A -> string)
    (entry : nat -> A -> option V) (l : list A) turn (m : gmap string V) i x :
  NoDup (key <$> l) -> l !! i = Some x ->
  (countedInserts key entry (turn, m) l).2 !! key x
  = match entry (turn + i)%nat x with
    | Some v => Some v
    | None => m !! key x
    end.
Proof.
  revert turn m i. induction l as [|y l IH]; intros turn m i Hnd Hi; [done|].
  rewrite fmap_cons in Hnd. apply NoDup_cons in Hnd as [Hy Hnd].
  destruct i as [|i]; simpl in Hi.
  - injection Hi as ->. unfold countedInserts. simpl.
    fold (countedInserts key entry
            (S turn, match entry turn x with
                     | Some v => <[key x := v]> m
                     | None => m
                     end) l).
    rewrite countedInserts_absent by done. rewrite Nat.add_0_r.
    destruct (entry turn x); [|done]. by rewrite lookup_insert_eq.
  - unfold countedInserts. simpl.
    fold (countedInserts key entry
            (S turn, match entry turn y with
                     | Some v => <[key y := v]> m
                     | None => m
                     end) l).
    rewrite (IH _ _ i Hnd Hi). replace (S turn + i)%nat with (turn + S i)%nat by lia.
    destruct (entry (turn + S i)%nat x); [done|].
    destruct (entry turn y); [|done].
    rewrite lookup_insert_ne; [done|]. intros Heq. apply Hy. rewrite Heq.
    apply list_elem_of_fmap. exists x. split; [done|].
    by apply list_elem_of_lookup_2 in Hi.
Qed.

Section funding.

Context {transport : Transport} {decoder : ResponseDecoder}
        {parse : ParseFloat64} {parseValue : ParseFloat64Value} {atoi : Atoi}
        {parseInt : ParseInt64} {clock : Clock}
        {sorter : SortSlice} {ranger : MapRange}.

(** The funding entry of a turn, for the swap instrument found for a
    symbol: none when the search comes back empty. *)
Definition fundingEntry (matchingSymbols : list MatchingSymbol) (turn : nat)
    (baseSymbol : string) : option Funding :=
  let swapInstID := swapInstIDOf matchingSymbols baseSymbol in
  if String.eqb swapInstID "" then None else Some (fundingOf turn swapInstID).

Lemma markPrice_loop_fundingMap matchingSymbols fees diffs (turn : nat)
    (fundingMap : gmap string Funding) (feesMap : gmap string float) :
  (foldl (fun '(turn, fundingMap, feesMap) d =>
            if String.eqb (swapInstIDOf matchingSymbols (DR_BaseSymbol d)) ""
            then (S turn, fundingMap, feesMap)
            else (S turn,
                  <[DR_BaseSymbol d :=
                      fundingOf turn
                        (swapInstIDOf matchingSymbols (DR_BaseSymbol d))]>
                    fundingMap,
                  <[DR_BaseSymbol d := EstimateFees d fees borrowRatesOrDefault]>
                    feesMap))
         (turn, fundingMap, feesMap) diffs).1.2
  = (countedInserts DR_BaseSymbol
       (fun turn d => fundingEntry matchingSymbols turn (DR_BaseSymbol d))
       (turn, fundingMap) diffs).2.
Proof.
  revert turn fundingMap feesMap.
  induction diffs as [|d l IH]; intros turn fundingMap feesMap; [done|].
  unfold countedInserts, fundingEntry. simpl.
  destruct (String.eqb _ ""); simpl; apply IH.
Qed.

Lemma orderBook_loop_fundingMap matchingSymbols results (turn : nat)
    (fundingMap : gmap string Funding) :
  (foldl (fun '(turn, fundingMap) result =>
            if String.eqb
                 (swapInstIDOf matchingSymbols (RA_BaseSymbol result)) ""
            then (S turn, fundingMap)
            else (S turn,
                  <[RA_BaseSymbol result :=
                      fundingOf turn
                        (swapInstIDOf matchingSymbols (RA_BaseSymbol result))]>
                    fundingMap))
         (turn, fundingMap) results).2
  = (countedInserts RA_BaseSymbol
       (fun turn r => fundingEntry matchingSymbols turn (RA_BaseSymbol r))
       (turn, fundingMap) results).2.
Proof.
  revert turn fundingMap.
  induction results as [|r l IH]; intros turn fundingMap; [done|].
  unfold countedInserts, fundingEntry. simpl.
  destruct (String.eqb _ ""); simpl; apply IH.
Qed.

(** What a row shows as funding, for the symbol [baseSymbol] handled in turn
    [turn] of the loop: the rate fetched for the swap instrument of the
    pair that carries the symbol and the time to its next funding, zero and
    zero when the fetch fails, and zero and zero as well when the swap
    instrument has no identifier. *)
Definition shownFunding (matchingSymbols : list MatchingSymbol) (turn : nat)
    (baseSymbol : string) : Funding :=
  let swapInstID := swapInstIDOf matchingSymbols baseSymbol in
  if String.eqb swapInstID "" then noFunding
  else
    match FetchFundingInfo swapInstID with
    | Ok funding =>
        {| Rate := FundingRate funding;
           TimeToFunding := time_Until turn (NextFundingTime funding) |}
    | Err _ => noFunding
    end.

Lemma default_fundingEntry matchingSymbols turn baseSymbol :
  default noFunding (fundingEntry matchingSymbols turn baseSymbol)
  = shownFunding matchingSymbols turn baseSymbol.
Proof.
  unfold fundingEntry, shownFunding, fundingOf.
  destruct (String.eqb _ ""); [done|]. simpl.
  by destruct (FetchFundingInfo _).
Qed.

(** X28. The funding columns of either table: the row of a result shows
    the funding fetched with [FetchFundingInfo] for the swap instrument of
    the first pair that carries the result's symbol, read in the turn of the
    loop over the results in which the result was handled (its position
    among the results before the profit floor is applied). A fetch that
    fails is shown as rate zero and time zero, as is a swap instrument
    without identifier: the table does not tell them from a funding rate of
    zero. *)
Theorem main_funding_columns flags table :
  main flags = Completes table ->
  match table with
  | MarkPriceTable rows =>
      exists marginMarkPrices swapMarkPrices marginInstruments swapInstruments
             diffs,
        let matchingSymbols :=
          FindMatchingSymbols (FuseData marginInstruments marginMarkPrices)
                              (FuseData swapInstruments swapMarkPrices) in
        CalculateTopMarkPxDiffs matchingSymbols (topN flags) (minDiff flags)
          = Returns diffs
        /\ Forall (fun row =>
             exists turn,
               diffs !! turn = Some (DRow_diff row)
               /\ DRow_funding row
                  = shownFunding matchingSymbols turn
                      (DR_BaseSymbol (DRow_diff row))) rows
  | OrderBookTable rows =>
      exists marginInstruments swapInstruments,
        let matchingSymbols :=
          FindMatchingSymbols marginInstruments swapInstruments in
        let filteredResults :=
          take (Z.to_nat (topN flags))
            (filter (fun r => (minDiff flags <=? RA_PercentDiff r) = true)
               (CalculateRealArbitrageOpportunities
                  (client := OkxApi.FetchOrderBook) matchingSymbols
                  (tradingConfigOf flags))) in
        Forall (fun row =>
          exists turn,
            filteredResults !! turn = Some (RRow_result row)
            /\ RRow_funding row
               = shownFunding matchingSymbols turn
                   (RA_BaseSymbol (RRow_result row))) rows
  end.
Proof.
  unfold main. destruct (useOrderBook flags).
  - destruct (FetchInstruments (marginInstType flags) _)
      as [marginInstruments|] eqn:Hmargin; [|done].
    destruct (FetchInstruments (swapInstType flags) _)
      as [swapInstruments|] eqn:Hswap; [|done].
    cbv zeta. rewrite collect_omap.
    rewrite (omap_guard_filter (fun r => minDiff flags <=? RA_PercentDiff r)).
    set (matchingSymbols := FindMatchingSymbols _ _).
    set (ranked := CalculateRealArbitrageOpportunities _ _).
    destruct (if (topN flags <? _)%Z then _ else _) as [cut|] eqn:Hcut; [|done].
    apply cut_Returns in Hcut as [HtopN ->].
    set (cut := take _ (filter _ ranked)).
    destruct FetchFeeInfo as [fees|] eqn:Hfees; [|done].
    intros [= <-]. exists marginInstruments, swapInstruments.
    assert (NoDup (RA_BaseSymbol <$> cut)) as Hnd.
    { eapply sublist_NoDup;
        [apply (NoDup_ranked_symbols (client := OkxApi.FetchOrderBook)),
               NoDup_FindMatchingSymbols|].
      apply fmap_sublist. etrans; [apply sublist_take | apply sublist_filter]. }
    apply Forall_forall. intros row Hrow.
    unfold PrintRealArbitrageResults in Hrow. rewrite collect_omap in Hrow.
    apply list_elem_of_omap in Hrow as (r & Hr & Hrow).
    destruct (_ <? 0.06); [done|]. injection Hrow as <-. simpl.
    apply list_elem_of_lookup_1 in Hr as [turn Hturn]. exists turn.
    split; [done|].
    rewrite orderBook_loop_fundingMap.
    rewrite (countedInserts_lookup RA_BaseSymbol _ cut 0 ∅ turn r Hnd Hturn).
    rewrite lookup_empty, <- default_fundingEntry. simpl.
    by destruct (fundingEntry _ _ _).
  - destruct (FetchMarkPrices (marginInstType flags))
      as [marginMarkPrices|] eqn:Hmp; [|done].
    destruct (FetchMarkPrices (swapInstType flags))
      as [swapMarkPrices|] eqn:Hsp; [|done].
    destruct (FetchInstruments (marginInstType flags) _)
      as [marginInstruments|] eqn:Hmargin; [|done].
    destruct (FetchInstruments (swapInstType flags) _)
      as [swapInstruments|] eqn:Hswap; [|done].
    cbv zeta. set (matchingSymbols := FindMatchingSymbols _ _).
    destruct (CalculateTopMarkPxDiffs matchingSymbols _ _)
      as [diffs|] eqn:Hdiffs; [|done].
    destruct FetchFeeInfo as [fees|] eqn:Hfees; [|done].
    pose proof (markPrice_loop_fundingMap matchingSymbols fees diffs 0 ∅ ∅)
      as Hfunding.
    destruct (foldl _ _ diffs) as [[turns fundingMap] feesMap] eqn:Hloop.
    simpl in Hfunding. subst fundingMap. intros [= <-].
    exists marginMarkPrices, swapMarkPrices, marginInstruments,
           swapInstruments, diffs.
    split; [done|].
    assert (NoDup (DR_BaseSymbol <$> diffs)) as Hnd
      by (eapply NoDup_diff_symbols; [exact Hdiffs|];
          apply NoDup_FindMatchingSymbols).
    apply Forall_forall. intros row Hrow.
    unfold PrintTopMarkPxDiffsWithFundingAndFees in Hrow.
    rewrite collect_omap in Hrow.
    apply list_elem_of_omap in Hrow as (d & Hd & Hrow).
    destruct (_ <? 0.06); [done|]. injection Hrow as <-. simpl.
    apply list_elem_of_lookup_1 in Hd as [turn Hturn]. exists turn.
    split; [done|].
    rewrite (countedInserts_lookup DR_BaseSymbol _ diffs 0 ∅ turn d Hnd Hturn).
    rewrite lookup_empty, <- default_fundingEntry. simpl.
    by destruct (fundingEntry _ _ _).
Qed.

End funding.
End FundingColumns.

(** ** A small exchange

    One exchange for the examples: bitcoin is listed on both venues, the
    margin listing also has a suspended instrument and one quoted in another
    currency, the swap book is a hundredth above the margin book, and the
    account endpoints answer with an error code, so that the default fees
    apply. The body of an answer is represented by the URL or the path that
    was asked for. *)

Module Exchange.

Import OkxApi.
Local Open Scope string_scope.
Local Open Scope list_scope.
Local Open Scope float_scope.

Definition listed (instID quoteCcy state markPx : string) : Instrument :=
  {| InstID := instID; InstType := ""; BaseCcy := ""; QuoteCcy := quoteCcy;
     State := state; MarkPx := markPx; Lever := ""; LotSz := ""; TickSz := "";
     MinSz := ""; MaxSz := ""; Extra := ∅ |}.

Definition priced (instID markPx : string) : MarkPrice :=
  {| MP_InstID := instID; MP_MarkPx := markPx; MP_TS := "1700000000000";
     MP_Extra := ∅ |}.

Definition answer {A} (data : list A) : result (Response A) :=
  Ok {| Code := "0"; Msg := ""; Data := data |}.

Definition refusal {A} : result (Response A) :=
  Ok {| Code := "50103"; Msg := "Request header OK-ACCESS-KEY can not be empty.";
        Data := [] |}.

Definition marginListing : list Instrument :=
  [listed "BTC-USDT" "USDT" "live" "100";
   listed "ETH-USDT" "USDT" "suspend" "2000";
   listed "BTC-USDC" "USDC" "live" "100"].

Definition swapListing : list Instrument :=
  [listed "BTC-USDT-SWAP" "USDT" "live" "101";
   listed "SOL-USD-SWAP" "USD" "live" "150"].

Definition marginSnapshot : list MarkPrice :=
  [priced "BTC-USDT" "99"; priced "" "1"; priced "BTC-USDT" "100";
   priced "ETH-USDT" ""].

Definition swapSnapshot : list MarkPrice :=
  [priced "BTC-USDT-SWAP" "101"].

Definition marginRows : RawOrderBook :=
  {| Raw_InstID := "BTC-USDT";
     Raw_Bids := [["99.9"; "20"; "0"; "3"]];
     Raw_Asks := [["100"; "20"; "0"; "2"]; ["100.5"]; ["x"; "1"]];
     Raw_TS := "1700000000000" |}.

Definition swapRows : RawOrderBook :=
  {| Raw_InstID := "BTC-USDT-SWAP";
     Raw_Bids := [["101"; "20"]];
     Raw_Asks := [["101.1"; "20"; "0"; "many"]];
     Raw_TS := "1700000000000" |}.

Definition echo : Transport := {|
  MakeRequest url := Ok url;
  MakeSignedRequest method path query := Ok path
|}.

Definition answers : ResponseDecoder := {|
  decodeInstruments body :=
    if String.eqb body
         "https://www.okx.com/api/v5/public/instruments?instType=MARGIN"
    then answer marginListing
    else if String.eqb body
              "https://www.okx.com/api/v5/public/instruments?instType=SWAP"
    then answer swapListing
    else Err "unexpected end of JSON input";
  decodeMarkPrices body :=
    if String.eqb body
         "https://www.okx.com/api/v5/public/mark-price?instType=MARGIN"
    then answer marginSnapshot
    else if String.eqb body
              "https://www.okx.com/api/v5/public/mark-price?instType=SWAP"
    then answer swapSnapshot
    else Err "unexpected end of JSON input";
  decodeFees body := refusal;
  decodeInterestRates body :=
    answer [{| Ccy := "BTC"; IR_InterestRate := 0.0001 |};
            {| Ccy := "ETH"; IR_InterestRate := 0 |};
            {| Ccy := "BTC"; IR_InterestRate := 0.0003 |}];
  decodeOrderBooks body :=
    if String.eqb body
         "https://www.okx.com/api/v5/market/books?instId=BTC-USDT&sz=20"
    then answer [marginRows]
    else if String.eqb body
              "https://www.okx.com/api/v5/market/books?instId=BTC-USDT-SWAP&sz=20"
    then answer [swapRows]
    else answer [];
  decodeFunding body :=
    answer [{| RF_InstID := "BTC-USDT-SWAP"; RF_FundingRate := "0.0001";
               RF_NextFundingTime := "1700000000000" |}]
|}.

(** Readers of plain non-negative decimal integers. *)
Definition naturals : string -> option Z := fun s =>
  match Decimal.digits s 0 0 with
  | Some (v, n) => if ((0 <? n) && (v <? 2 ^ 63))%Z then Some v else None
  | None => None
  end.

Definition decimalAtoi : Atoi := naturals.
Definition decimalParseInt : ParseInt64 := naturals.

Definition decimalValue : ParseFloat64Value := fun s =>
  default 0 (Decimal.parse s).

(** A clock that stands an hour before the funding time of the example. *)
Definition stopped : Clock := fun turn ms =>
  ((ms - 1699996400000) * 1000000)%Z.

Definition flagsOf (orderBook : bool) (top : Z) : Flags :=
  {| marginInstType := "MARGIN"; swapInstType := "SWAP";
     quoteCurrency := "USDT"; topN := top; minDiff := 0.24;
     useOrderBook := orderBook; tradeSizeUSD := 1000;
     minLiquidityUSD := 10000; maxSlippage := 0.5; orderBookDepth := 20 |}.

(** A run of the program against this exchange. *)
Definition run_main (flags : Flags) : run Table :=
  main (transport := echo) (decoder := answers)
       (parse := decimal_ParseFloat64) (parseValue := decimalValue)
       (atoi := decimalAtoi) (parseInt := decimalParseInt) (clock := stopped)
       (sorter := insertion_SortSlice) (ranger := canonical_MapRange) flags.

End Exchange.

(** ** The properties on the small exchange *)

Module Scenarios.

Import Exchange OkxApi OrderBookPricer.
Local Open Scope string_scope.
Local Open Scope list_scope.
Local Open Scope float_scope.

(** The margin snapshot lists BTC-USDT twice and an item without
    identifier: the later price is kept, the item without identifier is
    not. *)
Lemma FetchMarkPrices_last_item_per_InstID_witness :
  exists markPrices,
    FetchMarkPrices (transport := echo) (decoder := answers) "MARGIN"
      = Ok markPrices
    /\ markPrices !! "" = None
    /\ markPrices !! "BTC-USDT" = Some (priced "BTC-USDT" "100").
Proof.
  eexists. split; [reflexivity|].
  destruct (Fetching.FetchMarkPrices_last_item_per_InstID
              (transport := echo) (decoder := answers) "MARGIN" _ eq_refl)
    as (body & response & Hreq & Hdec & _ & Hempty & Hlast).
  split; [exact Hempty|]. rewrite (Hlast "BTC-USDT") by done.
  injection Hreq as <-. injection Hdec as <-. reflexivity.
Defined.

(** An instrument without price takes the last price of the snapshot, one
    whose snapshot price is empty keeps its own, and so does one without
    identifier. *)
Lemma FuseData_fetched_prices_witness :
  exists markPrices,
    FetchMarkPrices (transport := echo) (decoder := answers) "MARGIN"
      = Ok markPrices
    /\ FuseData [listed "BTC-USDT" "USDT" "live" "";
                 listed "ETH-USDT" "USDT" "live" "2000";
                 listed "" "USDT" "live" "7"] markPrices
       = [listed "BTC-USDT" "USDT" "live" "100";
          listed "ETH-USDT" "USDT" "live" "2000";
          listed "" "USDT" "live" "7"].
Proof.
  eexists. split; [reflexivity|].
  destruct (Fetching.FuseData_fetched_prices
              (transport := echo) (decoder := answers) "MARGIN" _
              [listed "BTC-USDT" "USDT" "live" "";
               listed "ETH-USDT" "USDT" "live" "2000";
               listed "" "USDT" "live" "7"] eq_refl)
    as (body & response & Hreq & Hdec & Hfused).
  rewrite Hfused. injection Hreq as <-. injection Hdec as <-. reflexivity.
Defined.

(** Of the three margin instruments listed, one is live and quoted in
    USDT. *)
Lemma FetchInstruments_live_and_quoted_witness :
  FetchInstruments (transport := echo) (decoder := answers) "MARGIN" "USDT"
  = Ok [listed "BTC-USDT" "USDT" "live" "100"].
Proof.
  destruct (Fetching.FetchInstruments_live_and_quoted
              (transport := echo) (decoder := answers) "MARGIN" "USDT" _ eq_refl)
    as (body & response & Hreq & Hdec & _ & Hkept).
  injection Hreq as <-. injection Hdec as <-. reflexivity.
Defined.

(** The answer lists two rates for BTC: the later one is the borrow rate. *)
Lemma FetchInterestRates_last_rate_per_currency_witness :
  exists rates,
    FetchInterestRates (transport := echo) (decoder := answers) = Ok rates
    /\ rates !! "BTC" = Some 0.0003.
Proof.
  eexists. split; [reflexivity|].
  destruct (Schedule.FetchInterestRates_last_rate_per_currency
              (transport := echo) (decoder := answers) _ eq_refl)
    as (body & resp & Hreq & Hdec & _ & Hlast & _).
  rewrite (Hlast "BTC"). injection Hreq as <-. injection Hdec as <-.
  reflexivity.
Defined.

(** The two tied pairs of the ranking example: the first result is a
    contango of a positive difference, not below the minimum. *)
Lemma CalculateTopMarkPxDiffs_results_witness :
  (DR_PercentDiff (Ranking.tiedDiff "BTC") <? 0.24) = false
  /\ DR_IsContango (Ranking.tiedDiff "BTC")
     = (0 <? DR_ActualDiff (Ranking.tiedDiff "BTC"))
  /\ DR_TermStructure (Ranking.tiedDiff "BTC") = "Contango".
Proof.
  assert (CalculateTopMarkPxDiffs (sorter := insertion_SortSlice)
            (parse := decimal_ParseFloat64) Ranking.tiedPairs 10 0.24
          = Returns [Ranking.tiedDiff "BTC"; Ranking.tiedDiff "ETH"]) as Hdiffs
    by (vm_compute; reflexivity).
  destruct (Results.CalculateTopMarkPxDiffs_results
              (sorter := insertion_SortSlice) (parse := decimal_ParseFloat64)
              Ranking.tiedPairs 10 0.24 _ (Ranking.tiedDiff "BTC") Hdiffs
              (list_elem_of_here _ _))
    as (_ & _ & _ & _ & Hmin & _ & Hcontango & Hterm & _).
  split_and!; [exact Hmin | exact Hcontango | exact Hterm].
Defined.

(** The pair of the two books of the evaluation example. *)
Lemma CalculateRealArbitrageOpportunities_results_witness :
  exists r,
    CalculateRealArbitrageOpportunities (sorter := insertion_SortSlice)
      (parse := decimal_ParseFloat64) (client := ArbitrageEvaluator.twoBooks)
      [pairOf "BTC" "100" "101"] ArbitrageEvaluator.defaultConfig = [r]
    /\ RA_HasEnoughLiquidity r = true
    /\ (0 <? RA_PercentDiff r) = true
    /\ RA_TermStructure r = "Contango".
Proof.
  eexists. split; [vm_compute; reflexivity|].
  match goal with
  | |- RA_HasEnoughLiquidity ?r = true /\ _ =>
      destruct (Results.CalculateRealArbitrageOpportunities_results
                  (sorter := insertion_SortSlice)
                  (parse := decimal_ParseFloat64)
                  (client := ArbitrageEvaluator.twoBooks)
                  [pairOf "BTC" "100" "101"] ArbitrageEvaluator.defaultConfig r)
        as (_ & Hliquid & _ & _ & Hpositive & Hterm & _)
  end.
  { vm_compute. apply list_elem_of_here. }
  split_and!; [exact Hliquid | exact Hpositive | exact Hterm].
Defined.

(** A buy of 2 is filled by the first two asks: a third ask, the bids and
    the timestamp do not matter. *)
Lemma CalculateWeightedPrice_ignores_deeper_levels_witness :
  CalculateWeightedPrice
    {| OB_InstID := "BTC-USDT"; Bids := [level 99 5];
       Asks := [level 100 1; level 101 2; level 500 1]; OB_TS := "2" |}
    "buy" 2
  = CalculateWeightedPrice (book [level 100 1; level 101 2] []) "buy" 2.
Proof.
  apply (Depth.CalculateWeightedPrice_ignores_deeper_levels
           (book [level 100 1; level 101 2] [])
           {| OB_InstID := "BTC-USDT"; Bids := [level 99 5];
              Asks := [level 100 1; level 101 2; level 500 1]; OB_TS := "2" |}
           "buy" 2 (level 100 1) [level 101 2] [level 500 1]);
    reflexivity.
Defined.

(** The order-book mode on the small exchange: one pair, ranked, kept and
    printed. *)
Lemma main_order_book_table_witness :
  exists rows,
    run_main (flagsOf true 10) = Completes (OrderBookTable rows)
    /\ length rows = 1%nat
    /\ Forall (fun row =>
         RRow_actualProfit row
         = Program.orderBookProfit (transport := echo) (decoder := answers)
             {| SpotTaker := 0.001; SwapTaker := 0.0005; MarginBorrow := 0.0002 |}
             (RRow_result row)) rows.
Proof.
  assert (exists rows, run_main (flagsOf true 10) = Completes (OrderBookTable rows))
    as [rows Hrows] by (eexists; vm_compute; reflexivity).
  exists rows. split; [exact Hrows|].
  destruct (Program.main_order_book_table (flagsOf true 10) rows eq_refl Hrows)
    as (marginInstruments & swapInstruments & fees & _ & _ & Hfees & _ & _ & Hprofit).
  injection Hfees as <-. split; [|exact Hprofit].
  revert Hrows. vm_compute. intros [= <-]. reflexivity.
Defined.

(** The mark-price mode on the small exchange. *)
Lemma main_mark_price_table_witness :
  exists rows diffs,
    run_main (flagsOf false 10) = Completes (MarkPriceTable rows)
    /\ DRow_diff <$> rows = diffs
    /\ length diffs = 1%nat.
Proof.
  assert (exists rows, run_main (flagsOf false 10) = Completes (MarkPriceTable rows))
    as [rows Hrows] by (eexists; vm_compute; reflexivity).
  destruct (Program.main_mark_price_table (flagsOf false 10) rows eq_refl Hrows)
    as (marginMarkPrices & swapMarkPrices & marginInstruments & swapInstruments
        & fees & diffs & _ & _ & _ & _ & _ & _ & Hprinted & _).
  exists rows, (DRow_diff <$> rows). split; [exact Hrows|]. split; [done|].
  revert Hrows. vm_compute. intros [= <-]. reflexivity.
Defined.

(** The rows of the mark-price table of the small exchange have distinct
    base symbols. *)
Lemma main_one_row_per_symbol_witness :
  exists rows,
    run_main (flagsOf false 10) = Completes (MarkPriceTable rows)
    /\ NoDup ((fun row => DR_BaseSymbol (DRow_diff row)) <$> rows).
Proof.
  assert (exists rows, run_main (flagsOf false 10) = Completes (MarkPriceTable rows))
    as [rows Hrows] by (eexists; vm_compute; reflexivity).
  exists rows. split; [exact Hrows|].
  exact (Program.main_one_row_per_symbol (flagsOf false 10)
           (MarkPriceTable rows) Hrows).
Defined.

(** The row of the order-book table belongs to BTC-USDT, listed at 100. *)
Lemma main_order_book_needs_listed_prices_witness :
  exists rows marginInstruments,
    run_main (flagsOf true 10) = Completes (OrderBookTable rows)
    /\ FetchInstruments (transport := echo) (decoder := answers) "MARGIN" "USDT"
       = Ok marginInstruments
    /\ (Forall (fun inst => MarkPx inst = "") marginInstruments -> rows = []).
Proof.
  assert (exists rows, run_main (flagsOf true 10) = Completes (OrderBookTable rows))
    as [rows Hrows] by (eexists; vm_compute; reflexivity).
  destruct (Program.main_order_book_needs_listed_prices
              (flagsOf true 10) rows eq_refl Hrows)
    as (marginInstruments & Hlisting & _ & Hempty).
  exists rows, marginInstruments. split_and!; [exact Hrows | exact Hlisting | exact Hempty].
Defined.

(** The funding of the swap instrument as fetched. *)
Lemma FetchFundingInfo_first_element_witness :
  exists funding,
    FetchFundingInfo (transport := echo) (decoder := answers)
      (parse := decimal_ParseFloat64) (parseInt := decimalParseInt)
      "BTC-USDT-SWAP" = Ok funding
    /\ FI_InstID funding = "BTC-USDT-SWAP"
    /\ NextFundingTime funding = 1700000000000%Z.
Proof.
  eexists. split; [reflexivity|].
  destruct (Schedule.FetchFundingInfo_first_element
              (transport := echo) (decoder := answers)
              (parse := decimal_ParseFloat64) (parseInt := decimalParseInt)
              "BTC-USDT-SWAP" _ eq_refl)
    as (body & resp & data & others & Hreq & Hdec & _ & Hdata & Hid & _ & Htime).
  injection Hreq as <-. cbv [decodeFunding answers answer] in Hdec.
  injection Hdec as <-. simpl in Hdata. injection Hdata as Hdata _.
  subst data. split; [exact Hid|]. by vm_compute.
Defined.

(** The result of the order-book mode for a contango and a mark-price
    result for the same symbol are charged the same. *)
Lemma EstimateFees_reads_symbol_and_structure_witness :
  EstimateFees (Ranking.tiedDiff "BTC")
    {| SpotTaker := 0.001; SwapTaker := 0.0005; MarginBorrow := 0.0002 |} ∅
  = EstimateFees
      {| DR_BaseSymbol := "BTC"; DR_MarginMarkPx := 0; DR_SwapMarkPx := 0;
         DR_PercentDiff := 0; DR_ActualDiff := 0; DR_IsContango := false;
         DR_TermStructure := "Contango" |}
      {| SpotTaker := 0.001; SwapTaker := 0.0005; MarginBorrow := 0.0002 |} ∅.
Proof.
  destruct (Results.EstimateFees_reads_symbol_and_structure
              (Ranking.tiedDiff "BTC")
              {| DR_BaseSymbol := "BTC"; DR_MarginMarkPx := 0;
                 DR_SwapMarkPx := 0; DR_PercentDiff := 0; DR_ActualDiff := 0;
                 DR_IsContango := false; DR_TermStructure := "Contango" |}
              {| SpotTaker := 0.001; SwapTaker := 0.0005;
                 MarginBorrow := 0.0002 |} ∅ ∅ eq_refl) as [Hsame _].
  apply Hsame. reflexivity.
Defined.

(** The row of the mark-price table shows the funding of BTC-USDT-SWAP, an
    hour ahead; it is handled in the first turn. *)
Lemma main_funding_columns_witness :
  exists rows,
    run_main (flagsOf false 10) = Completes (MarkPriceTable rows)
    /\ Forall (fun row =>
         DRow_funding row
         = {| Rate := 0.0001; TimeToFunding := 3600000000000 |}) rows.
Proof.
  assert (exists rows, run_main (flagsOf false 10) = Completes (MarkPriceTable rows))
    as [rows Hrows] by (eexists; vm_compute; reflexivity).
  exists rows. split; [exact Hrows|].
  pose proof (FundingColumns.main_funding_columns (flagsOf false 10) _ Hrows)
    as (marginMarkPrices & swapMarkPrices & marginInstruments & swapInstruments
        & diffs & _ & _).
  revert Hrows. vm_compute. intros [= <-]. by repeat constructor.
Defined.

End Scenarios.
